(** * Instagram border tool: a shallow embedding of [instagram-border-tool.py]

    The program has three pieces of logic: [parse_color], [add_borders]
    (with [resize_for_preview]) and the debounced entry point
    [process_preview] (with [process_download]).  Python floats are IEEE-754
    binary64 numbers; they are modelled bit-exactly with the executable
    specification [SpecFloat] of the standard library (precision 53,
    [emax] 1024).  Python exceptions are values of an error monad, the
    module-level variable [last_update_time] is threaded explicitly. *)

From Stdlib Require Import ZArith Lia Bool List String Ascii.
From Stdlib Require Strings.Byte.
From Stdlib Require Import SpecFloat.
Import ListNotations.

Local Open Scope Z_scope.

(** ** Exceptions and the error monad *)

Inductive exn : Type :=
| KeyError
| ValueError
| TypeError
| ZeroDivisionError
| OverflowError
| IOError.

Inductive result (A : Type) : Type :=
| Ok (a : A)
| Raise (e : exn).

Arguments Ok {A} a.
Arguments Raise {A} e.

Definition bind {A B : Type} (m : result A) (k : A -> result B) : result B :=
  match m with
  | Ok a => k a
  | Raise e => Raise e
  end.

Notation "x <- m ;; k" := (bind m (fun x => k))
  (at level 61, m at next level, right associativity).
Notation "' p <- m ;; k" := (bind m (fun p => k))
  (at level 61, p pattern, m at next level, right associativity).

(** [try: ... except Exception: handler] around a computation. *)
Definition try_except {A : Type} (m : result A) (handler : exn -> A) : A :=
  match m with
  | Ok a => a
  | Raise e => handler e
  end.

(** ** Python floats *)

Module PyFloat.

Definition prec : Z := 53.
Definition emax : Z := 1024.

Definition float : Type := spec_float.

Definition fzero : float := S754_zero false.

Definition is_inf (f : float) : bool :=
  match f with
  | S754_infinity _ => true
  | _ => false
  end.

(** The quotient [n / d] of two positive integers, correctly rounded
    (to nearest, ties to even); [s] is the sign of the result. *)
Definition round_ratio (s : bool) (n d : Z) : float :=
  let '(q, e, l) := SFdiv_core_binary prec emax n 0 d 0 in
  binary_round_aux prec emax s q e l.

(** [float(n)] for a Python int, as in [int * float] and [int / float]. *)
Definition of_int (n : Z) : result float :=
  let f := binary_normalize prec emax n 0 false in
  if is_inf f then Raise OverflowError else Ok f.

(** [a / b] on Python ints (true division). *)
Definition int_truediv (a b : Z) : result float :=
  if b =? 0 then Raise ZeroDivisionError
  else if a =? 0 then Ok (S754_zero (b <? 0))
  else
    let f := round_ratio (xorb (a <? 0) (b <? 0)) (Z.abs a) (Z.abs b) in
    if is_inf f then Raise OverflowError else Ok f.

Definition is_zero (f : float) : bool :=
  match f with
  | S754_zero _ => true
  | _ => false
  end.

(** [x / y] on floats. *)
Definition truediv (x y : float) : result float :=
  if is_zero y then Raise ZeroDivisionError else Ok (SFdiv prec emax x y).

Definition mul (x y : float) : float := SFmul prec emax x y.
Definition sub (x y : float) : float := SFsub prec emax x y.
Definition ltb (x y : float) : bool := SFltb x y.
Definition gtb (x y : float) : bool := SFltb y x.

(** [int(x)]: truncation towards zero. *)
Definition to_int (x : float) : result Z :=
  match x with
  | S754_nan => Raise ValueError
  | S754_infinity _ => Raise OverflowError
  | S754_zero _ => Ok 0
  | S754_finite s m e =>
      let v := if 0 <=? e then Zpos m * 2 ^ e else Zpos m / 2 ^ (- e) in
      Ok (if s then - v else v)
  end.

(** [min(x, y)] on floats: the second argument wins only when it is
    strictly smaller. *)
Definition min (x y : float) : float := if ltb y x then y else x.

(** The value of the decimal literal [n / 10^k] ([k] digits after the
    point), as [float(str)] and float literals read it. *)
Definition of_decimal (n : Z) (k : Z) : float :=
  if n =? 0 then fzero else round_ratio false n (10 ^ k).

End PyFloat.

(** ** Python strings

    A [str] is modelled as a [string] whose characters are the code points
    below 256 (Latin-1); the colour picker of the interface produces ASCII
    text of the shapes [#RRGGBB] and [rgba(r, g, b, a)]. The module
    [PyUni] below models the strings of all code points; on the
    characters below 256 the two parsers agree
    ([parse_color_unicode_latin1]). *)

Module PyStr.

Local Open Scope char_scope.
Local Open Scope Z_scope.

Definition code (c : ascii) : Z := Z.of_N (N_of_ascii c).

Definition in_range (lo hi : ascii) (c : ascii) : bool :=
  (code lo <=? code c) && (code c <=? code hi).

(** [\d] of the [re] module: the decimal digits. *)
Definition is_digit (c : ascii) : bool := in_range "0" "9" c.

(** [\s] of the [re] module on [str] patterns: Unicode white space. *)
Definition is_space (c : ascii) : bool :=
  let n := code c in
  ((9 <=? n) && (n <=? 13)) || ((28 <=? n) && (n <=? 32))
  || (n =? 133) || (n =? 160).

(** White space skipped by [int(s, base)]: the ASCII blanks, and the
    non-ASCII Unicode spaces (which the conversion first maps to a blank). *)
Definition is_int_space (c : ascii) : bool :=
  let n := code c in
  ((9 <=? n) && (n <=? 13)) || (n =? 32) || (n =? 133) || (n =? 160).

Definition digit_val (c : ascii) : option Z :=
  if in_range "0" "9" c then Some (code c - code "0")
  else if in_range "a" "z" c then Some (code c - code "a" + 10)
  else if in_range "A" "Z" c then Some (code c - code "A" + 10)
  else None.

(** The value of [c] as a digit in base [base], if it is one. *)
Definition digit_in (base : Z) (c : ascii) : option Z :=
  match digit_val c with
  | Some v => if v <? base then Some v else None
  | None => None
  end.

Fixpoint lstrip (s : string) : string :=
  match s with
  | String c s' => if is_int_space c then lstrip s' else s
  | EmptyString => s
  end.

Fixpoint all_space (s : string) : bool :=
  match s with
  | String c s' => is_int_space c && all_space s'
  | EmptyString => true
  end.

(** The digit loop of [int]: digits separated by single underscores.
    [prev] tells whether the previous character was an underscore, [n]
    counts the digits read. Returns the value and the unread suffix. *)
Fixpoint scan_digits (base : Z) (s : string) (acc : Z) (n : nat) (prev : bool)
  : result (Z * nat * string) :=
  match s with
  | String c s' =>
      if Ascii.eqb c "_" then
        if prev then Raise ValueError else scan_digits base s' acc n true
      else
        match digit_in base c with
        | Some v => scan_digits base s' (acc * base + v) (S n) false
        | None => if prev then Raise ValueError else Ok (acc, n, s)
        end
  | EmptyString => if prev then Raise ValueError else Ok (acc, n, s)
  end.

Definition skip_sign (s : string) : bool * string :=
  match s with
  | String "+" s' => (false, s')
  | String "-" s' => (true, s')
  | _ => (false, s)
  end.

Definition skip_prefix16 (s : string) : string :=
  match s with
  | String "0" (String "x" s') | String "0" (String "X" s') =>
      match s' with
      | String "_" s'' => s''
      | _ => s'
      end
  | _ => s
  end.

(** [int(s, 16)]. *)
Definition int16 (s : string) : result Z :=
  let '(neg, s1) := skip_sign (lstrip s) in
  let s2 := skip_prefix16 s1 in
  match s2 with
  | String "_" _ => Raise ValueError
  | _ =>
      '(v, n, rest) <- scan_digits 16 s2 0 0 false ;;
      match n with
      | O => Raise ValueError
      | S _ => if all_space rest then Ok (if neg then - v else v)
               else Raise ValueError
      end
  end.

(** [s[i:i+2]]. *)
Definition slice2 (s : string) (i : nat) : string := substring i 2 s.

Definition startswith (p s : string) : bool := String.prefix p s.

(** *** A backtracking matcher for the fragment of [re] the program uses:
    literals, the classes [\d] and [\s], the greedy quantifiers [?], [*]
    and [+] on single characters, and capture groups. *)

Inductive atom : Type :=
| Lit (c : ascii)
| Digit
| Space.

Inductive item : Type :=
| One (a : atom)
| Opt (a : atom)
| Star (a : atom)
| Plus (a : atom)
| GOpen
| GClose.

Definition atom_matches (a : atom) (c : ascii) : bool :=
  match a with
  | Lit c' => Ascii.eqb c' c
  | Digit => is_digit c
  | Space => is_space c
  end.

(** Captures: the groups already closed (in order) and the text of the
    group being read, if one is open. *)
Record captures : Type := { closed : list string; cur : option string }.

Definition push (c : ascii) (k : captures) : captures :=
  {| closed := closed k;
     cur := match cur k with
            | Some t => Some (t ++ String c EmptyString)%string
            | None => None
            end |}.

Definition gopen (k : captures) : captures :=
  {| closed := closed k; cur := Some EmptyString |}.

Definition gclose (k : captures) : captures :=
  {| closed := match cur k with
               | Some t => closed k ++ [t]
               | None => closed k
               end;
     cur := None |}.

Definition orelse {A : Type} (x : option A) (y : option A) : option A :=
  match x with
  | Some _ => x
  | None => y
  end.

Fixpoint rmatch (r : list item) (s : string) (k : captures) {struct r}
  : option captures :=
  match r with
  | [] => Some k
  | One a :: r' =>
      match s with
      | String c s' => if atom_matches a c then rmatch r' s' (push c k) else None
      | EmptyString => None
      end
  | Opt a :: r' =>
      match s with
      | String c s' =>
          if atom_matches a c
          then orelse (rmatch r' s' (push c k)) (rmatch r' s k)
          else rmatch r' s k
      | EmptyString => rmatch r' s k
      end
  | Star a :: r' =>
      (fix star (s : string) (k : captures) {struct s} : option captures :=
         match s with
         | String c s' =>
             if atom_matches a c
             then orelse (star s' (push c k)) (rmatch r' s k)
             else rmatch r' s k
         | EmptyString => rmatch r' s k
         end) s k
  | Plus a :: r' =>
      match s with
      | String c s' =>
          if atom_matches a c then
            (fix star (s : string) (k : captures) {struct s} : option captures :=
               match s with
               | String c s' =>
                   if atom_matches a c
                   then orelse (star s' (push c k)) (rmatch r' s k)
                   else rmatch r' s k
               | EmptyString => rmatch r' s k
               end) s' (push c k)
          else None
      | EmptyString => None
      end
  | GOpen :: r' => rmatch r' s (gopen k)
  | GClose :: r' => rmatch r' s (gclose k)
  end.

(** [re.match(pattern, s)] followed by [.groups()]. *)
Definition re_match (r : list item) (s : string) : option (list string) :=
  match rmatch r s {| closed := []; cur := None |} with
  | Some k => Some (closed k)
  | None => None
  end.

(** *** [float(s)] on the texts that a group [\d+\.?\d*] captures *)

Fixpoint digits_value (s : string) (acc : Z) : Z :=
  match s with
  | String c s' => digits_value s' (acc * 10 + (code c - code "0"))
  | EmptyString => acc
  end.

Fixpoint all_digits (s : string) : bool :=
  match s with
  | String c s' => is_digit c && all_digits s'
  | EmptyString => true
  end.

(** Splits [s] at its first point: the text before it, and the text
    after it when there is one. *)
Fixpoint split_point (s : string) : string * option string :=
  match s with
  | String c s' =>
      if Ascii.eqb c "." then (EmptyString, Some s')
      else let '(a, b) := split_point s' in (String c a, b)
  | EmptyString => (EmptyString, None)
  end.

(** [float(s)] for a plain decimal literal: digits, optionally followed
    by a point and more digits. Signs, exponents, blanks and the special
    values are not part of this model: the pattern never captures them. *)
Definition float_of_str (s : string) : result PyFloat.float :=
  let '(a, b) := split_point s in
  let b := match b with Some t => t | None => EmptyString end in
  if all_digits a && all_digits b && negb (String.length a + String.length b =? 0)%nat
  then Ok (PyFloat.of_decimal (digits_value (a ++ b) 0) (Z.of_nat (String.length b)))
  else Raise ValueError.

End PyStr.

(** ** The colour parser *)

Definition color : Type := (Z * Z * Z)%type.

Definition white : color := (255, 255, 255).

Section ParseColor.

Import PyStr.
Local Open Scope char_scope.
Local Open Scope Z_scope.

(** The capture group around [\d+\.?\d*]. *)
Definition number_group : list item :=
  [GOpen; Plus Digit; Opt (Lit "."); Star Digit; GClose].

(** The pattern: [rgba?\(], then three such groups, separated by [,\s*]. *)
Definition rgba_pattern : list item :=
  [One (Lit "r"); One (Lit "g"); One (Lit "b"); Opt (Lit "a"); One (Lit "(")]
    ++ number_group ++ [One (Lit ","); Star Space]
    ++ number_group ++ [One (Lit ","); Star Space]
    ++ number_group.

Definition int_of_float_str (x : string) : result Z :=
  f <- float_of_str x ;; PyFloat.to_int f.

(** [tuple(... for x in xs)] with three elements is a colour; the
    generator stops at the first element that raises. *)
Definition tuple3 (f : string -> result Z) (xs : list string) : result color :=
  match xs with
  | [x1; x2; x3] =>
      r <- f x1 ;; g <- f x2 ;; b <- f x3 ;; Ok (r, g, b)
  | _ => Raise TypeError
  end.

(** The body of the [try] block of [parse_color]. *)
Definition parse_color_body (color_str : string) : result color :=
  match re_match rgba_pattern color_str with
  | Some groups => tuple3 int_of_float_str groups
  | None =>
      if startswith "#"%string color_str then
        tuple3 int16 (map (slice2 color_str) [1%nat; 3%nat; 5%nat])
      else Ok white
  end.

Definition parse_color (color_str : string) : color :=
  try_except (parse_color_body color_str) (fun _ => white).

End ParseColor.

(** ** Images

    The imaging library is an external collaborator. An image of the
    library is a grid of RGB pixels of three bytes each, stored row by
    row; [Image_new] and [paste] follow the behaviour of [Image.new] and
    of [Image.paste] with an offset and no mask (the pasted region is
    clipped to the canvas). The library's limits on sizes and on the
    magnitude of the integers of a colour (C integers) are outside this
    model. *)

Definition byte : Type := Byte.byte.

Definition pixel : Type := (byte * byte * byte)%type.

(** The value of a channel, as [getpixel] shows it. *)
Definition channel (b : byte) : Z := Z.of_N (Byte.to_N b).

Definition pixel_color (p : pixel) : color :=
  let '(r, g, b) := p in (channel r, channel g, channel b).

(** Conversion of an integer to an unsigned byte, with wrap-around:
    [astype('uint8')] on an integer array. *)
Definition uint8 (v : Z) : byte :=
  match Byte.of_N (Z.to_N (v mod 256)) with
  | Some b => b
  | None => Byte.x00
  end.

(** The byte the library stores for a channel of a colour tuple: the
    value clipped to the range of a byte. *)
Definition clip8 (v : Z) : byte :=
  uint8 (if v <=? 0 then 0 else if v <? 256 then v else 255).

(** The pixel written for a colour tuple. *)
Definition ink (c : color) : pixel :=
  let '(r, g, b) := c in (clip8 r, clip8 g, clip8 b).

(** The colours that a pixel holds as they are. *)
Definition in_gamut (c : color) : Prop :=
  let '(r, g, b) := c in 0 <= r < 256 /\ 0 <= g < 256 /\ 0 <= b < 256.

Record Image : Type := { width : Z; height : Z; rows : list (list pixel) }.

Definition size (im : Image) : Z * Z := (width im, height im).

Definition nth_Z {A : Type} (l : list A) (i : Z) : option A :=
  if i <? 0 then None else nth_error l (Z.to_nat i).

Definition getpixel (im : Image) (x y : Z) : option pixel :=
  match nth_Z (rows im) y with
  | Some row => nth_Z row x
  | None => None
  end.

Definition Image_new (sz : Z * Z) (c : color) : result Image :=
  let '(w, h) := sz in
  if (w <? 0) || (h <? 0) then Raise ValueError
  else Ok {| width := w; height := h;
             rows := repeat (repeat (ink c) (Z.to_nat w)) (Z.to_nat h) |}.

(** [imap f i l] maps [f] over [l] with the index of each element,
    counting from [i]. *)
Fixpoint imap {A B : Type} (f : Z -> A -> B) (i : Z) (l : list A) : list B :=
  match l with
  | [] => []
  | a :: l' => f i a :: imap f (i + 1) l'
  end.

Definition paste (canvas im : Image) (box : Z * Z) : Image :=
  let '(px, py) := box in
  {| width := width canvas; height := height canvas;
     rows := imap (fun y row =>
                     imap (fun x c =>
                             match getpixel im (x - px) (y - py) with
                             | Some p => p
                             | None => c
                             end) 0 row) 0 (rows canvas) |}.

(** The rows of a well-formed image agree with its size. *)
Definition wf_image (im : Image) : Prop :=
  0 <= width im /\ 0 <= height im /\
  List.length (rows im) = Z.to_nat (height im) /\
  Forall (fun row => List.length row = Z.to_nat (width im)) (rows im).

(** The imaging library keeps the two sizes of an image in C [int]s. *)
Definition max_dim : Z := 2 ^ 31.

Definition valid_source (im : Image) : Prop :=
  wf_image im /\ 0 < width im < max_dim /\ 0 < height im < max_dim.

(** *** Arrays

    The interface passes the uploaded image as an array ([type="numpy"]).
    An array is modelled as an integer array of shape
    [(shape0, shape1, 3)]: [shape0] rows of [shape1] triples. Arrays of
    floats and arrays of other shapes are outside this model. *)

Record ndarray : Type := { shape0 : Z; shape1 : Z; data : list (list color) }.

(** [a[y][x]] for indices that are not negative. *)
Definition array_get (a : ndarray) (y x : Z) : option color :=
  match nth_Z (data a) y with
  | Some row => nth_Z row x
  | None => None
  end.

Definition uint8_pixel (c : color) : pixel :=
  let '(r, g, b) := c in (uint8 r, uint8 g, uint8 b).

(** [a.astype('uint8')]: every value modulo 256. *)
Definition astype_uint8 (a : ndarray) : list (list pixel) :=
  map (map uint8_pixel) (data a).

(** [Image.fromarray(a.astype('uint8'))]: the image is [shape1] wide and
    [shape0] high. *)
Definition fromarray_uint8 (a : ndarray) : Image :=
  {| width := shape1 a; height := shape0 a; rows := astype_uint8 a |}.

(** The image argument of [add_borders]: an image of the library or an
    array. *)
Inductive image_input : Type :=
| PilImage (im : Image)
| NumpyArray (a : ndarray).

(** Lines 44 and 45: an array is converted to an image of the library. *)
Definition as_pil_image (image : image_input) : Image :=
  match image with
  | PilImage im => im
  | NumpyArray a => fromarray_uint8 a
  end.

(** ** The state of the process *)

(** What [processed_image.jpg] holds: nothing yet, the encoding of an
    image, or what a [save] that raised has left (the library opens the
    file for writing before it encodes, so the file may be truncated). *)
Inductive file : Type :=
| Absent
| Jpeg (im : Image)
| Unspecified.

Record World : Type := {
  last_update_time : PyFloat.float;  (** the module-level variable *)
  temp_file : file;                  (** what [processed_image.jpg] holds *)
  printed : list (string * exn)      (** the messages written by [print] *)
}.

Definition set_time (t : PyFloat.float) (w : World) : World :=
  {| last_update_time := t; temp_file := temp_file w; printed := printed w |}.

Definition set_file (im : Image) (w : World) : World :=
  {| last_update_time := last_update_time w; temp_file := Jpeg im;
     printed := printed w |}.

(** The file after a [save] that raised. *)
Definition clobber_file (w : World) : World :=
  {| last_update_time := last_update_time w; temp_file := Unspecified;
     printed := printed w |}.

Definition print (where_ : string) (e : exn) (w : World) : World :=
  {| last_update_time := last_update_time w; temp_file := temp_file w;
     printed := printed w ++ [(where_, e)] |}.

Definition initial_world : World :=
  {| last_update_time := PyFloat.fzero; temp_file := Absent; printed := [] |}.

(** [update_interval = 0.1] *)
Definition update_interval : PyFloat.float := PyFloat.of_decimal 1 1.

(** ** The compositor and the entry points *)

Definition INSTAGRAM_RATIOS : list (string * (Z * Z)) :=
  [("1:1 (Square)", (1, 1)); ("4:5 (Portrait)", (4, 5));
   ("16:9 (Landscape)", (16, 9))]%string.

(** [d[key]] on a dictionary. *)
Fixpoint getitem {V : Type} (d : list (string * V)) (key : string) : result V :=
  match d with
  | [] => Raise KeyError
  | (k, v) :: d' => if String.eqb k key then Ok v else getitem d' key
  end.

(** Lines 59 to 71 of [add_borders]: the size of the canvas for an image
    of size [orig_width] x [orig_height]. *)
Definition new_dimensions (orig_width orig_height : Z) (target_ratio : Z * Z)
  : result (Z * Z) :=
  target_ratio_value <- PyFloat.int_truediv (fst target_ratio) (snd target_ratio) ;;
  orig_ratio <- PyFloat.int_truediv orig_width orig_height ;;
  if PyFloat.gtb orig_ratio target_ratio_value then
    w <- PyFloat.of_int orig_width ;;
    q <- PyFloat.truediv w target_ratio_value ;;
    new_height <- PyFloat.to_int q ;;
    Ok (orig_width, new_height)
  else
    h <- PyFloat.of_int orig_height ;;
    new_width <- PyFloat.to_int (PyFloat.mul h target_ratio_value) ;;
    Ok (new_width, orig_height).

(** [paste_x] and [paste_y] (lines 77 and 78). *)
Definition paste_offset (new_size orig_size : Z * Z) : Z * Z :=
  ((fst new_size - fst orig_size) / 2, (snd new_size - snd orig_size) / 2).

(** Lines 48 to 81 of [add_borders]: the canvas with the image pasted. *)
Definition composite (image : Image) (border_color aspect_ratio : string)
  : result Image :=
  let border_color := parse_color border_color in
  target_ratio <- getitem INSTAGRAM_RATIOS aspect_ratio ;;
  new_size <- new_dimensions (width image) (height image) target_ratio ;;
  new_image <- Image_new new_size border_color ;;
  Ok (paste new_image image (paste_offset new_size (size image))).

Section Compositor.

(** [image.resize(size, Image.Resampling.LANCZOS)] *)
Variable resize : Image -> Z * Z -> result Image.
(** [image.save(path, format='JPEG', quality=100)] *)
Variable save : Image -> string -> result unit.
(** [os.path.join(tempfile.gettempdir(), "processed_image.jpg")] *)
Variable temp_path : string.

Definition resize_for_preview_body (image : Image) (max_size : Z)
  : result Image :=
  let '(width, height) := size image in
  if (width >? max_size) || (height >? max_size) then
    rw <- PyFloat.int_truediv max_size width ;;
    rh <- PyFloat.int_truediv max_size height ;;
    let ratio := PyFloat.min rw rh in
    fw <- PyFloat.of_int width ;;
    nw <- PyFloat.to_int (PyFloat.mul fw ratio) ;;
    fh <- PyFloat.of_int height ;;
    nh <- PyFloat.to_int (PyFloat.mul fh ratio) ;;
    resize image (nw, nh)
  else Ok image.

Definition resize_for_preview (image : Image) (max_size : Z) (w : World)
  : Image * World :=
  match resize_for_preview_body image max_size with
  | Ok im => (im, w)
  | Raise e => (image, print "resize_for_preview" e w)
  end.

(** The [try] block of [add_borders], after the test for a missing
    image: the value or the exception, and the state it leaves. A [save]
    that raises leaves the file unspecified. *)
Definition add_borders_body (image : image_input) (border_color aspect_ratio : string)
    (is_preview : bool) (w : World)
  : result (option Image * option string) * World :=
  let image := as_pil_image image in
  match composite image border_color aspect_ratio with
  | Ok new_image =>
      if is_preview then
        let '(new_image, w') := resize_for_preview new_image 800 w in
        (Ok (Some new_image, None), w')
      else
        match save new_image temp_path with
        | Ok _ => (Ok (Some new_image, Some temp_path), set_file new_image w)
        | Raise e => (Raise e, clobber_file w)
        end
  | Raise e => (Raise e, w)
  end.

Definition add_borders (image : option image_input) (border_color aspect_ratio : string)
    (is_preview : bool) (w : World)
  : (option Image * option string) * World :=
  match image with
  | None => ((None, None), w)
  | Some image =>
      match add_borders_body image border_color aspect_ratio is_preview w with
      | (Ok v, w') => (v, w')
      | (Raise e, w') => ((None, None), print "add_borders" e w')
      end
  end.

(** [process_preview]; [current_time] is the value of [time.time()].
    No statement of its [try] block raises: float subtraction and
    comparison do not, and [add_borders] catches its own exceptions. *)
Definition process_preview (current_time : PyFloat.float)
    (input_image : option image_input) (border_color aspect_ratio : string)
    (w : World) : option Image * World :=
  if PyFloat.ltb (PyFloat.sub current_time (last_update_time w)) update_interval
  then (None, w)
  else
    let w := set_time current_time w in
    match input_image with
    | None => (None, w)
    | Some _ =>
        let '((preview_image, _), w') :=
          add_borders input_image border_color aspect_ratio true w in
        (preview_image, w')
    end.

(** [process_download]; here too no statement of the [try] block raises. *)
Definition process_download (input_image : option image_input)
    (border_color aspect_ratio : string) (w : World)
  : option string * World :=
  match input_image with
  | None => (None, w)
  | Some _ =>
      let '((_, download_path), w') :=
        add_borders input_image border_color aspect_ratio false w in
      (download_path, w')
  end.

End Compositor.

(** ** Notions used to state the properties of the float operations *)

Module FloatSpec.
Import PyFloat.

(** A shift record [mrs] locates the rational [X / D]: its mantissa is
    the integer part, its round and sticky bits tell where the fractional
    part lies with respect to one half. *)
Definition located (mrs : shr_record) (X D : Z) : Prop :=
  0 < D /\ 0 <= X /\ shr_m mrs = X / D /\
  shr_r mrs = (D <=? 2 * (X mod D)) /\
  shr_s mrs = negb (X mod D =? 0) && negb (2 * (X mod D) =? D).

(** Rounding [X / D] to the nearest integer, ties to even. *)
Definition rne (X D : Z) : Z :=
  let q := X / D in
  match 2 * (X mod D) ?= D with
  | Lt => q
  | Gt => q + 1
  | Eq => if Z.even q then q else q + 1
  end.

(** [M * 2^(-g)] is a float with a 53-bit mantissa nearest to [N / Dn],
    and its mantissa is even when [N / Dn] lies half-way between two
    floats. *)
Definition nearest (M g N Dn : Z) : Prop :=
  2 ^ 52 <= M < 2 ^ 53 /\ 0 <= g /\
  (2 * M - 1) * Dn <= 2 * N * 2 ^ g <= (2 * M + 1) * Dn /\
  (2 * N * 2 ^ g = (2 * M + 1) * Dn -> Z.even M = true) /\
  (2 * N * 2 ^ g = (2 * M - 1) * Dn -> Z.even M = true).

(** The float [M * 2^(-g)], with [M] positive. *)
Definition fpos (M g : Z) : float := S754_finite false (Z.to_pos M) (- g).

(** The mantissa of the float of a positive integer [n] below [2^53]. *)
Definition mant (n : Z) : Z := n * 2 ^ (53 - Zdigits2 n).

End FloatSpec.

(** The three target ratios as floats: mantissa and (negated) exponent. *)
Definition target_float (r : Z * Z) : Z * Z :=
  if (fst r =? 1) then (0x10000000000000, 52)
  else if (fst r =? 4) then (0x1999999999999A, 53)
  else (0x1C71C71C71C71C, 52).

Definition preset (r : Z * Z) : Prop := r = (1, 1) \/ r = (4, 5) \/ r = (16, 9).

(** The canvas size in exact arithmetic, as the specification words it:
    a source relatively wider than the target ratio [a / b] keeps its width
    and gets the height [floor (w / (a / b))], any other source keeps its
    height and gets the width [floor (h * (a / b))]. *)
Definition exact_dimensions (w h : Z) (r : Z * Z) : Z * Z :=
  if h * fst r <? w * snd r then (w, w * snd r / fst r)
  else (h * fst r / snd r, h).

(** Stand-ins for the external collaborators, to run the entry points on
    concrete inputs: a nearest-neighbour [resize], a [save] that succeeds. *)
Definition zrange (n : Z) : list Z := map Z.of_nat (seq 0 (Z.to_nat n)).

Definition sample_resize (im : Image) (sz : Z * Z) : result Image :=
  let '(nw, nh) := sz in
  if (nw <? 0) || (nh <? 0) then Raise ValueError
  else Ok {| width := nw; height := nh;
             rows := map (fun y =>
                            map (fun x =>
                                   match getpixel im (x * width im / nw) (y * height im / nh) with
                                   | Some p => p
                                   | None => ink (0, 0, 0)
                                   end) (zrange nw)) (zrange nh) |}.

Definition sample_save (im : Image) (path : string) : result unit := Ok tt.

Definition sample_path : string := "/tmp/processed_image.jpg".

Definition sample_pixel : pixel := ink (1, 2, 3).

Definition sample_image : Image :=
  {| width := 4; height := 2;
     rows := [repeat sample_pixel 4; repeat sample_pixel 4] |}.

Definition sample_square : Image :=
  {| width := 2; height := 2;
     rows := [repeat sample_pixel 2; repeat sample_pixel 2] |}.

(** An array with values outside the range of a byte: converted, it is
    [sample_image]. *)
Definition sample_array : ndarray :=
  {| shape0 := 2; shape1 := 4;
     data := [repeat (257, 2, -253) 4; repeat (1, 258, 3) 4] |}.

(** ** Characters in the pairs of a hex colour *)

Definition is_hex (c : ascii) : bool :=
  match PyStr.digit_in 16 c with
  | Some _ => true
  | None => false
  end.

(** The characters [int(s, 16)] can accept in a text of at most two
    characters: hex digits, a sign, white space. *)
Definition int_char (c : ascii) : bool :=
  is_hex c || Ascii.eqb c "+" || Ascii.eqb c "-" || PyStr.is_int_space c.

Definition all_ascii : list ascii := map ascii_of_nat (seq 0 256).

Definition check_int16 (t : string) (hex ok : bool) : bool :=
  match PyStr.int16 t with
  | Ok v => (-15 <=? v) && (v <=? 255) && ok && implb hex (0 <=? v)
  | Raise _ => negb hex
  end.

Definition check1 (c : ascii) : bool :=
  check_int16 (String c EmptyString) (is_hex c) (int_char c).

Definition check2 (c1 c2 : ascii) : bool :=
  check_int16 (String c1 (String c2 EmptyString))
    (is_hex c1 && is_hex c2) (int_char c1 && int_char c2).

(** The [#] branch of [parse_color]. *)
Definition hex_triple (s : string) : result color :=
  tuple3 PyStr.int16 (map (PyStr.slice2 s) [1%nat; 3%nat; 5%nat]).


(** ** Strings of any characters

    A [str] is a sequence of Unicode code points. The model [PyStr] keeps
    to the code points below 256; this one takes them all. The classes
    [\d] and [\s] of a [str] pattern are the decimal digits and the white
    space of the character database of the interpreter; [int] and [float]
    first map their argument to ASCII (a decimal digit of any script to
    its ASCII digit, white space to a blank, any other character from 127
    on to a question mark, where the text ends) and then read the ASCII
    text. The database is a parameter; [unicode_decimal] and
    [unicode_isspace] are the tables of Unicode 14.0 (Python 3.11). *)

Module PyUni.

(** [int_char] on the characters below 256. *)
Definition ascii_int_char : ascii -> bool := int_char.

Definition ustr : Type := list N.

Definition of_string (s : string) : ustr :=
  map N_of_ascii (list_ascii_of_string s).

Section Database.

(** [Py_UNICODE_TODECIMAL]: the value of a decimal digit. *)
Variable to_decimal : N -> option Z.
(** [Py_UNICODE_ISSPACE]. *)
Variable isspace : N -> bool.

Definition isdecimal (c : N) : bool :=
  match to_decimal c with
  | Some _ => true
  | None => false
  end.

(** The ASCII text that [int] and [float] read. *)
Fixpoint to_ascii (s : ustr) : string :=
  match s with
  | [] => EmptyString
  | c :: s' =>
      if (c <? 127)%N then String (ascii_of_N c) (to_ascii s')
      else if isspace c then String " "%char (to_ascii s')
      else
        match to_decimal c with
        | Some d => String (ascii_of_N (48 + Z.to_N d)) (to_ascii s')
        | None => String "?"%char EmptyString
        end
  end.

(** [int(s, 16)]. *)
Definition int16 (s : ustr) : result Z := PyStr.int16 (to_ascii s).

(** [float(s)], on the texts that a group of the pattern captures. *)
Definition float_of_str (s : ustr) : result PyFloat.float :=
  PyStr.float_of_str (to_ascii s).

(** [s[i:i+2]]. *)
Definition slice2 (s : ustr) (i : nat) : ustr := firstn 2 (skipn i s).

Fixpoint startswith (p s : ustr) : bool :=
  match p, s with
  | [], _ => true
  | a :: p', b :: s' => (a =? b)%N && startswith p' s'
  | _ :: _, [] => false
  end.

Definition atom_matches (a : PyStr.atom) (c : N) : bool :=
  match a with
  | PyStr.Lit c' => (N_of_ascii c' =? c)%N
  | PyStr.Digit => isdecimal c
  | PyStr.Space => isspace c
  end.

Record captures : Type := { closed : list ustr; cur : option ustr }.

Definition push (c : N) (k : captures) : captures :=
  {| closed := closed k;
     cur := match cur k with
            | Some t => Some (t ++ [c])
            | None => None
            end |}.

Definition gopen (k : captures) : captures :=
  {| closed := closed k; cur := Some [] |}.

Definition gclose (k : captures) : captures :=
  {| closed := match cur k with
               | Some t => closed k ++ [t]
               | None => closed k
               end;
     cur := None |}.

(** The backtracking matcher of [PyStr], on code points. *)
Fixpoint rmatch (r : list PyStr.item) (s : ustr) (k : captures) {struct r}
  : option captures :=
  match r with
  | [] => Some k
  | PyStr.One a :: r' =>
      match s with
      | c :: s' => if atom_matches a c then rmatch r' s' (push c k) else None
      | [] => None
      end
  | PyStr.Opt a :: r' =>
      match s with
      | c :: s' =>
          if atom_matches a c
          then PyStr.orelse (rmatch r' s' (push c k)) (rmatch r' s k)
          else rmatch r' s k
      | [] => rmatch r' s k
      end
  | PyStr.Star a :: r' =>
      (fix star (s : ustr) (k : captures) {struct s} : option captures :=
         match s with
         | c :: s' =>
             if atom_matches a c
             then PyStr.orelse (star s' (push c k)) (rmatch r' s k)
             else rmatch r' s k
         | [] => rmatch r' s k
         end) s k
  | PyStr.Plus a :: r' =>
      match s with
      | c :: s' =>
          if atom_matches a c then
            (fix star (s : ustr) (k : captures) {struct s} : option captures :=
               match s with
               | c :: s' =>
                   if atom_matches a c
                   then PyStr.orelse (star s' (push c k)) (rmatch r' s k)
                   else rmatch r' s k
               | [] => rmatch r' s k
               end) s' (push c k)
          else None
      | [] => None
      end
  | PyStr.GOpen :: r' => rmatch r' s (gopen k)
  | PyStr.GClose :: r' => rmatch r' s (gclose k)
  end.

(** [re.match(pattern, s)] followed by [.groups()]. *)
Definition re_match (r : list PyStr.item) (s : ustr) : option (list ustr) :=
  match rmatch r s {| closed := []; cur := None |} with
  | Some k => Some (closed k)
  | None => None
  end.

Definition int_of_float_str (x : ustr) : result Z :=
  f <- float_of_str x ;; PyFloat.to_int f.

Definition tuple3 (f : ustr -> result Z) (xs : list ustr) : result color :=
  match xs with
  | [x1; x2; x3] =>
      r <- f x1 ;; g <- f x2 ;; b <- f x3 ;; Ok (r, g, b)
  | _ => Raise TypeError
  end.

(** The [#] branch of [parse_color]. *)
Definition hex_triple (s : ustr) : result color :=
  tuple3 int16 (map (slice2 s) [1%nat; 3%nat; 5%nat]).

(** The body of the [try] block of [parse_color]. *)
Definition parse_color_body (color_str : ustr) : result color :=
  match re_match rgba_pattern color_str with
  | Some groups => tuple3 int_of_float_str groups
  | None =>
      if startswith (of_string "#") color_str then hex_triple color_str
      else Ok white
  end.

Definition parse_color (color_str : ustr) : color :=
  try_except (parse_color_body color_str) (fun _ => white).

(** The characters [int(s, 16)] can accept in a text of at most two
    characters: ASCII hex digits and signs, white space, and the decimal
    digits of any script. *)
Definition int_char (c : N) : bool :=
  if (c <? 127)%N then ascii_int_char (ascii_of_N c)
  else isspace c || isdecimal c.

End Database.

(** The first code points of the ranges of ten decimal digits. *)
Definition unicode_zeros : list N :=
  [
   0x30; 0x660; 0x6F0; 0x7C0; 0x966; 0x9E6; 0xA66; 0xAE6;
   0xB66; 0xBE6; 0xC66; 0xCE6; 0xD66; 0xDE6; 0xE50; 0xED0;
   0xF20; 0x1040; 0x1090; 0x17E0; 0x1810; 0x1946; 0x19D0; 0x1A80;
   0x1A90; 0x1B50; 0x1BB0; 0x1C40; 0x1C50; 0xA620; 0xA8D0; 0xA900;
   0xA9D0; 0xA9F0; 0xAA50; 0xABF0; 0xFF10; 0x104A0; 0x10D30; 0x11066;
   0x110F0; 0x11136; 0x111D0; 0x112F0; 0x11450; 0x114D0; 0x11650; 0x116C0;
   0x11730; 0x118E0; 0x11950; 0x11C50; 0x11D50; 0x11DA0; 0x16A60; 0x16AC0;
   0x16B50; 0x1D7CE; 0x1D7D8; 0x1D7E2; 0x1D7EC; 0x1D7F6; 0x1E140; 0x1E2F0;
   0x1E950; 0x1FBF0
  ]%N.

Definition unicode_decimal (c : N) : option Z :=
  match find (fun z => (z <=? c) && (c <? z + 10))%N unicode_zeros with
  | Some z => Some (Z.of_N (c - z))
  | None => None
  end.

Definition unicode_spaces : list N :=
  [
   0x9; 0xA; 0xB; 0xC; 0xD; 0x1C; 0x1D; 0x1E;
   0x1F; 0x20; 0x85; 0xA0; 0x1680; 0x2000; 0x2001; 0x2002;
   0x2003; 0x2004; 0x2005; 0x2006; 0x2007; 0x2008; 0x2009; 0x200A;
   0x2028; 0x2029; 0x202F; 0x205F; 0x3000
  ]%N.

Definition unicode_isspace (c : N) : bool := existsb (N.eqb c) unicode_spaces.

End PyUni.

(** ** A declarative reading of the matcher *)

Module RegexSpec.
Import PyStr.

(** A successful run of the matcher: the items [r] consume the text [t]
    and take the captures from [k] to [k']. *)
Inductive run : list item -> string -> captures -> captures -> Prop :=
| run_nil k : run [] EmptyString k k
| run_one a r c t k k' :
    atom_matches a c = true -> run r t (push c k) k' ->
    run (One a :: r) (String c t) k k'
| run_opt_skip a r t k k' : run r t k k' -> run (Opt a :: r) t k k'
| run_opt_take a r c t k k' :
    atom_matches a c = true -> run r t (push c k) k' ->
    run (Opt a :: r) (String c t) k k'
| run_star_stop a r t k k' : run r t k k' -> run (Star a :: r) t k k'
| run_star_step a r c t k k' :
    atom_matches a c = true -> run (Star a :: r) t (push c k) k' ->
    run (Star a :: r) (String c t) k k'
| run_plus a r c t k k' :
    atom_matches a c = true -> run (Star a :: r) t (push c k) k' ->
    run (Plus a :: r) (String c t) k k'
| run_open r t k k' : run r t (gopen k) k' -> run (GOpen :: r) t k k'
| run_close r t k k' : run r t (gclose k) k' -> run (GClose :: r) t k k'.

Definition matches (r : list item) (s : string) (k k' : captures) : Prop :=
  exists t rest, s = (t ++ rest)%string /\ run r t k k'.

(** The captures after the characters of [ds] have been pushed. *)
Definition pushes (ds : string) (k : captures) : captures :=
  {| closed := closed k;
     cur := match cur k with
            | Some x => Some (x ++ ds)%string
            | None => None
            end |}.

Fixpoint all_atom (a : atom) (s : string) : bool :=
  match s with
  | String c s' => atom_matches a c && all_atom a s'
  | EmptyString => true
  end.

(** The texts [float_of_str] reads: they are the ones a group captures. *)
Definition decimal (x : string) : Prop := exists f, float_of_str x = Ok f.

End RegexSpec.

(** * Definitions for the further properties *)

(** ** Colour texts *)

(** The hex digit of [n] (below 16), in upper or lower case. *)
Definition hex_digit (upper : bool) (n : Z) : ascii :=
  if n <? 10 then ascii_of_nat (Z.to_nat (48 + n))
  else ascii_of_nat (Z.to_nat ((if upper then 55 else 87) + n)).

(** The two hex digits of a byte. *)
Definition hex2 (upper : bool) (n : Z) : string :=
  String (hex_digit upper (n / 16)) (String (hex_digit upper (n mod 16)) EmptyString).

Definition check_hex2 (n : nat) : bool :=
  match PyStr.int16 (hex2 true (Z.of_nat n)), PyStr.int16 (hex2 false (Z.of_nat n)) with
  | Ok v1, Ok v2 => (v1 =? Z.of_nat n) && (v2 =? Z.of_nat n)
  | _, _ => false
  end.

(** A plain numeral: digits only, at least one, with a value below [2^52]. *)
Definition numeral (d : string) : Prop :=
  d <> EmptyString /\ PyStr.all_digits d = true /\ PyStr.digits_value d 0 < 2 ^ 52.

(** The text after a number: it does not go on with a digit or a point. *)
Definition ends_number (tail : string) : Prop :=
  match tail with
  | EmptyString => True
  | String c _ => PyStr.is_digit c = false /\ c <> "."%char
  end.

(** The prefix of a functional colour. *)
Definition rgb_prefix (alpha : bool) : string := if alpha then "rgba(" else "rgb(".

(** ** Clock readings and more sample images *)

(** A clock reading: a finite float. *)
Definition finite_time (t : PyFloat.float) : Prop :=
  match t with
  | S754_finite _ _ _ | S754_zero _ => True
  | _ => False
  end.

(** An image of height zero. *)
Definition sample_flat : Image := {| width := 4; height := 0; rows := [] |}.

(** An image of width zero. *)
Definition sample_thin : Image := {| width := 0; height := 2; rows := [[]; []] |}.

(** An image larger than the preview. *)
Definition sample_large : Image :=
  {| width := 1078; height := 800;
     rows := repeat (repeat sample_pixel (Z.to_nat 1078)) (Z.to_nat 800) |}.

(** An image of width zero, higher than the preview. *)
Definition sample_thin_tall : Image :=
  {| width := 0; height := 900; rows := repeat [] (Z.to_nat 900) |}.

(** A [resize] that keeps the requested size only. *)
Definition size_only_resize (im : Image) (sz : Z * Z) : result Image :=
  Ok {| width := fst sz; height := snd sz; rows := [] |}.

(** ** The two models of strings *)

(** The captures of the matcher of [PyStr], as captures of [PyUni]. *)
Definition of_captures (k : PyStr.captures) : PyUni.captures :=
  {| PyUni.closed := map PyUni.of_string (PyStr.closed k);
     PyUni.cur := option_map PyUni.of_string (PyStr.cur k) |}.

(** [PyUni.to_ascii] on the characters below 256. *)
Fixpoint latin1_to_ascii (s : string) : string :=
  match s with
  | EmptyString => EmptyString
  | String c s' =>
      if PyStr.code c <? 127 then String c (latin1_to_ascii s')
      else if PyStr.is_space c then String " "%char (latin1_to_ascii s')
      else String "?"%char EmptyString
  end.

(** Equality of two results of [int]; it raises [ValueError] only. *)
Definition result_eqb (x y : result Z) : bool :=
  match x, y with
  | Ok a, Ok b => a =? b
  | Raise ValueError, Raise ValueError => true
  | _, _ => false
  end.

Definition check_to_ascii (t : string) : bool :=
  result_eqb (PyStr.int16 (latin1_to_ascii t)) (PyStr.int16 t).

Definition check_class (c : ascii) : bool :=
  Bool.eqb (PyUni.isdecimal PyUni.unicode_decimal (N_of_ascii c)) (PyStr.is_digit c)
  && Bool.eqb (PyUni.unicode_isspace (N_of_ascii c)) (PyStr.is_space c).

(** * Tests of the model against the interpreter *)

Module Tests.

Example ex1 : PyFloat.int_truediv 4 5 = Ok (S754_finite false 0x1999999999999A (-53)).
Proof. vm_compute. reflexivity. Qed.
Example ex2 : PyFloat.int_truediv 16 9 = Ok (S754_finite false 0x1C71C71C71C71C (-52)).
Proof. vm_compute. reflexivity. Qed.
Example ex3 : (t <- PyFloat.int_truediv 16 9 ;; h <- PyFloat.of_int 9 ;; PyFloat.to_int (PyFloat.mul h t)) = Ok 16.
Proof. vm_compute. reflexivity. Qed.
Example ex4 : (t <- PyFloat.int_truediv 4 5 ;; h <- PyFloat.of_int 1000 ;; q <- PyFloat.truediv h t ;; PyFloat.to_int q) = Ok 1250.
Proof. vm_compute. reflexivity. Qed.
Example ex5 : PyFloat.to_int (PyFloat.of_decimal 25599999999999999999999 20) = Ok 256.
Proof. vm_compute. reflexivity. Qed.
Example ex6 : PyFloat.of_decimal 1 1 = S754_finite false 0x1999999999999A (-56).
Proof. vm_compute. reflexivity. Qed.
Local Open Scope string_scope.
Example pc1 : parse_color "#FF0000" = (255, 0, 0). Proof. vm_compute. reflexivity. Qed.
Example pc2 : parse_color "rgba(10,20,30,0.5)" = (10, 20, 30). Proof. vm_compute. reflexivity. Qed.
Example pc3 : parse_color "garbage" = (255, 255, 255). Proof. vm_compute. reflexivity. Qed.
Example pc4 : parse_color "rgb(300,0,0)" = (300, 0, 0). Proof. vm_compute. reflexivity. Qed.
Example pc5 : parse_color "#FFFFF" = (255, 255, 15). Proof. vm_compute. reflexivity. Qed.
Example pc6 : parse_color "#-F0000" = (-15, 0, 0). Proof. vm_compute. reflexivity. Qed.
Example pc7 : parse_color "rgba(255, 255, 255, 1)" = (255, 255, 255). Proof. vm_compute. reflexivity. Qed.
Example pc8 : parse_color "rgb(255.99999999999999999999,1.,2.5)" = (256, 1, 2). Proof. vm_compute. reflexivity. Qed.
Example pc9 : PyStr.re_match rgba_pattern "rgb(1.,2,3.5.6" = Some ["1."; "2"; "3.5"]. Proof. vm_compute. reflexivity. Qed.
Example pc10 : parse_color "#0x0000" = white. Proof. vm_compute. reflexivity. Qed.
Example pc11 : parse_color "#FFFF" = white. Proof. vm_compute. reflexivity. Qed.

Example pu1 : PyUni.parse_color PyUni.unicode_decimal PyUni.unicode_isspace
  ([35; 0x663; 0x663]%N ++ PyUni.of_string "0000")%list = (51, 0, 0).
Proof. vm_compute. reflexivity. Qed.
Example pu2 : PyUni.parse_color PyUni.unicode_decimal PyUni.unicode_isspace
  (PyUni.of_string "rgb(" ++ [0x663; 0x663; 44; 0x2003; 0x661; 46; 0x665]%N ++ PyUni.of_string ",7)")%list = (33, 1, 7).
Proof. vm_compute. reflexivity. Qed.
Example pu3 : PyUni.parse_color PyUni.unicode_decimal PyUni.unicode_isspace
  ([35; 0x2003]%N ++ PyUni.of_string "F0000")%list = (15, 0, 0).
Proof. vm_compute. reflexivity. Qed.
Example pu4 : PyUni.parse_color PyUni.unicode_decimal PyUni.unicode_isspace
  ([35; 0xE9]%N ++ PyUni.of_string "0000")%list = white.
Proof. vm_compute. reflexivity. Qed.
Example pu5 : PyUni.parse_color PyUni.unicode_decimal PyUni.unicode_isspace
  ([35; 0x31; 0x1D7CE]%N ++ PyUni.of_string "0000")%list = (16, 0, 0).
Proof. vm_compute. reflexivity. Qed.
Example pu6 : PyUni.parse_color PyUni.unicode_decimal PyUni.unicode_isspace
  ([35; 0x46; 0x7F]%N ++ PyUni.of_string "0000")%list = white.
Proof. vm_compute. reflexivity. Qed.
Example pu7 : PyUni.parse_color PyUni.unicode_decimal PyUni.unicode_isspace
  ([35; 0x20; 0x46; 0xA0; 0x85; 0x41]%N)%list = white.
Proof. vm_compute. reflexivity. Qed.
Example pu8 : PyUni.parse_color PyUni.unicode_decimal PyUni.unicode_isspace
  ([35; 0x1C]%N ++ PyUni.of_string "F0000")%list = white.
Proof. vm_compute. reflexivity. Qed.
Example pu9 : PyUni.parse_color PyUni.unicode_decimal PyUni.unicode_isspace
  (PyUni.of_string "rgb(1," ++ [0x1C]%N ++ PyUni.of_string "2,3)")%list = (1, 2, 3).
Proof. vm_compute. reflexivity. Qed.
Example pu10 : PyUni.parse_color PyUni.unicode_decimal PyUni.unicode_isspace
  ([35; 0x46; 0x46; 0xFF11]%N ++ PyUni.of_string "0000")%list = (255, 16, 0).
Proof. vm_compute. reflexivity. Qed.
Example pu11 : PyUni.parse_color PyUni.unicode_decimal PyUni.unicode_isspace
  (PyUni.of_string "#FFFFF")%list = (255, 255, 15).
Proof. vm_compute. reflexivity. Qed.

Example nd1 : new_dimensions 1000 500 (1,1) = Ok (1000, 1000). Proof. vm_compute. reflexivity. Qed.
Example nd2 : new_dimensions 1000 500 (16,9) = Ok (1000, 562). Proof. vm_compute. reflexivity. Qed.
Example nd3 : new_dimensions 1000 500 (4,5) = Ok (1000, 1250). Proof. vm_compute. reflexivity. Qed.
Example nd4 : new_dimensions 500 1000 (16,9) = Ok (1777, 1000). Proof. vm_compute. reflexivity. Qed.
Example nd5 : new_dimensions 16 9 (16,9) = Ok (16, 9). Proof. vm_compute. reflexivity. Qed.
Example nd6 : new_dimensions 500 1000 (4,5) = Ok (800, 1000). Proof. vm_compute. reflexivity. Qed.
Example cp1 : composite sample_image "#FF0000" "1:1 (Square)" =
Ok {| width := 4; height := 4; rows := [repeat (ink (255,0,0)) 4; repeat sample_pixel 4; repeat sample_pixel 4; repeat (ink (255,0,0)) 4] |}.
Proof. vm_compute. reflexivity. Qed.
Example nd7 : paste_offset (1000, 1000) (1000, 500) = (0, 250).
Proof. reflexivity. Qed.
Example ex7 : PyFloat.int_truediv (2 ^ 53 + 1) 1 = Ok (S754_finite false 0x10000000000000 1).
Proof. vm_compute. reflexivity. Qed.
Example ex8 : PyFloat.int_truediv 0 (-5) = Ok (S754_zero true).
Proof. vm_compute. reflexivity. Qed.
Example pp1 : PyFloat.ltb (PyFloat.sub (PyFloat.of_decimal 10005 2) (PyFloat.of_decimal 100 0)) update_interval = true.
Proof. vm_compute. reflexivity. Qed.
Example pp2 : PyFloat.ltb (PyFloat.sub (PyFloat.of_decimal 1002 1) (PyFloat.of_decimal 100 0)) update_interval = false.
Proof. vm_compute. reflexivity. Qed.

End Tests.

(** * Rounding of the float operations *)

Module FloatFacts.
Import PyFloat FloatSpec.

Lemma digits2_pos_size (p : positive) : digits2_pos p = Pos.size p.
Proof. induction p; simpl; congruence. Qed.

Lemma Zdigits2_log2 (m : Z) : 0 < m -> Zdigits2 m = Z.log2 m + 1.
Proof.
  destruct m as [|p|p]; try lia. intros _.
  simpl. rewrite digits2_pos_size.
  destruct p; simpl; lia.
Qed.

Lemma Zdigits2_bounds (m : Z) :
  0 < m -> 2 ^ (Zdigits2 m - 1) <= m < 2 ^ Zdigits2 m.
Proof.
  intros H. rewrite Zdigits2_log2 by assumption.
  replace (Z.log2 m + 1 - 1) with (Z.log2 m) by lia.
  pose proof (Z.log2_spec m H). replace (Z.log2 m + 1) with (Z.succ (Z.log2 m)) by lia.
  assumption.
Qed.

Lemma Zdigits2_unique (m d : Z) :
  2 ^ (d - 1) <= m < 2 ^ d -> 0 < d -> Zdigits2 m = d.
Proof.
  intros H Hd.
  assert (0 < m) by (pose proof (Z.pow_pos_nonneg 2 (d - 1)); lia).
  rewrite Zdigits2_log2 by assumption.
  assert (Z.log2 m = d - 1); [|lia].
  apply Z.log2_unique; [lia|]. replace (Z.succ (d - 1)) with d by lia. assumption.
Qed.

Lemma iter_pos_nat {A : Type} (f : A -> A) (n : positive) (x : A) :
  iter_pos f n x = Nat.iter (Pos.to_nat n) f x.
Proof.
  revert x. induction n as [n IH|n IH|]; intros x; cbn [iter_pos].
  - rewrite !IH. rewrite Pos2Nat.inj_xI.
    replace (S (2 * Pos.to_nat n)) with (Pos.to_nat n + (Pos.to_nat n + 1))%nat by lia.
    rewrite !Nat.iter_add. reflexivity.
  - rewrite !IH. rewrite Pos2Nat.inj_xO.
    replace (2 * Pos.to_nat n)%nat with (Pos.to_nat n + Pos.to_nat n)%nat by lia.
    rewrite Nat.iter_add. reflexivity.
  - reflexivity.
Qed.


Lemma shr_1_nonneg (m : Z) (r s : bool) :
  0 <= m ->
  shr_1 {| shr_m := m; shr_r := r; shr_s := s |} =
  {| shr_m := m / 2; shr_r := Z.odd m; shr_s := r || s |}.
Proof.
  intros Hm. rewrite <- Z.div2_div.
  destruct m as [|p|p]; [reflexivity| |lia].
  destruct p; reflexivity.
Qed.

Lemma located_shr_1 (mrs : shr_record) (X D : Z) :
  located mrs X D -> located (shr_1 mrs) X (2 * D).
Proof.
  destruct mrs as [m r s]. unfold located. cbn [shr_m shr_r shr_s].
  intros (HD & HX & Hm & Hr & Hs).
  assert (Hq : 0 <= X / D) by (apply Z.div_pos; lia).
  rewrite shr_1_nonneg by lia. cbn [shr_m shr_r shr_s].
  pose proof (Z.mod_pos_bound X D HD) as Hrho.
  assert (Hdiv : X / (2 * D) = X / D / 2).
  { rewrite (Z.mul_comm 2 D). rewrite Z.div_div by lia. reflexivity. }
  assert (Hmod : X mod (2 * D) = X mod D + D * ((X / D) mod 2)).
  { rewrite (Z.mul_comm 2 D). apply Z.rem_mul_r; lia. }
  rewrite Hdiv, Hmod. subst m r s.
  rewrite Zmod_odd.
  split; [lia|]. split; [lia|]. split; [reflexivity|].
  destruct (Z.odd (X / D));
    destruct (Z.leb_spec D (2 * (X mod D)));
    destruct (Z.eqb_spec (X mod D) 0);
    destruct (Z.eqb_spec (2 * (X mod D)) D);
    destruct (Z.eqb_spec (X mod D + D * 0) 0);
    destruct (Z.eqb_spec (2 * (X mod D + D * 0)) (2 * D));
    destruct (Z.eqb_spec (X mod D + D * 1) 0);
    destruct (Z.eqb_spec (2 * (X mod D + D * 1)) (2 * D));
    destruct (Z.leb_spec (2 * D) (2 * (X mod D + D * 0)));
    destruct (Z.leb_spec (2 * D) (2 * (X mod D + D * 1)));
    simpl; try lia; split; reflexivity.
Qed.

Lemma located_iter (k : nat) (mrs : shr_record) (X D : Z) :
  located mrs X D -> located (Nat.iter k shr_1 mrs) X (2 ^ Z.of_nat k * D).
Proof.
  intros H. induction k as [|k IH].
  - change (Z.of_nat 0) with 0. rewrite Z.pow_0_r, Z.mul_1_l. exact H.
  - rewrite Nat2Z.inj_succ, Z.pow_succ_r by lia.
    cbn [Nat.iter nat_rect]. rewrite <- Z.mul_assoc.
    apply located_shr_1. exact IH.
Qed.

Lemma located_round (mrs : shr_record) (X D : Z) :
  located mrs X D ->
  round_nearest_even (shr_m mrs) (loc_of_shr_record mrs) = rne X D.
Proof.
  destruct mrs as [m r s]. unfold located, rne. cbn [shr_m shr_r shr_s].
  intros (HD & HX & Hm & Hr & Hs).
  pose proof (Z.mod_pos_bound X D HD) as Hrho.
  destruct (Z.compare_spec (2 * (X mod D)) D) as [E|E|E];
    destruct (Z.leb_spec D (2 * (X mod D)));
    destruct (Z.eqb_spec (X mod D) 0);
    destruct (Z.eqb_spec (2 * (X mod D)) D);
    try lia; subst r s m; simpl; try reflexivity.
Qed.

Lemma rne_nearest (X D : Z) :
  0 < D -> 0 <= X ->
  let M := rne X D in
  X / D <= M <= X / D + 1 /\
  (2 * M - 1) * D <= 2 * X <= (2 * M + 1) * D /\
  (2 * X = (2 * M + 1) * D -> Z.even M = true) /\
  (2 * X = (2 * M - 1) * D -> Z.even M = true).
Proof.
  intros HD HX. unfold rne.
  pose proof (Z.mod_pos_bound X D HD) as Hrho.
  pose proof (Z.div_mod X D ltac:(lia)) as Hdm.
  set (q := X / D) in *. set (r := X mod D) in *.
  assert (Hq : (2 * q - 1) * D = 2 * (D * q) - D) by ring.
  assert (Hq' : (2 * q + 1) * D = 2 * (D * q) + D) by ring.
  assert (Hq1 : (2 * (q + 1) - 1) * D = 2 * (D * q) + D) by ring.
  assert (Hq1' : (2 * (q + 1) + 1) * D = 2 * (D * q) + 3 * D) by ring.
  cbv zeta.
  destruct (Z.compare_spec (2 * r) D) as [E|E|E].
  - destruct (Z.even q) eqn:Ev.
    + rewrite Hq, Hq'. repeat split; try lia; intros _; exact Ev.
    + rewrite Hq1, Hq1'.
      assert (Z.even (q + 1) = true) by (rewrite Z.even_add, Ev; reflexivity).
      repeat split; try lia; intros _; assumption.
  - rewrite Hq, Hq'. repeat split; lia.
  - rewrite Hq1, Hq1'. repeat split; lia.
Qed.


Lemma fexp_normal (e : Z) : -1074 <= e - 53 -> fexp prec emax e = e - 53.
Proof. unfold fexp, emin, prec, emax. lia. Qed.

Lemma shr_nat (mrs : shr_record) (e n : Z) :
  0 <= n -> shr mrs e n = (Nat.iter (Z.to_nat n) shr_1 mrs, e + n).
Proof.
  intros Hn. destruct n as [|p|p]; [|..|lia].
  - simpl. rewrite Z.add_0_r. reflexivity.
  - unfold shr. rewrite iter_pos_nat. reflexivity.
Qed.

Lemma shr_fexp_normal (m e : Z) (l : location) :
  2 ^ 52 <= m -> -1074 <= e ->
  shr_fexp prec emax m e l =
  (Nat.iter (Z.to_nat (Zdigits2 m - 53)) shr_1 (shr_record_of_loc m l),
   e + (Zdigits2 m - 53)).
Proof.
  intros Hm He.
  assert (Hd : 53 <= Zdigits2 m).
  { pose proof (Zdigits2_bounds m ltac:(lia)) as [_ Hb].
    destruct (Z_lt_le_dec (Zdigits2 m) 53) as [Hlt|]; [|assumption].
    exfalso.
    assert (2 ^ Zdigits2 m <= 2 ^ 52) by (apply Z.pow_le_mono_r; lia).
    lia. }
  unfold shr_fexp. rewrite fexp_normal by lia.
  replace (Zdigits2 m + e - 53 - e) with (Zdigits2 m - 53) by lia.
  apply shr_nat. lia.
Qed.

Theorem round_aux_nearest (s : bool) (mx ex : Z) (lx : location) (X D : Z) :
  located (shr_record_of_loc mx lx) X D ->
  2 ^ 52 <= mx -> -1074 <= ex <= 0 -> X < 2 ^ 52 * (D * 2 ^ (- ex)) ->
  exists M g,
    binary_round_aux prec emax s mx ex lx = S754_finite s (Z.to_pos M) (- g) /\
    nearest M g X (D * 2 ^ (- ex)).
Proof.
  intros Hloc Hmx Hex Hval.
  assert (HD : 0 < D) by apply Hloc.
  assert (HX : 0 <= X) by apply Hloc.
  assert (Hq : mx = X / D).
  { destruct Hloc as (_ & _ & Hm & _). destruct lx as [|[| |]]; exact Hm. }
  pose proof (Zdigits2_bounds mx ltac:(lia)) as Hdig.
  set (d := Zdigits2 mx) in *.
  assert (Hd : 53 <= d).
  { destruct (Z_lt_le_dec d 53) as [Hlt|]; [|assumption]. exfalso.
    assert (2 ^ d <= 2 ^ 52) by (apply Z.pow_le_mono_r; lia). lia. }
  set (k := d - 53).
  assert (Hk : 0 <= k) by lia.
  set (K := 2 ^ k).
  assert (HK : 0 < K) by (apply Z.pow_pos_nonneg; lia).
  assert (Hpd : 2 ^ (d - 1) = 2 ^ 52 * K).
  { unfold K. rewrite <- Z.pow_add_r by lia. f_equal. lia. }
  assert (Hpd' : 2 ^ d = 2 ^ 53 * K).
  { unfold K. rewrite <- Z.pow_add_r by lia. f_equal. lia. }
  (* the exponent after the first shift is negative *)
  set (E := 2 ^ (- ex)) in *.
  assert (HE : 0 < E) by (apply Z.pow_pos_nonneg; lia).
  assert (HmxE : mx < 2 ^ 52 * E).
  { rewrite Hq. apply Z.div_lt_upper_bound; [lia|].
    replace (D * (2 ^ 52 * E)) with (2 ^ 52 * (D * E)) by ring. exact Hval. }
  assert (HKE : K < E) by nia.
  assert (Hkex : k < - ex).
  { destruct (Z_lt_le_dec k (- ex)) as [|Hge]; [assumption|]. exfalso.
    assert (E <= K) by (apply Z.pow_le_mono_r; lia). lia. }
  unfold binary_round_aux.
  rewrite shr_fexp_normal by lia. fold d. fold k.
  pose proof (located_iter (Z.to_nat k) _ _ _ Hloc) as Hloc'.
  rewrite Z2Nat.id in Hloc' by lia. fold K in Hloc'.
  rewrite (located_round _ _ _ Hloc').
  pose proof (rne_nearest X (K * D) ltac:(nia) HX) as Hrne.
  cbv zeta in Hrne.
  set (M0 := rne X (K * D)) in *.
  destruct Hrne as (HM0q & HM0 & Htu & Htl).
  assert (Hqk : 2 ^ 52 <= X / (K * D) < 2 ^ 53).
  { rewrite (Z.mul_comm K D), <- Z.div_div by lia. rewrite <- Hq. split.
    - apply Z.div_le_lower_bound; lia.
    - apply Z.div_lt_upper_bound; lia. }
  assert (HM0r : 2 ^ 52 <= M0 <= 2 ^ 53) by lia.
  destruct (Z_lt_le_dec M0 (2 ^ 53)) as [Hlt|Hge].
  - (* no carry *)
    rewrite shr_fexp_normal by lia.
    rewrite (Zdigits2_unique M0 53) by (simpl Z.sub; lia).
    replace (53 - 53) with 0 by lia. cbn [Z.to_nat Nat.iter nat_rect shr_record_of_loc shr_m].
    destruct M0 as [|p|p] eqn:EM0; try lia.
    replace (ex + k + 0 <=? emax - prec) with true
      by (symmetry; apply Z.leb_le; unfold emax, prec; lia).
    exists (Z.pos p), (- ex - k).
    split; [f_equal; lia|].
    assert (HEg : E = K * 2 ^ (- ex - k)).
    { unfold E, K. rewrite <- Z.pow_add_r by lia. f_equal. lia. }
    set (G := 2 ^ (- ex - k)) in *.
    assert (HG : 0 < G) by (apply Z.pow_pos_nonneg; lia).
    unfold nearest. rewrite HEg.
    replace ((2 * Z.pos p - 1) * (D * (K * G))) with ((2 * Z.pos p - 1) * (K * D) * G) by ring.
    replace ((2 * Z.pos p + 1) * (D * (K * G))) with ((2 * Z.pos p + 1) * (K * D) * G) by ring.
    split; [lia|]. split; [lia|]. split; [nia|].
    split; intros Ht; [apply Htu|apply Htl]; nia.
  - (* the mantissa overflows to 2^53 *)
    assert (EM0 : M0 = 2 ^ 53) by lia.
    rewrite shr_fexp_normal by lia. rewrite EM0.
    change (Zdigits2 (2 ^ 53) - 53) with 1.
    change (shr_m (Nat.iter (Z.to_nat 1) shr_1 (shr_record_of_loc (2 ^ 53) loc_Exact)))
      with (Z.pos (Z.to_pos (2 ^ 52))).
    cbv iota beta.
    rewrite EM0 in HM0.
    assert (Hk1 : k + 1 <= - ex).
    { destruct (Z_lt_le_dec (- ex) (k + 1)) as [Hl|]; [|assumption]. exfalso.
      assert (- ex = k) by lia.
      assert (E = K) by (unfold E, K; congruence). nia. }
    replace (ex + k + 1 <=? emax - prec) with true
      by (symmetry; apply Z.leb_le; unfold emax, prec; lia).
    exists (2 ^ 52), (- ex - k - 1).
    split; [f_equal; lia|].
    assert (HEg : E = 2 * K * 2 ^ (- ex - k - 1)).
    { change (2 * K) with (2 ^ 1 * K). unfold E, K.
      rewrite <- !Z.pow_add_r by lia. f_equal. lia. }
    set (G := 2 ^ (- ex - k - 1)) in *.
    assert (HG : 0 < G) by (apply Z.pow_pos_nonneg; lia).
    unfold nearest. rewrite HEg.
    split; [lia|]. split; [lia|]. split; [nia|].
    split; intros _; reflexivity.
Qed.


Lemma located_exact (m : Z) :
  0 <= m -> located (shr_record_of_loc m loc_Exact) m 1.
Proof.
  intros Hm. unfold located. cbn [shr_record_of_loc shr_m shr_r shr_s].
  rewrite Z.div_1_r, Z.mod_1_r. repeat split; lia.
Qed.

Lemma located_new_location (q d r : Z) :
  0 <= q -> 0 <= r < d ->
  located (shr_record_of_loc q (new_location d r)) (q * d + r) d.
Proof.
  intros Hq Hr.
  assert (Hdiv : (q * d + r) / d = q).
  { rewrite Z.div_add_l by lia. rewrite Z.div_small by lia. lia. }
  assert (Hmod : (q * d + r) mod d = r).
  { rewrite Z.add_comm, Z.mod_add by lia. apply Z.mod_small. lia. }
  unfold located. rewrite Hdiv, Hmod.
  split; [lia|]. split; [nia|].
  unfold new_location, new_location_even, new_location_odd.
  destruct (Z.even d) eqn:Ev.
  - destruct (Z.eqb_spec r 0) as [E0|E0].
    + subst r. cbn [shr_record_of_loc shr_m shr_r shr_s].
      repeat split. symmetry. apply Z.leb_gt. lia.
    + destruct (Z.compare_spec (2 * r) d);
        cbn [shr_record_of_loc shr_m shr_r shr_s];
        destruct (Z.leb_spec d (2 * r)); destruct (Z.eqb_spec (2 * r) d);
        try lia; repeat split.
  - assert (Hodd : 2 * r <> d).
    { intros <-. rewrite Z.even_mul in Ev. discriminate. }
    destruct (Z.eqb_spec r 0) as [E0|E0].
    + subst r. cbn [shr_record_of_loc shr_m shr_r shr_s].
      repeat split. symmetry. apply Z.leb_gt. lia.
    + destruct (Z.compare_spec (2 * r + 1) d);
        cbn [shr_record_of_loc shr_m shr_r shr_s];
        destruct (Z.leb_spec d (2 * r)); destruct (Z.eqb_spec (2 * r) d);
        try lia; repeat split.
Qed.

Lemma nearest_scale (M g N Dn c : Z) :
  0 < c -> nearest M g (N * c) (Dn * c) -> nearest M g N Dn.
Proof.
  intros Hc (HM & Hg & Hb & Htu & Htl).
  assert (HG : 0 < 2 ^ g) by (apply Z.pow_pos_nonneg; lia).
  set (G := 2 ^ g) in *.
  unfold nearest. fold G.
  split; [assumption|]. split; [assumption|].
  split; [nia|].
  split; intros Ht; [apply Htu|apply Htl]; nia.
Qed.

(** True division of two positive integers below [2^52]. *)
Lemma int_truediv_nearest (w h : Z) :
  0 < w < 2 ^ 52 -> 0 < h < 2 ^ 52 ->
  exists M g, int_truediv w h = Ok (fpos M g) /\ nearest M g w h.
Proof.
  intros Hw Hh.
  unfold int_truediv.
  replace (h =? 0) with false by (symmetry; apply Z.eqb_neq; lia).
  replace (w =? 0) with false by (symmetry; apply Z.eqb_neq; lia).
  replace (w <? 0) with false by (symmetry; apply Z.ltb_ge; lia).
  replace (h <? 0) with false by (symmetry; apply Z.ltb_ge; lia).
  rewrite !Z.abs_eq by lia. cbn [xorb].
  unfold round_ratio, SFdiv_core_binary.
  pose proof (Zdigits2_bounds w ltac:(lia)) as Hdw.
  pose proof (Zdigits2_bounds h ltac:(lia)) as Hdh.
  set (dw := Zdigits2 w) in *. set (dh := Zdigits2 h) in *.
  assert (Hdw1 : 1 <= dw <= 52).
  { split.
    - destruct (Z_lt_le_dec dw 1); [|assumption]. exfalso.
      assert (2 ^ dw <= 2 ^ 0) by (apply Z.pow_le_mono_r; lia).
      change (2 ^ 0) with 1 in *. lia.
    - destruct (Z_lt_le_dec 52 dw); [|assumption]. exfalso.
      assert (2 ^ 52 <= 2 ^ (dw - 1)) by (apply Z.pow_le_mono_r; lia). lia. }
  assert (Hdh1 : 1 <= dh <= 52).
  { split.
    - destruct (Z_lt_le_dec dh 1); [|assumption]. exfalso.
      assert (2 ^ dh <= 2 ^ 0) by (apply Z.pow_le_mono_r; lia).
      change (2 ^ 0) with 1 in *. lia.
    - destruct (Z_lt_le_dec 52 dh); [|assumption]. exfalso.
      assert (2 ^ 52 <= 2 ^ (dh - 1)) by (apply Z.pow_le_mono_r; lia). lia. }
  rewrite !Z.add_0_r, Z.sub_0_r.
  rewrite fexp_normal by lia.
  rewrite Z.min_l by lia.
  set (sh := 0 - (dw - dh - 53)).
  assert (Hsh : sh = 53 + dh - dw) by (unfold sh; lia).
  assert (Hm' : match sh with
                | 0 => w
                | Z.pos _ => Z.shiftl w sh
                | Z.neg _ => 0
                end = w * 2 ^ sh).
  { destruct sh eqn:Es; try lia. apply Z.shiftl_mul_pow2. lia. }
  rewrite Hm'. clear Hm'.
  set (S := 2 ^ sh).
  assert (HS : 0 < S) by (apply Z.pow_pos_nonneg; lia).
  pose proof (Z.div_mod (w * S) h ltac:(lia)) as Hdm.
  pose proof (Z.mod_pos_bound (w * S) h ltac:(lia)) as Hr.
  unfold Z.div, Z.modulo in Hdm, Hr.
  destruct (Z.div_eucl (w * S) h) as [q r]. cbn [fst snd] in *.
  (* the quotient has at least 53 bits *)
  assert (HSd : S * 2 ^ dw = 2 ^ 53 * 2 ^ dh).
  { unfold S. rewrite <- !Z.pow_add_r by lia. f_equal. lia. }
  assert (Hdw2 : 2 ^ dw = 2 * 2 ^ (dw - 1)).
  { change 2 with (2 ^ 1) at 2. rewrite <- Z.pow_add_r by lia. f_equal. lia. }
  assert (Hq : 2 ^ 52 <= q).
  { destruct (Z_lt_le_dec q (2 ^ 52)) as [Hlt|]; [|assumption]. exfalso.
    assert (q + 1 <= 2 ^ 52) by lia.
    assert (h * (q + 1) <= 2 ^ dh * 2 ^ 52) by nia.
    nia. }
  destruct (round_aux_nearest false q (dw - dh - 53) (new_location h r) (w * S) h)
    as (M & g & Hres & Hnear).
  - rewrite Hdm. rewrite (Z.mul_comm h q). apply located_new_location; lia.
  - assumption.
  - lia.
  - replace (- (dw - dh - 53)) with sh by lia. fold S. nia.
  - exists M, g. rewrite Hres. cbn [is_inf]. split; [reflexivity|].
    replace (- (dw - dh - 53)) with sh in Hnear by lia. fold S in Hnear.
    apply nearest_scale with (c := S); assumption.
Qed.


Lemma pos_iter_xO (p n : positive) :
  Z.pos (Pos.iter xO p n) = Z.pos p * 2 ^ Z.pos n.
Proof.
  rewrite <- Z.shiftl_mul_pow2 by lia.
  unfold Z.shiftl.
  apply (Pos.iter_swap_gen _ _ Z.pos xO (Z.mul 2)). reflexivity.
Qed.

(** A canonical mantissa goes through [binary_round_aux] unchanged. *)
Lemma round_aux_canonical (m e : Z) :
  2 ^ 52 <= m < 2 ^ 53 -> -1074 <= e <= 971 ->
  binary_round_aux prec emax false m e loc_Exact = S754_finite false (Z.to_pos m) e.
Proof.
  intros Hm He. unfold binary_round_aux.
  rewrite shr_fexp_normal by lia.
  rewrite (Zdigits2_unique m 53) by (simpl Z.sub; lia).
  change (Z.to_nat (53 - 53)) with 0%nat.
  cbn [Nat.iter nat_rect shr_record_of_loc shr_m loc_of_shr_record round_nearest_even].
  rewrite shr_fexp_normal by lia.
  rewrite (Zdigits2_unique m 53) by (simpl Z.sub; lia).
  change (Z.to_nat (53 - 53)) with 0%nat.
  cbn [Nat.iter nat_rect shr_record_of_loc shr_m].
  destruct m as [|p|p]; try lia.
  replace (e + (53 - 53) + (53 - 53) <=? emax - prec) with true
    by (symmetry; apply Z.leb_le; unfold emax, prec; lia).
  f_equal. lia.
Qed.

Lemma digits_small (n : Z) : 0 < n < 2 ^ 53 -> 1 <= Zdigits2 n <= 53.
Proof.
  intros Hn. pose proof (Zdigits2_bounds n ltac:(lia)) as Hd. split.
  - destruct (Z_lt_le_dec (Zdigits2 n) 1); [|assumption]. exfalso.
    assert (2 ^ Zdigits2 n <= 2 ^ 0) by (apply Z.pow_le_mono_r; lia).
    change (2 ^ 0) with 1 in *. lia.
  - destruct (Z_lt_le_dec 53 (Zdigits2 n)); [|assumption]. exfalso.
    assert (2 ^ 53 <= 2 ^ (Zdigits2 n - 1)) by (apply Z.pow_le_mono_r; lia). lia.
Qed.

Lemma mant_bounds (n : Z) : 0 < n < 2 ^ 53 -> 2 ^ 52 <= mant n < 2 ^ 53.
Proof.
  intros Hn. pose proof (Zdigits2_bounds n ltac:(lia)) as Hd.
  pose proof (digits_small n Hn) as Hs. unfold mant.
  set (d := Zdigits2 n) in *.
  assert (H1 : 2 ^ (d - 1) * 2 ^ (53 - d) = 2 ^ 52).
  { rewrite <- Z.pow_add_r by lia. f_equal. lia. }
  assert (H2 : 2 ^ d * 2 ^ (53 - d) = 2 ^ 53).
  { rewrite <- Z.pow_add_r by lia. f_equal. lia. }
  assert (0 < 2 ^ (53 - d)) by (apply Z.pow_pos_nonneg; lia).
  nia.
Qed.

Lemma of_int_small (n : Z) :
  0 < n < 2 ^ 53 ->
  of_int n = Ok (S754_finite false (Z.to_pos (mant n)) (Zdigits2 n - 53)).
Proof.
  intros Hn. pose proof (digits_small n Hn) as Hs.
  pose proof (mant_bounds n Hn) as Hm.
  unfold of_int, binary_normalize.
  destruct n as [|p|p]; try lia.
  unfold binary_round.
  change (Z.pos (digits2_pos p)) with (Zdigits2 (Z.pos p)).
  rewrite Z.add_0_r, fexp_normal by lia.
  assert (Hal : shl_align p 0 (Zdigits2 (Z.pos p) - 53) =
                (Z.to_pos (mant (Z.pos p)), Zdigits2 (Z.pos p) - 53)).
  { unfold shl_align, mant. rewrite Z.sub_0_r.
    destruct (Zdigits2 (Z.pos p) - 53) as [|d|d] eqn:Ed; try lia.
    - replace (53 - Zdigits2 (Z.pos p)) with 0 by lia.
      rewrite Z.pow_0_r, Z.mul_1_r. reflexivity.
    - replace (53 - Zdigits2 (Z.pos p)) with (Z.pos d) by lia.
      rewrite <- pos_iter_xO. reflexivity. }
  rewrite Hal.
  replace (Z.pos (Z.to_pos (mant (Z.pos p)))) with (mant (Z.pos p))
    by (rewrite Z2Pos.id; lia).
  rewrite round_aux_canonical by lia. reflexivity.
Qed.

(** Division of the float of [w] by a positive float [mt * 2^(-gt)]. *)
Lemma truediv_nearest (w mt gt : Z) :
  0 < w < 2 ^ 53 -> 2 ^ 52 <= mt < 2 ^ 53 -> 0 <= gt <= 53 ->
  w * 2 ^ gt < 2 ^ 52 * mt ->
  exists x M g,
    of_int w = Ok x /\ truediv x (fpos mt gt) = Ok (fpos M g) /\
    nearest M g (w * 2 ^ gt) mt.
Proof.
  intros Hw Hmt Hgt Hval.
  pose proof (digits_small w Hw) as Hs.
  pose proof (mant_bounds w Hw) as Hm.
  set (dw := Zdigits2 w) in *.
  set (X := mant w * 2 ^ 53).
  pose proof (Z.div_mod X mt ltac:(lia)) as Hdm.
  pose proof (Z.mod_pos_bound X mt ltac:(lia)) as Hr.
  unfold Z.div, Z.modulo in Hdm, Hr.
  destruct (Z.div_eucl X mt) as [q r] eqn:Hde. cbn [fst snd] in *.
  assert (Hcomp :
    truediv (S754_finite false (Z.to_pos (mant w)) (dw - 53)) (fpos mt gt) =
    Ok (binary_round_aux prec emax false q (dw - 53 + gt - 53) (new_location mt r))).
  { unfold truediv, fpos. cbn [is_zero SFdiv xorb].
    rewrite !Z2Pos.id by lia. unfold SFdiv_core_binary.
    rewrite (Zdigits2_unique (mant w) 53) by (simpl Z.sub; lia).
    rewrite (Zdigits2_unique mt 53) by (simpl Z.sub; lia).
    replace (53 + (dw - 53) - (53 + - gt)) with (dw - 53 + gt) by lia.
    rewrite fexp_normal by lia.
    rewrite Z.min_l by lia.
    replace (dw - 53 - - gt - (dw - 53 + gt - 53)) with 53 by lia.
    cbv iota beta.
    rewrite Z.shiftl_mul_pow2 by lia. fold X. rewrite Hde. reflexivity. }
  assert (Hq : 2 ^ 52 <= q).
  { destruct (Z_lt_le_dec q (2 ^ 52)) as [Hlt|]; [|assumption]. exfalso.
    assert (q + 1 <= 2 ^ 52) by lia.
    assert (mt * (q + 1) <= 2 ^ 53 * 2 ^ 52) by nia.
    unfold X in Hdm. nia. }
  set (c := 2 ^ (106 - dw - gt)).
  assert (Hc : 0 < c) by (apply Z.pow_pos_nonneg; lia).
  assert (HX : X = w * 2 ^ gt * c).
  { unfold X, mant, c. fold dw. rewrite <- !Z.mul_assoc, <- !Z.pow_add_r by lia.
    do 2 f_equal. lia. }
  destruct (round_aux_nearest false q (dw - 53 + gt - 53) (new_location mt r) X mt)
    as (M & g & Hres & Hnear).
  - rewrite Hdm. rewrite (Z.mul_comm mt q). apply located_new_location; lia.
  - assumption.
  - lia.
  - replace (- (dw - 53 + gt - 53)) with (106 - dw - gt) by lia. fold c.
    rewrite HX. nia.
  - eexists. exists M, g.
    split; [apply of_int_small; assumption|]. fold dw.
    split; [rewrite Hcomp, Hres; reflexivity|].
    replace (- (dw - 53 + gt - 53)) with (106 - dw - gt) in Hnear by lia.
    fold c in Hnear. rewrite HX in Hnear.
    apply nearest_scale with (c := c); assumption.
Qed.

(** Product of the float of [h] and a positive float [mt * 2^(-gt)]. *)
Lemma mul_nearest (h mt gt : Z) :
  0 < h < 2 ^ 53 -> 2 ^ 52 <= mt < 2 ^ 53 -> 0 <= gt <= 53 ->
  h * mt < 2 ^ 52 * 2 ^ gt ->
  exists x M g,
    of_int h = Ok x /\ mul x (fpos mt gt) = fpos M g /\
    nearest M g (h * mt) (2 ^ gt).
Proof.
  intros Hh Hmt Hgt Hval.
  pose proof (digits_small h Hh) as Hs.
  pose proof (mant_bounds h Hh) as Hm.
  set (dh := Zdigits2 h) in *.
  assert (Hcomp :
    mul (S754_finite false (Z.to_pos (mant h)) (dh - 53)) (fpos mt gt) =
    binary_round_aux prec emax false (mant h * mt) (dh - 53 + - gt) loc_Exact).
  { unfold mul, fpos. cbn [SFmul xorb].
    rewrite Pos2Z.inj_mul, !Z2Pos.id by lia. reflexivity. }
  set (c := 2 ^ (53 - dh)).
  assert (Hc : 0 < c) by (apply Z.pow_pos_nonneg; lia).
  assert (HG : 0 < 2 ^ gt) by (apply Z.pow_pos_nonneg; lia).
  assert (HX : mant h * mt = h * mt * c).
  { unfold mant, c. fold dh. ring. }
  assert (HD : 1 * 2 ^ (- (dh - 53 + - gt)) = 2 ^ gt * c).
  { unfold c. rewrite Z.mul_1_l, <- Z.pow_add_r by lia. f_equal. lia. }
  destruct (round_aux_nearest false (mant h * mt) (dh - 53 + - gt) loc_Exact
              (mant h * mt) 1) as (M & g & Hres & Hnear).
  - apply located_exact. nia.
  - nia.
  - lia.
  - rewrite HD, HX. nia.
  - eexists. exists M, g.
    split; [apply of_int_small; assumption|]. fold dh.
    split; [rewrite Hcomp, Hres; reflexivity|].
    rewrite HD, HX in Hnear.
    apply nearest_scale with (c := c); assumption.
Qed.

Lemma to_int_fpos (M g : Z) :
  0 < M -> 0 <= g -> to_int (fpos M g) = Ok (M / 2 ^ g).
Proof.
  intros HM Hg. unfold to_int, fpos. rewrite Z2Pos.id by lia.
  destruct (Z.leb_spec 0 (- g)).
  - replace g with 0 by lia. change (- 0) with 0.
    rewrite Z.pow_0_r, Z.mul_1_r, Z.div_1_r. reflexivity.
  - rewrite Z.opp_involutive. reflexivity.
Qed.

Lemma ltb_fpos (M1 g1 M2 g2 : Z) :
  0 < M1 -> 0 < M2 ->
  ltb (fpos M1 g1) (fpos M2 g2) = (g2 <? g1) || ((g1 =? g2) && (M1 <? M2)).
Proof.
  intros H1 H2. unfold ltb, SFltb, fpos, SFcompare.
  destruct (Z.compare_spec (- g1) (- g2)) as [E|E|E].
  - replace (g2 <? g1) with false by (symmetry; apply Z.ltb_ge; lia).
    replace (g1 =? g2) with true by (symmetry; apply Z.eqb_eq; lia).
    cbn [orb andb].
    change (Pos.compare_cont Eq (Z.to_pos M1) (Z.to_pos M2))
      with (Pos.compare (Z.to_pos M1) (Z.to_pos M2)).
    rewrite <- Z2Pos.inj_compare by lia.
    destruct (Z.compare_spec M1 M2); destruct (Z.ltb_spec M1 M2); lia || reflexivity.
  - replace (g2 <? g1) with true by (symmetry; apply Z.ltb_lt; lia). reflexivity.
  - replace (g2 <? g1) with false by (symmetry; apply Z.ltb_ge; lia).
    replace (g1 =? g2) with false by (symmetry; apply Z.eqb_neq; lia). reflexivity.
Qed.

Lemma div_between (M G N : Z) : 0 < G -> N * G <= M < N * G + G -> M / G = N.
Proof.
  intros HG H. symmetry. apply (Z.div_unique M G N (M - N * G)); lia.
Qed.

End FloatFacts.

Import PyFloat FloatSpec FloatFacts.

Lemma pow_cases (g gt : Z) :
  0 <= g -> 0 <= gt ->
  (g < gt /\ 2 * 2 ^ g <= 2 ^ gt) \/ (g = gt) \/ (gt < g /\ 2 * 2 ^ gt <= 2 ^ g).
Proof.
  intros Hg Hgt.
  destruct (Z.lt_trichotomy g gt) as [H|[H|H]].
  - left. split; [assumption|].
    replace (2 * 2 ^ g) with (2 ^ (g + 1)) by (rewrite Z.pow_add_r by lia; lia).
    apply Z.pow_le_mono_r; lia.
  - right. left. assumption.
  - right. right. split; [assumption|].
    replace (2 * 2 ^ gt) with (2 ^ (gt + 1)) by (rewrite Z.pow_add_r by lia; lia).
    apply Z.pow_le_mono_r; lia.
Qed.

Ltac pow_consts :=
  change (2 ^ 31) with 2147483648 in *;
  change (2 ^ 52) with 4503599627370496 in *;
  change (2 ^ 53) with 9007199254740992 in *;
  change (2 ^ 54) with 18014398509481984 in *.

Lemma target_float_ok (r : Z * Z) :
  preset r ->
  int_truediv (fst r) (snd r) = Ok (fpos (fst (target_float r)) (snd (target_float r))).
Proof. intros [->|[->| ->]]; vm_compute; reflexivity. Qed.

Lemma ratio_gt (r : Z * Z) (w h : Z) :
  preset r -> 0 < w < 2 ^ 31 -> 0 < h < 2 ^ 31 ->
  exists x, int_truediv w h = Ok x /\
            gtb x (fpos (fst (target_float r)) (snd (target_float r)))
            = (h * fst r <? w * snd r).
Proof.
  intros Hr Hw Hh.
  destruct (int_truediv_nearest w h ltac:(lia) ltac:(lia))
    as (M & g & Hx & HM & Hg & Hb & _).
  exists (fpos M g). split; [assumption|].
  assert (HG : 0 < 2 ^ g) by (apply Z.pow_pos_nonneg; lia).
  assert (H1 : (2 ^ 53 - 1) * h <= (2 * M - 1) * h) by nia.
  assert (H2 : (2 * M + 1) * h <= (2 ^ 54 - 1) * h) by nia.
  unfold gtb.
  destruct Hr as [->|[->| ->]]; cbn [target_float fst snd Z.eqb Pos.eqb];
    rewrite ltb_fpos by lia;
    match goal with
    | |- (g <? ?gt) || ((?gt =? g) && (?mt <? M)) = _ =>
        destruct (pow_cases g gt ltac:(lia) ltac:(lia)) as [[Hc Hp]|[Hc|[Hc Hp]]];
        [ replace (g <? gt) with true by (symmetry; apply Z.ltb_lt; lia);
          cbn [orb]; symmetry; apply Z.ltb_lt; pow_consts; nia
        | subst g; rewrite Z.ltb_irrefl, Z.eqb_refl; cbn [orb andb]; pow_consts;
          destruct (Z.ltb_spec mt M);
          match goal with |- _ = (?x <? ?y) => destruct (Z.ltb_spec x y) end;
          try reflexivity; exfalso;
          [ assert ((2 * mt + 1) * h <= (2 * M - 1) * h) by nia; lia
          | assert ((2 * M + 1) * h <= (2 * mt + 1) * h) by nia; lia ]
        | replace (g <? gt) with false by (symmetry; apply Z.ltb_ge; lia);
          replace (gt =? g) with false by (symmetry; apply Z.eqb_neq; lia);
          cbn [orb andb]; symmetry; apply Z.ltb_ge; pow_consts; nia ]
    end.
Qed.

Lemma target_float_bounds (r : Z * Z) :
  preset r ->
  2 ^ 52 <= fst (target_float r) < 2 ^ 53 /\ 0 <= snd (target_float r) <= 53.
Proof. intros [->|[->| ->]]; vm_compute; repeat split; discriminate. Qed.

(** [int(orig_height * target_ratio_value)] is the exact quotient. *)
Lemma width_exact (r : Z * Z) (h : Z) :
  preset r -> 0 < h < 2 ^ 31 ->
  exists x, of_int h = Ok x /\
    to_int (mul x (fpos (fst (target_float r)) (snd (target_float r))))
    = Ok (h * fst r / snd r).
Proof.
  intros Hr Hh.
  pose proof (target_float_bounds r Hr) as [Hmt Hgt].
  assert (Hval : h * fst (target_float r) < 2 ^ 52 * 2 ^ snd (target_float r)).
  { destruct Hr as [->|[->| ->]]; cbn [target_float fst snd Z.eqb Pos.eqb];
      pow_consts; lia. }
  destruct (mul_nearest h _ _ ltac:(lia) Hmt Hgt Hval)
    as (x & M & g & Hx & Hmul & HM & Hg & Hb & Htu & _).
  exists x. split; [assumption|]. rewrite Hmul.
  rewrite to_int_fpos by lia. f_equal.
  assert (HG : 0 < 2 ^ g) by (apply Z.pow_pos_nonneg; lia).
  set (G := 2 ^ g) in *.
  apply div_between; [assumption|].
  destruct Hr as [->|[->| ->]]; cbn [target_float fst snd Z.eqb Pos.eqb] in *;
    match goal with
    | |- ?a / ?b * G <= M < _ =>
        pose proof (Z.div_mod a b ltac:(lia)) as Hdm;
        pose proof (Z.mod_pos_bound a b ltac:(lia)) as Hf;
        set (N0 := a / b) in *; set (f := a mod b) in *
    end;
    assert (HP : 0 <= N0 * G) by nia;
    assert (HQ : 0 <= f * G <= (f + 1) * G - G) by nia;
    assert (HQ' : f = 0 \/ G <= f * G) by nia;
    assert (HQ'' : f * G <= 16 * G) by nia;
    assert (HR : G <= h * G <= 2 ^ 31 * G) by nia.
  - assert (Hrel : h * 1 * G = 1 * (N0 * G) + f * G) by (rewrite Hdm; ring).
    replace (2 * (h * 4503599627370496) * G) with (2 * 4503599627370496 * (h * G)) in * by ring.
    pow_consts. lia.
  - assert (Hrel : h * 4 * G = 5 * (N0 * G) + f * G) by (rewrite Hdm; ring).
    assert (HQ3 : f * G <= 4 * G) by nia.
    replace (2 * (h * 7205759403792794) * G) with (2 * 7205759403792794 * (h * G)) in * by ring.
    pow_consts. lia.
  - assert (Hrel : h * 16 * G = 9 * (N0 * G) + f * G) by (rewrite Hdm; ring).
    assert (HQ3 : f * G <= 8 * G) by nia.
    replace (2 * (h * 8006399337547548) * G) with (2 * 8006399337547548 * (h * G)) in * by ring.
    pow_consts.
    split; [|lia].
    destruct (Z_le_gt_dec (N0 * G) M) as [|Hgt']; [assumption|exfalso].
    assert (HM1 : M = 9007199254740991) by lia.
    assert (Z.even M = true) as Hev by (apply Htu; lia).
    rewrite HM1 in Hev. discriminate.
Qed.

Lemma scale_bounds (x lo hi G : Z) :
  0 < G -> lo <= x <= hi -> lo * G <= x * G <= hi * G.
Proof. intros HG H. nia. Qed.

Lemma scale_zero_or (x G : Z) : 0 < G -> 0 <= x -> x = 0 \/ G <= x * G.
Proof. intros HG H. destruct (Z.eq_dec x 0); [left; assumption|right; nia]. Qed.

(** [int(orig_width / target_ratio_value)] is the exact quotient. *)
Lemma height_exact (r : Z * Z) (w : Z) :
  preset r -> 0 < w < 2 ^ 31 ->
  exists x q, of_int w = Ok x /\
    truediv x (fpos (fst (target_float r)) (snd (target_float r))) = Ok q /\
    to_int q = Ok (w * snd r / fst r).
Proof.
  intros Hr Hw.
  pose proof (target_float_bounds r Hr) as [Hmt Hgt].
  assert (Hval : w * 2 ^ snd (target_float r) < 2 ^ 52 * fst (target_float r)).
  { destruct Hr as [->|[->| ->]]; cbn [target_float fst snd Z.eqb Pos.eqb];
      pow_consts; lia. }
  destruct (truediv_nearest w _ _ ltac:(lia) Hmt Hgt Hval)
    as (x & M & g & Hx & Hdiv & HM & Hg & Hb & Htu & _).
  exists x, (fpos M g). split; [assumption|]. split; [assumption|].
  rewrite to_int_fpos by lia. f_equal.
  assert (HG : 0 < 2 ^ g) by (apply Z.pow_pos_nonneg; lia).
  set (G := 2 ^ g) in *.
  apply div_between; [assumption|].
  pose proof (scale_bounds w 1 (2 ^ 31) G HG ltac:(lia)) as HR.
  destruct Hr as [->|[->| ->]]; cbn [target_float fst snd Z.eqb Pos.eqb] in *;
    match goal with
    | |- ?a / ?b * G <= M < _ =>
        pose proof (Z.div_mod a b ltac:(lia)) as Hdm;
        pose proof (Z.mod_pos_bound a b ltac:(lia)) as Hf;
        assert (HN0 : 0 <= a / b) by (apply Z.div_pos; lia);
        set (N0 := a / b) in *; set (f := a mod b) in *;
        pose proof (scale_bounds N0 0 N0 G HG ltac:(lia)) as HP;
        pose proof (scale_bounds f 0 (b - 1) G HG ltac:(lia)) as HQ;
        pose proof (scale_zero_or f G HG ltac:(lia)) as HQ'
    end;
    pow_consts.
  - assert (Hrel : w * 1 * G = 1 * (N0 * G) + f * G) by (rewrite Hdm; ring).
    replace (2 * (w * 4503599627370496) * G) with (2 * 4503599627370496 * (w * G)) in * by ring.
    lia.
  - assert (Hrel : w * 5 * G = 4 * (N0 * G) + f * G) by (rewrite Hdm; ring).
    replace (2 * (w * 9007199254740992) * G) with (2 * 9007199254740992 * (w * G)) in * by ring.
    lia.
  - assert (Hrel : w * 9 * G = 16 * (N0 * G) + f * G) by (rewrite Hdm; ring).
    replace (2 * (w * 4503599627370496) * G) with (2 * 4503599627370496 * (w * G)) in * by ring.
    lia.
Qed.

(** * The canvas size *)

Lemma getitem_preset (aspect_ratio : string) (r : Z * Z) :
  getitem INSTAGRAM_RATIOS aspect_ratio = Ok r -> preset r.
Proof.
  unfold INSTAGRAM_RATIOS, getitem, preset.
  repeat match goal with
         | |- context [String.eqb ?a ?b] => destruct (String.eqb a b)
         end; intros H; inversion H; auto.
Qed.

(** On the sizes the imaging library can hold, the float computation of
    lines 59 to 71 agrees with exact rational arithmetic. *)
Lemma new_dimensions_exact (w h : Z) (r : Z * Z) :
  preset r -> 0 < w < 2 ^ 31 -> 0 < h < 2 ^ 31 ->
  new_dimensions w h r =
  Ok (if h * fst r <? w * snd r then (w, w * snd r / fst r)
      else (h * fst r / snd r, h)).
Proof.
  intros Hr Hw Hh. unfold new_dimensions.
  rewrite (target_float_ok r Hr). cbn [bind].
  destruct (ratio_gt r w h Hr Hw Hh) as (x & Hx & Hgt).
  rewrite Hx. cbn [bind]. rewrite Hgt.
  destruct (h * fst r <? w * snd r).
  - destruct (height_exact r w Hr Hw) as (fw & q & Hfw & Hq & Hi).
    rewrite Hfw. cbn [bind]. rewrite Hq. cbn [bind]. rewrite Hi. reflexivity.
  - destruct (width_exact r h Hr Hh) as (fh & Hfh & Hi).
    rewrite Hfh. cbn [bind]. rewrite Hi. reflexivity.
Qed.

(** * Images *)

Lemma imap_length {A B : Type} (f : Z -> A -> B) (i : Z) (l : list A) :
  List.length (imap f i l) = List.length l.
Proof. revert i. induction l as [|a l IH]; intros i; simpl; [reflexivity|]. rewrite IH. reflexivity. Qed.

Lemma imap_nth_error {A B : Type} (f : Z -> A -> B) (l : list A) (i : Z) (n : nat) :
  nth_error (imap f i l) n = option_map (f (i + Z.of_nat n)) (nth_error l n).
Proof.
  revert i n. induction l as [|a l IH]; intros i n.
  - destruct n; reflexivity.
  - destruct n as [|n].
    + simpl. rewrite Z.add_0_r. reflexivity.
    + cbn [imap nth_error]. rewrite IH. do 2 f_equal. lia.
Qed.

Lemma imap_nth_Z {A B : Type} (f : Z -> A -> B) (l : list A) (i : Z) :
  nth_Z (imap f 0 l) i = option_map (f i) (nth_Z l i).
Proof.
  unfold nth_Z. destruct (Z.ltb_spec i 0); [reflexivity|].
  rewrite imap_nth_error. rewrite Z2Nat.id by lia. reflexivity.
Qed.

Lemma nth_Z_repeat {A : Type} (a : A) (n i : Z) :
  0 <= i < n -> nth_Z (repeat a (Z.to_nat n)) i = Some a.
Proof.
  intros H. unfold nth_Z.
  replace (i <? 0) with false by (symmetry; apply Z.ltb_ge; lia).
  apply nth_error_repeat. lia.
Qed.

Lemma nth_Z_in {A : Type} (l : list A) (i : Z) :
  0 <= i < Z.of_nat (List.length l) -> exists a, nth_Z l i = Some a.
Proof.
  intros H. unfold nth_Z.
  replace (i <? 0) with false by (symmetry; apply Z.ltb_ge; lia).
  destruct (nth_error l (Z.to_nat i)) eqn:E; [eauto|].
  apply nth_error_None in E. lia.
Qed.

Lemma nth_Z_out {A : Type} (l : list A) (i : Z) :
  i < 0 \/ Z.of_nat (List.length l) <= i -> nth_Z l i = None.
Proof.
  intros H. unfold nth_Z. destruct (Z.ltb_spec i 0); [reflexivity|].
  apply nth_error_None. lia.
Qed.

Lemma nth_Z_some_In {A : Type} (l : list A) (i : Z) (a : A) :
  nth_Z l i = Some a -> In a l.
Proof.
  unfold nth_Z. destruct (i <? 0); [discriminate|]. apply nth_error_In.
Qed.

Lemma getpixel_inside (im : Image) (x y : Z) :
  wf_image im -> 0 <= x < width im -> 0 <= y < height im ->
  exists p, getpixel im x y = Some p.
Proof.
  intros (Hw & Hh & Hrows & Hrow) Hx Hy. unfold getpixel.
  destruct (nth_Z_in (rows im) y ltac:(lia)) as [row Erow]. rewrite Erow.
  apply nth_Z_in. rewrite Forall_forall in Hrow.
  rewrite (Hrow row (nth_Z_some_In _ _ _ Erow)). lia.
Qed.

Lemma getpixel_outside (im : Image) (x y : Z) :
  wf_image im -> ~ (0 <= x < width im /\ 0 <= y < height im) ->
  getpixel im x y = None.
Proof.
  intros (Hw & Hh & Hrows & Hrow) Hout. unfold getpixel.
  destruct (nth_Z (rows im) y) as [row|] eqn:Erow; [|reflexivity].
  apply nth_Z_out. rewrite Forall_forall in Hrow.
  rewrite (Hrow row (nth_Z_some_In _ _ _ Erow)).
  assert (0 <= y < height im).
  { destruct (Z_lt_le_dec y 0) as [Hn|Hn].
    - rewrite nth_Z_out in Erow by lia. discriminate.
    - destruct (Z_lt_le_dec y (height im)); [lia|].
      rewrite nth_Z_out in Erow by lia. discriminate. }
  lia.
Qed.

Lemma getpixel_new (w h : Z) (c : color) (cv : Image) (x y : Z) :
  Image_new (w, h) c = Ok cv -> 0 <= x < w -> 0 <= y < h ->
  getpixel cv x y = Some (ink c).
Proof.
  unfold Image_new. destruct ((w <? 0) || (h <? 0)); [discriminate|].
  intros H Hx Hy. inversion H; subst cv; clear H.
  unfold getpixel. cbn [rows]. rewrite nth_Z_repeat by lia.
  apply nth_Z_repeat. lia.
Qed.

Lemma size_new (sz : Z * Z) (c : color) (cv : Image) :
  Image_new sz c = Ok cv -> size cv = sz.
Proof.
  destruct sz as [w h]. unfold Image_new.
  destruct ((w <? 0) || (h <? 0)); [discriminate|].
  intros H. inversion H. reflexivity.
Qed.

Lemma Image_new_ok (w h : Z) (c : color) :
  0 <= w -> 0 <= h -> exists cv, Image_new (w, h) c = Ok cv.
Proof.
  intros Hw Hh. unfold Image_new.
  replace (w <? 0) with false by (symmetry; apply Z.ltb_ge; lia).
  replace (h <? 0) with false by (symmetry; apply Z.ltb_ge; lia).
  cbn [orb]. eauto.
Qed.

Lemma size_paste (canvas im : Image) (box : Z * Z) :
  size (paste canvas im box) = size canvas.
Proof. destruct box. reflexivity. Qed.

Lemma width_paste (canvas im : Image) (box : Z * Z) :
  width (paste canvas im box) = width canvas.
Proof. destruct box. reflexivity. Qed.

Lemma height_paste (canvas im : Image) (box : Z * Z) :
  height (paste canvas im box) = height canvas.
Proof. destruct box. reflexivity. Qed.

Lemma getpixel_paste (canvas im : Image) (px py x y : Z) (c : pixel) :
  getpixel canvas x y = Some c ->
  getpixel (paste canvas im (px, py)) x y =
  Some match getpixel im (x - px) (y - py) with
       | Some p => p
       | None => c
       end.
Proof.
  unfold getpixel at 1 2. cbn [paste rows].
  rewrite imap_nth_Z.
  destruct (nth_Z (rows canvas) y) as [row|]; [|discriminate].
  cbn [option_map]. rewrite imap_nth_Z. intros ->. reflexivity.
Qed.

(** * The compositor *)

Lemma preset_pos (r : Z * Z) : preset r -> 0 < fst r /\ 0 < snd r.
Proof. intros [->|[->| ->]]; cbn; lia. Qed.

Lemma exact_dimensions_ge (w h : Z) (r : Z * Z) :
  preset r -> 0 < w -> 0 < h ->
  w <= fst (exact_dimensions w h r) /\ h <= snd (exact_dimensions w h r).
Proof.
  intros Hr Hw Hh. destruct (preset_pos r Hr) as [Ha Hb].
  unfold exact_dimensions.
  destruct (Z.ltb_spec (h * fst r) (w * snd r)); cbn [fst snd].
  - split; [lia|]. apply Z.div_le_lower_bound; lia.
  - split; [|lia]. apply Z.div_le_lower_bound; lia.
Qed.

Lemma composite_spec (im : Image) (border_color aspect_ratio : string) (r : Z * Z) :
  valid_source im -> getitem INSTAGRAM_RATIOS aspect_ratio = Ok r ->
  exists canvas,
    Image_new (exact_dimensions (width im) (height im) r) (parse_color border_color)
      = Ok canvas /\
    composite im border_color aspect_ratio =
      Ok (paste canvas im
            (paste_offset (exact_dimensions (width im) (height im) r) (size im))).
Proof.
  intros (Hwf & Hw & Hh) Hget. unfold max_dim in *.
  pose proof (getitem_preset _ _ Hget) as Hr.
  pose proof (exact_dimensions_ge (width im) (height im) r Hr ltac:(lia) ltac:(lia))
    as [H1 H2].
  unfold composite. rewrite Hget. cbn [bind].
  rewrite (new_dimensions_exact _ _ r Hr Hw Hh). cbn [bind].
  fold (exact_dimensions (width im) (height im) r).
  destruct (exact_dimensions (width im) (height im) r) as [nw nh] eqn:E.
  cbn [fst snd] in *.
  destruct (Image_new_ok nw nh (parse_color border_color) ltac:(lia) ltac:(lia))
    as [canvas Hc].
  exists canvas. rewrite Hc. split; reflexivity.
Qed.

(** ** Bytes and arrays *)

Lemma channel_uint8 (v : Z) : 0 <= v < 256 -> channel (uint8 v) = v.
Proof.
  intros Hv. unfold channel, uint8. rewrite Z.mod_small by assumption.
  destruct (Byte.of_N (Z.to_N v)) as [b|] eqn:E.
  - apply Byte.to_of_N in E. rewrite E. apply Z2N.id. lia.
  - apply Byte.of_N_None_iff in E. lia.
Qed.

Lemma channel_bounds (b : byte) : 0 <= channel b < 256.
Proof.
  unfold channel. pose proof (Byte.to_N_bounded b). lia.
Qed.

Lemma channel_clip8 (v : Z) :
  channel (clip8 v) = if v <=? 0 then 0 else if v <? 256 then v else 255.
Proof.
  unfold clip8. apply channel_uint8.
  destruct (Z.leb_spec v 0); [lia|]. destruct (Z.ltb_spec v 256); lia.
Qed.

(** A colour whose channels are bytes is stored as it is. *)
Lemma pixel_color_ink (c : color) : in_gamut c -> pixel_color (ink c) = c.
Proof.
  destruct c as [[r g] b]. intros (Hr & Hg & Hb).
  unfold pixel_color, ink. rewrite !channel_clip8.
  repeat match goal with
         | |- context [?v <=? 0] => destruct (Z.leb_spec v 0)
         | |- context [?v <? 256] => destruct (Z.ltb_spec v 256)
         end; repeat f_equal; lia.
Qed.

Lemma nth_Z_map {A B : Type} (f : A -> B) (l : list A) (i : Z) :
  nth_Z (map f l) i = option_map f (nth_Z l i).
Proof.
  unfold nth_Z. destruct (i <? 0); [reflexivity|].
  rewrite nth_error_map. reflexivity.
Qed.

(** The pixels of a converted array: its values modulo 256. *)
Lemma getpixel_fromarray (a : ndarray) (x y : Z) :
  getpixel (fromarray_uint8 a) x y = option_map uint8_pixel (array_get a y x).
Proof.
  unfold getpixel, fromarray_uint8, astype_uint8, array_get. cbn [rows].
  rewrite nth_Z_map. destruct (nth_Z (data a) y) as [row|]; [|reflexivity].
  cbn [option_map]. apply nth_Z_map.
Qed.

Section CompositorFacts.

Variable resize : Image -> Z * Z -> result Image.
Variable save : Image -> string -> result unit.
Variable temp_path : string.

(** What [add_borders] returns for an image, from the result of the
    compositing steps. *)
Lemma add_borders_some (image : image_input) (border_color aspect_ratio : string)
    (is_preview : bool) (w : World) :
  add_borders resize save temp_path (Some image) border_color aspect_ratio is_preview w =
  match composite (as_pil_image image) border_color aspect_ratio with
  | Ok canvas =>
      if is_preview then
        ((Some (fst (resize_for_preview resize canvas 800 w)), None),
         snd (resize_for_preview resize canvas 800 w))
      else
        match save canvas temp_path with
        | Ok _ => ((Some canvas, Some temp_path), set_file canvas w)
        | Raise e => ((None, None), print "add_borders" e (clobber_file w))
        end
  | Raise e => ((None, None), print "add_borders" e w)
  end.
Proof.
  unfold add_borders, add_borders_body.
  destruct (composite (as_pil_image image) border_color aspect_ratio) as [canvas|e];
    [|reflexivity].
  destruct is_preview.
  - destruct (resize_for_preview resize canvas 800 w). reflexivity.
  - destruct (save canvas temp_path); reflexivity.
Qed.

Lemma resize_for_preview_time (im : Image) (w : World) :
  last_update_time (snd (resize_for_preview resize im 800 w)) = last_update_time w.
Proof.
  unfold resize_for_preview.
  destruct (resize_for_preview_body resize im 800); reflexivity.
Qed.

Lemma add_borders_time (image : option image_input) (border_color aspect_ratio : string)
    (is_preview : bool) (w : World) :
  last_update_time
    (snd (add_borders resize save temp_path image border_color aspect_ratio is_preview w))
  = last_update_time w.
Proof.
  destruct image as [im|]; [|reflexivity].
  rewrite add_borders_some.
  destruct (composite (as_pil_image im) border_color aspect_ratio) as [canvas|e];
    [|reflexivity].
  destruct is_preview.
  - cbn [snd]. apply resize_for_preview_time.
  - destruct (save canvas temp_path); reflexivity.
Qed.

End CompositorFacts.

Lemma floor_bounds (n d : Z) : 0 < d -> n / d * d <= n < (n / d + 1) * d.
Proof.
  intros Hd. pose proof (Z.div_mod n d ltac:(lia)).
  pose proof (Z.mod_pos_bound n d Hd). nia.
Qed.

Section Claims.

Variable resize : Image -> Z * Z -> result Image.
Variable save : Image -> string -> result unit.
Variable temp_path : string.

(** C1. For a source image of positive size (a size the imaging library
    can hold, see [valid_source]) and a recognized ratio label
    [a : b], [add_borders] builds a canvas whose size is computed exactly:
    a source with [w / h > a / b] keeps its width and gets the height
    [floor (w * b / a)], any other source keeps its height and gets the
    width [floor (h * a / b)]. So the side that grows is the exact target
    side rounded down: the ratio of the canvas is the target ratio up to
    less than one pixel. In download mode the canvas is the image that
    [add_borders] returns. The source [im] is the image argument as an
    image of the library (the argument itself, or the converted array). *)
Theorem add_borders_canvas_dimensions
    (image : image_input) (im : Image) (border_color aspect_ratio : string)
    (r : Z * Z) (w : World) :
  as_pil_image image = im ->
  valid_source im -> getitem INSTAGRAM_RATIOS aspect_ratio = Ok r ->
  new_dimensions (width im) (height im) r
    = Ok (exact_dimensions (width im) (height im) r) /\
  exists canvas,
    composite im border_color aspect_ratio = Ok canvas /\
    add_borders resize save temp_path (Some image) border_color aspect_ratio false w =
      match save canvas temp_path with
      | Ok _ => ((Some canvas, Some temp_path), set_file canvas w)
      | Raise e => ((None, None), print "add_borders" e (clobber_file w))
      end /\
    size canvas = exact_dimensions (width im) (height im) r /\
    if height im * fst r <? width im * snd r
    then width canvas = width im /\
         height canvas * fst r <= width canvas * snd r < (height canvas + 1) * fst r
    else height canvas = height im /\
         width canvas * snd r <= height canvas * fst r < (width canvas + 1) * snd r.
Proof.
  intros Him Hv Hget.
  pose proof (getitem_preset _ _ Hget) as Hr.
  destruct (preset_pos r Hr) as [Ha Hb].
  split.
  { destruct Hv as (_ & Hw & Hh). apply new_dimensions_exact; assumption. }
  destruct (composite_spec im border_color aspect_ratio r Hv Hget)
    as (cv0 & Hnew & Hcomp).
  eexists. split; [exact Hcomp|].
  split.
  { rewrite add_borders_some, Him, Hcomp. reflexivity. }
  set (canvas := paste cv0 im _).
  assert (Hsize : size canvas = exact_dimensions (width im) (height im) r).
  { unfold canvas. rewrite size_paste. apply (size_new _ _ _ Hnew). }
  split; [exact Hsize|].
  clearbody canvas.
  unfold size, exact_dimensions in Hsize.
  destruct (height im * fst r <? width im * snd r);
    injection Hsize as Hw' Hh'; rewrite Hw', Hh';
    (split; [reflexivity|apply floor_bounds; assumption]).
Qed.

(** C2, as the code has it. The canvas holds the source image, pixel for
    pixel, at the offset
    [((new_width - orig_width) // 2, (new_height - orig_height) // 2)],
    and every other pixel of the canvas has the parsed border colour
    with each channel clipped to a byte; this is the parsed colour itself
    when its channels lie between 0 and 255. The source [im] is the image
    argument as an image of the library: an array is read with every
    value reduced modulo 256. *)
Theorem add_borders_canvas_pixels
    (image : image_input) (im : Image) (border_color aspect_ratio : string)
    (r : Z * Z) (w : World) :
  as_pil_image image = im ->
  valid_source im -> getitem INSTAGRAM_RATIOS aspect_ratio = Ok r ->
  exists canvas,
    composite im border_color aspect_ratio = Ok canvas /\
    add_borders resize save temp_path (Some image) border_color aspect_ratio false w =
      match save canvas temp_path with
      | Ok _ => ((Some canvas, Some temp_path), set_file canvas w)
      | Raise e => ((None, None), print "add_borders" e (clobber_file w))
      end /\
    let paste_x := (width canvas - width im) / 2 in
    let paste_y := (height canvas - height im) / 2 in
    (exists blank,
        Image_new (size canvas) (parse_color border_color) = Ok blank /\
        canvas = paste blank im (paste_x, paste_y)) /\
    (forall x y, 0 <= x < width im -> 0 <= y < height im ->
       exists p, getpixel im x y = Some p /\
                 getpixel canvas (paste_x + x) (paste_y + y) = Some p) /\
    (forall x y, 0 <= x < width canvas -> 0 <= y < height canvas ->
       ~ (paste_x <= x < paste_x + width im /\ paste_y <= y < paste_y + height im) ->
       getpixel canvas x y = Some (ink (parse_color border_color))) /\
    (in_gamut (parse_color border_color) ->
     pixel_color (ink (parse_color border_color)) = parse_color border_color) /\
    (forall a, image = NumpyArray a ->
       forall x y, getpixel im x y = option_map uint8_pixel (array_get a y x)).
Proof.
  intros Him Hv Hget.
  pose proof (getitem_preset _ _ Hget) as Hr.
  destruct (composite_spec im border_color aspect_ratio r Hv Hget)
    as (cv0 & Hnew & Hcomp).
  destruct Hv as (Hwf & Hw & Hh).
  pose proof (exact_dimensions_ge (width im) (height im) r Hr ltac:(lia) ltac:(lia))
    as [Hge1 Hge2].
  destruct (exact_dimensions (width im) (height im) r) as [nw nh] eqn:Edim.
  cbn [fst snd] in Hge1, Hge2.
  pose proof (size_new _ _ _ Hnew) as Hsz. unfold size in Hsz.
  injection Hsz as Hw0 Hh0.
  eexists. split; [exact Hcomp|].
  split.
  { rewrite add_borders_some, Him, Hcomp. reflexivity. }
  unfold paste_offset, size. cbn [fst snd].
  rewrite !width_paste, !height_paste, Hw0, Hh0.
  set (px := (nw - width im) / 2). set (py := (nh - height im) / 2).
  assert (Hpx : 0 <= px /\ px + width im <= nw).
  { unfold px. pose proof (floor_bounds (nw - width im) 2 ltac:(lia)). lia. }
  assert (Hpy : 0 <= py /\ py + height im <= nh).
  { unfold py. pose proof (floor_bounds (nh - height im) 2 ltac:(lia)). lia. }
  cbv zeta. split; [|split; [|split; [|split]]].
  - exists cv0. split; [exact Hnew|reflexivity].
  - intros x y Hx Hy.
    destruct (getpixel_inside im x y Hwf Hx Hy) as [p Hp].
    exists p. split; [assumption|].
    rewrite (getpixel_paste cv0 im px py _ _ (ink (parse_color border_color))).
    + replace (px + x - px) with x by lia. replace (py + y - py) with y by lia.
      rewrite Hp. reflexivity.
    + apply (getpixel_new nw nh _ _ _ _ Hnew); lia.
  - intros x y Hx Hy Hout.
    rewrite (getpixel_paste cv0 im px py _ _ (ink (parse_color border_color))).
    + rewrite (getpixel_outside im (x - px) (y - py) Hwf) by lia. reflexivity.
    + apply (getpixel_new nw nh _ _ _ _ Hnew); lia.
  - apply pixel_color_ink.
  - intros a Ha x y. rewrite <- Him, Ha. apply getpixel_fromarray.
Qed.

(** C8. A source whose ratio already is the target ratio gets a canvas
    of its own size, and is pasted at offset [(0, 0)]. *)
Theorem add_borders_same_ratio
    (im : Image) (border_color aspect_ratio : string) (r : Z * Z) :
  valid_source im -> getitem INSTAGRAM_RATIOS aspect_ratio = Ok r ->
  width im * snd r = height im * fst r ->
  new_dimensions (width im) (height im) r = Ok (size im) /\
  exists canvas,
    composite im border_color aspect_ratio = Ok canvas /\
    size canvas = size im /\
    paste_offset (size canvas) (size im) = (0, 0).
Proof.
  intros Hv Hget Heq.
  pose proof (getitem_preset _ _ Hget) as Hr.
  destruct (preset_pos r Hr) as [Ha Hb].
  destruct (composite_spec im border_color aspect_ratio r Hv Hget)
    as (cv0 & Hnew & Hcomp).
  assert (Hdim : exact_dimensions (width im) (height im) r = size im).
  { unfold exact_dimensions, size.
    replace (height im * fst r <? width im * snd r) with false
      by (symmetry; apply Z.ltb_ge; lia).
    rewrite <- Heq, Z.div_mul by lia. reflexivity. }
  split.
  { destruct Hv as (_ & Hw & Hh).
    rewrite new_dimensions_exact by assumption.
    fold (exact_dimensions (width im) (height im) r). rewrite Hdim. reflexivity. }
  rewrite Hdim in Hnew, Hcomp.
  eexists. split; [exact Hcomp|].
  rewrite size_paste, (size_new _ _ _ Hnew).
  split; [reflexivity|].
  unfold paste_offset, size. cbn [fst snd]. rewrite !Z.sub_diag. reflexivity.
Qed.

(** C10. The canvas is at least as large as the source in both
    directions: the two paste offsets are not negative and the pasted
    source lies inside the canvas. *)
Theorem add_borders_canvas_contains_source
    (im : Image) (border_color aspect_ratio : string) (r : Z * Z) :
  valid_source im -> getitem INSTAGRAM_RATIOS aspect_ratio = Ok r ->
  exists canvas,
    composite im border_color aspect_ratio = Ok canvas /\
    width im <= width canvas /\ height im <= height canvas /\
    let '(paste_x, paste_y) := paste_offset (size canvas) (size im) in
    0 <= paste_x /\ 0 <= paste_y /\
    paste_x + width im <= width canvas /\
    paste_y + height im <= height canvas.
Proof.
  intros Hv Hget.
  pose proof (getitem_preset _ _ Hget) as Hr.
  destruct (composite_spec im border_color aspect_ratio r Hv Hget)
    as (cv0 & Hnew & Hcomp).
  destruct Hv as (Hwf & Hw & Hh).
  pose proof (exact_dimensions_ge (width im) (height im) r Hr ltac:(lia) ltac:(lia))
    as [Hge1 Hge2].
  destruct (exact_dimensions (width im) (height im) r) as [nw nh] eqn:Edim.
  cbn [fst snd] in Hge1, Hge2.
  pose proof (size_new _ _ _ Hnew) as Hsz. unfold size in Hsz.
  injection Hsz as Hw0 Hh0.
  eexists. split; [exact Hcomp|].
  unfold paste_offset, size. cbn [fst snd].
  rewrite !width_paste, !height_paste, Hw0, Hh0.
  pose proof (floor_bounds (nw - width im) 2 ltac:(lia)).
  pose proof (floor_bounds (nh - height im) 2 ltac:(lia)).
  repeat split; lia.
Qed.

End Claims.

Section EntryPoints.

Variable resize : Image -> Z * Z -> result Image.
Variable save : Image -> string -> result unit.
Variable temp_path : string.

(** C3. After an accepted preview request at time [t1], a request at
    time [t2] with [t2 - t1 < 0.1] returns nothing and leaves the state
    (and so the stored time) as it is; any other request stores [t2] and
    returns what the compositor returns in preview mode. *)
Theorem process_preview_debounce
    (t1 t2 : PyFloat.float) (im1 im2 : option image_input)
    (c1 l1 c2 l2 : string) (w0 : World) :
  PyFloat.ltb (PyFloat.sub t1 (last_update_time w0)) update_interval = false ->
  let w1 := snd (process_preview resize save temp_path t1 im1 c1 l1 w0) in
  last_update_time w1 = t1 /\
  process_preview resize save temp_path t2 im2 c2 l2 w1 =
    (if PyFloat.ltb (PyFloat.sub t2 t1) update_interval then (None, w1)
     else (fst (fst (add_borders resize save temp_path im2 c2 l2 true (set_time t2 w1))),
           snd (add_borders resize save temp_path im2 c2 l2 true (set_time t2 w1)))) /\
  last_update_time (snd (process_preview resize save temp_path t2 im2 c2 l2 w1)) =
    (if PyFloat.ltb (PyFloat.sub t2 t1) update_interval then t1 else t2).
Proof.
  intros Hacc. cbv zeta.
  assert (Hone : forall t im c l w,
             PyFloat.ltb (PyFloat.sub t (last_update_time w)) update_interval = false ->
             process_preview resize save temp_path t im c l w =
             (fst (fst (add_borders resize save temp_path im c l true (set_time t w))),
              snd (add_borders resize save temp_path im c l true (set_time t w)))).
  { intros t im c l w H. unfold process_preview.
    rewrite H. destruct im as [im|]; [|reflexivity].
    destruct (add_borders resize save temp_path (Some im) c l true (set_time t w)) as [[p d] w'].
    reflexivity. }
  assert (Htime : forall t im c l w,
             PyFloat.ltb (PyFloat.sub t (last_update_time w)) update_interval = false ->
             last_update_time (snd (process_preview resize save temp_path t im c l w)) = t).
  { intros t im c l w H. rewrite (Hone t im c l w H). cbn [snd].
    rewrite add_borders_time. reflexivity. }
  pose proof (Htime t1 im1 c1 l1 w0 Hacc) as H1.
  set (w1 := snd (process_preview resize save temp_path t1 im1 c1 l1 w0)) in *.
  split; [exact H1|].
  destruct (PyFloat.ltb (PyFloat.sub t2 t1) update_interval) eqn:E.
  - assert (Hrej : process_preview resize save temp_path t2 im2 c2 l2 w1 = (None, w1)).
    { unfold process_preview. rewrite H1, E. reflexivity. }
    rewrite Hrej. split; [reflexivity|exact H1].
  - rewrite <- H1 in E. split; [apply Hone; exact E|].
    rewrite (Htime t2 im2 c2 l2 w1 E). reflexivity.
Qed.

(** C4. [add_borders] returns a pair in every case: the pair
    [(None, None)] for a missing image and whenever a step of its [try]
    block raises (the exception is printed, not propagated), and the
    value of the block otherwise. An unrecognized ratio label is one
    such step. *)
Theorem add_borders_never_raises
    (image : option image_input) (border_color aspect_ratio : string)
    (is_preview : bool) (w : World) :
  match image with
  | None =>
      add_borders resize save temp_path image border_color aspect_ratio is_preview w = ((None, None), w)
  | Some im =>
      match add_borders_body resize save temp_path im border_color aspect_ratio is_preview w with
      | (Ok v, w') =>
          add_borders resize save temp_path image border_color aspect_ratio is_preview w
          = (v, w')
      | (Raise e, w') =>
          add_borders resize save temp_path image border_color aspect_ratio is_preview w
          = ((None, None), print "add_borders" e w')
      end /\
      match getitem INSTAGRAM_RATIOS aspect_ratio with
      | Ok _ => True
      | Raise e =>
          add_borders resize save temp_path image border_color aspect_ratio is_preview w
          = ((None, None), print "add_borders" e w)
      end
  end.
Proof.
  destruct image as [im|]; [|reflexivity].
  split.
  - unfold add_borders.
    destruct (add_borders_body resize save temp_path im border_color aspect_ratio
                is_preview w) as [[v|e] w']; reflexivity.
  - rewrite add_borders_some. unfold composite.
    destruct (getitem INSTAGRAM_RATIOS aspect_ratio); [exact I|reflexivity].
Qed.

(** C5, as the code has it. A preview request with a missing image that
    passes the debounce test returns nothing; it stores the time of the
    request as the new debounce time, and changes nothing else. *)
Theorem process_preview_missing_image
    (now : PyFloat.float) (border_color aspect_ratio : string) (w : World) :
  PyFloat.ltb (PyFloat.sub now (last_update_time w)) update_interval = false ->
  process_preview resize save temp_path now None border_color aspect_ratio w = (None, set_time now w).
Proof.
  intros H. unfold process_preview. rewrite H. reflexivity.
Qed.

End EntryPoints.

(** The claim C5 as it is written fails: the stored time changes. *)
Lemma process_preview_missing_image_counterexample :
  let now := PyFloat.of_decimal 1000 0 in
  PyFloat.ltb (PyFloat.sub now (last_update_time initial_world)) update_interval = false /\
  fst (process_preview sample_resize sample_save sample_path now None
         "#FFFFFF" "1:1 (Square)" initial_world) = None /\
  last_update_time
    (snd (process_preview sample_resize sample_save sample_path now None
            "#FFFFFF" "1:1 (Square)" initial_world))
  <> last_update_time initial_world.
Proof.
  cbv zeta. split; [vm_compute; reflexivity|]. split; [vm_compute; reflexivity|].
  vm_compute. discriminate.
Qed.

Lemma process_preview_missing_image_witness :
  PyFloat.ltb (PyFloat.sub (PyFloat.of_decimal 1000 0) (last_update_time initial_world))
    update_interval = false /\
  process_preview sample_resize sample_save sample_path (PyFloat.of_decimal 1000 0) None
    "#FFFFFF" "1:1 (Square)" initial_world
  = (None, set_time (PyFloat.of_decimal 1000 0) initial_world).
Proof.
  split; [vm_compute; reflexivity|].
  apply process_preview_missing_image. vm_compute. reflexivity.
Defined.

(** * The colour parser *)

Lemma in_all_ascii (c : ascii) : In c all_ascii.
Proof.
  unfold all_ascii. rewrite <- (ascii_nat_embedding c).
  apply in_map. apply in_seq. pose proof (nat_ascii_bounded c). lia.
Qed.

Lemma check1_all (c : ascii) : check1 c = true.
Proof.
  assert (H : forallb check1 all_ascii = true) by (vm_compute; reflexivity).
  rewrite forallb_forall in H. apply H, in_all_ascii.
Qed.

Lemma check2_all (c1 c2 : ascii) : check2 c1 c2 = true.
Proof.
  assert (H : forallb (fun a => forallb (check2 a) all_ascii) all_ascii = true)
    by (vm_compute; reflexivity).
  rewrite forallb_forall in H. specialize (H c1 (in_all_ascii c1)).
  rewrite forallb_forall in H. apply H, in_all_ascii.
Qed.

Lemma check_int16_range (t : string) (hex ok : bool) (v : Z) :
  check_int16 t hex ok = true -> PyStr.int16 t = Ok v -> -15 <= v <= 255.
Proof.
  unfold check_int16. intros H E. rewrite E in H.
  apply andb_prop in H as [H _]. apply andb_prop in H as [H _].
  apply andb_prop in H as [H1 H2]. lia.
Qed.

Lemma check_int16_bad (t : string) (hex : bool) :
  check_int16 t hex false = true -> exists e, PyStr.int16 t = Raise e.
Proof.
  unfold check_int16. destruct (PyStr.int16 t) as [v|e]; [|eauto].
  rewrite andb_false_r. discriminate.
Qed.

Lemma check_int16_hex (t : string) (ok : bool) :
  check_int16 t true ok = true -> exists v, PyStr.int16 t = Ok v /\ 0 <= v <= 255.
Proof.
  unfold check_int16. destruct (PyStr.int16 t) as [v|e]; [|discriminate].
  intros H. exists v. split; [reflexivity|].
  apply andb_prop in H as [H H3]. apply andb_prop in H as [H _].
  apply andb_prop in H as [H1 H2]. cbn [implb] in H3. lia.
Qed.

(** [int(t, 16)] on a text of at most two characters. *)
Lemma int16_short_range (t : string) (v : Z) :
  (String.length t <= 2)%nat -> PyStr.int16 t = Ok v -> -15 <= v <= 255.
Proof.
  destruct t as [|c1 [|c2 [|c3 t]]]; cbn [String.length]; intros Hl E; try lia.
  - discriminate.
  - exact (check_int16_range _ _ _ _ (check1_all c1) E).
  - exact (check_int16_range _ _ _ _ (check2_all c1 c2) E).
Qed.

Lemma int16_short_bad (t : string) (c : ascii) :
  (String.length t <= 2)%nat -> In c (list_ascii_of_string t) -> int_char c = false ->
  exists e, PyStr.int16 t = Raise e.
Proof.
  destruct t as [|c1 [|c2 [|c3 t]]]; cbn [String.length];
    intros Hl Hin Hbad; try lia; simpl in Hin.
  - contradiction.
  - destruct Hin as [->|[]].
    pose proof (check1_all c) as H. unfold check1 in H. rewrite Hbad in H.
    exact (check_int16_bad _ _ H).
  - pose proof (check2_all c1 c2) as H. unfold check2 in H.
    destruct Hin as [->|[->|[]]]; rewrite Hbad in H;
      rewrite ?andb_false_r, ?andb_false_l in H; exact (check_int16_bad _ _ H).
Qed.

Lemma substring_length_le (n m : nat) (s : string) :
  (String.length (substring n m s) <= m)%nat.
Proof.
  revert n m. induction s as [|c s IH]; intros n m.
  - destruct n, m; cbn; lia.
  - destruct n as [|n].
    + destruct m as [|m]; cbn; [lia|]. specialize (IH 0%nat m). lia.
    + cbn. apply IH.
Qed.

Lemma get_in_substring (s : string) (k i : nat) (c : ascii) :
  String.get i s = Some c -> (k <= i < k + 2)%nat ->
  In c (list_ascii_of_string (substring k 2 s)).
Proof.
  revert k i. induction s as [|a s IH]; intros k i Hget Hi.
  - destruct i; discriminate.
  - destruct k as [|k].
    + destruct i as [|[|i]]; try lia.
      * cbn in Hget. injection Hget as ->. cbn. left. reflexivity.
      * cbn in Hget. cbn [substring list_ascii_of_string In]. right.
        destruct s as [|b s]; [discriminate|].
        cbn in Hget. injection Hget as ->. cbn. left. reflexivity.
    + destruct i as [|i]; [lia|]. cbn in Hget. cbn [substring].
      apply (IH k i Hget). lia.
Qed.

Lemma substring_short (s : string) (k : nat) :
  (String.length s <= k)%nat -> substring k 2 s = EmptyString.
Proof.
  revert k. induction s as [|a s IH]; intros k Hl.
  - destruct k; reflexivity.
  - destruct k as [|k]; cbn in Hl; [lia|]. cbn. apply IH. lia.
Qed.

Lemma parse_color_hash (s : string) :
  PyStr.startswith "#" s = true ->
  PyStr.re_match rgba_pattern s = None /\
  parse_color s = try_except (hex_triple s) (fun _ => white).
Proof.
  intros H.
  assert (E : PyStr.re_match rgba_pattern s = None).
  { destruct s as [|c s]; [discriminate|].
    unfold PyStr.startswith in H. cbn [prefix] in H.
    destruct (ascii_dec "#" c) as [<-|]; [reflexivity|discriminate]. }
  split; [exact E|].
  unfold parse_color, parse_color_body. rewrite E, H. reflexivity.
Qed.

Lemma hex_triple_raise (s : string) (k : nat) :
  In k [1%nat; 3%nat; 5%nat] -> (exists e, PyStr.int16 (PyStr.slice2 s k) = Raise e) ->
  try_except (hex_triple s) (fun _ => white) = white.
Proof.
  intros Hk [e He]. unfold hex_triple. cbn [map tuple3].
  destruct Hk as [<-|[<-|[<-|[]]]].
  - rewrite He. reflexivity.
  - destruct (PyStr.int16 (PyStr.slice2 s 1)); [|reflexivity].
    rewrite He. reflexivity.
  - destruct (PyStr.int16 (PyStr.slice2 s 1)); [|reflexivity].
    destruct (PyStr.int16 (PyStr.slice2 s 3)); [|reflexivity].
    rewrite He. reflexivity.
Qed.

(** On the characters below 256: a string that starts with [#] falls
    back to white when it has at most five characters, and when one of the
    characters at offsets 1 to 6 is not a hex digit, a sign or white
    space. *)
Lemma parse_color_hex_fallback_latin1 (s : string) :
  PyStr.startswith "#" s = true ->
  (String.length s <= 5)%nat \/
  (exists i c, (1 <= i <= 6)%nat /\ String.get i s = Some c /\ int_char c = false) ->
  parse_color s = white.
Proof.
  intros Hs Hbad. destruct (parse_color_hash s Hs) as [_ ->].
  destruct Hbad as [Hlen|(i & c & Hi & Hget & Hc)].
  - apply (hex_triple_raise s 5); [cbn; auto|].
    unfold PyStr.slice2. rewrite substring_short by assumption.
    exists ValueError. reflexivity.
  - assert (Hk : exists k, In k [1%nat; 3%nat; 5%nat] /\ (k <= i < k + 2)%nat).
    { destruct i as [|[|[|[|[|[|[|i]]]]]]]; try lia;
        [exists 1%nat|exists 1%nat|exists 3%nat|exists 3%nat|exists 5%nat|exists 5%nat];
        cbn; split; auto; lia. }
    destruct Hk as (k & Hk & Hki).
    apply (hex_triple_raise s k Hk).
    apply (int16_short_bad _ c).
    + apply substring_length_le.
    + apply (get_in_substring s k i c Hget Hki).
    + assumption.
Qed.

(** ** The [#] branch on strings of any characters *)

Section UnicodeColour.

Variable to_decimal : N -> option Z.
Variable isspace : N -> bool.

Lemma startswith_hash (s : PyUni.ustr) :
  PyUni.startswith (PyUni.of_string "#") s = true -> exists s', s = 35%N :: s'.
Proof.
  change (PyUni.of_string "#") with [35%N].
  destruct s as [|c s']; cbn [PyUni.startswith]; [discriminate|].
  destruct (N.eqb_spec 35 c) as [<-|]; [eauto|discriminate].
Qed.

(** A text that starts with [#] does not match the pattern: it is read by
    the [#] branch. *)
Lemma parse_color_hash_any (s : PyUni.ustr) :
  PyUni.startswith (PyUni.of_string "#") s = true ->
  PyUni.parse_color to_decimal isspace s
  = try_except (PyUni.hex_triple to_decimal isspace s) (fun _ => white).
Proof.
  intros Hs. unfold PyUni.parse_color, PyUni.parse_color_body. rewrite Hs.
  destruct (startswith_hash s Hs) as [s' ->]. reflexivity.
Qed.

Lemma hex_triple_raise_any (s : PyUni.ustr) (k : nat) :
  In k [1%nat; 3%nat; 5%nat] ->
  (exists e, PyUni.int16 to_decimal isspace (PyUni.slice2 s k) = Raise e) ->
  try_except (PyUni.hex_triple to_decimal isspace s) (fun _ => white) = white.
Proof.
  intros Hk [e He]. unfold PyUni.hex_triple. cbn [map PyUni.tuple3].
  destruct Hk as [<-|[<-|[<-|[]]]].
  - rewrite He. reflexivity.
  - destruct (PyUni.int16 to_decimal isspace (PyUni.slice2 s 1)); [|reflexivity].
    rewrite He. reflexivity.
  - destruct (PyUni.int16 to_decimal isspace (PyUni.slice2 s 1)); [|reflexivity].
    destruct (PyUni.int16 to_decimal isspace (PyUni.slice2 s 3)); [|reflexivity].
    rewrite He. reflexivity.
Qed.

Lemma to_ascii_length (t : PyUni.ustr) :
  (String.length (PyUni.to_ascii to_decimal isspace t) <= List.length t)%nat.
Proof.
  induction t as [|a t IH]; cbn [PyUni.to_ascii List.length]; [cbn; lia|].
  destruct (a <? 127)%N; [cbn [String.length]; lia|].
  destruct (isspace a); [cbn [String.length]; lia|].
  destruct (to_decimal a); cbn [String.length]; lia.
Qed.

(** The ASCII text of a text with a character that [int] cannot accept
    has such a character too. *)
Lemma to_ascii_bad (t : PyUni.ustr) (c : N) :
  In c t -> PyUni.int_char to_decimal isspace c = false ->
  exists c', In c' (list_ascii_of_string (PyUni.to_ascii to_decimal isspace t)) /\
             int_char c' = false.
Proof.
  intros Hin Hbad. induction t as [|a t IH]; [contradiction|].
  cbn [PyUni.to_ascii].
  assert (Htail : In c t ->
            forall x, exists c',
              In c' (list_ascii_of_string
                       (String x (PyUni.to_ascii to_decimal isspace t))) /\
              int_char c' = false).
  { intros H x. destruct (IH H) as (c' & Hc' & Hb). exists c'. cbn. auto. }
  unfold PyUni.int_char, PyUni.isdecimal in Hbad.
  destruct (a <? 127)%N eqn:Ea.
  - destruct Hin as [->|Hin]; [|apply Htail; assumption].
    rewrite Ea in Hbad. exists (ascii_of_N c). cbn. auto.
  - destruct (isspace a) eqn:Es.
    + destruct Hin as [->|Hin]; [|apply Htail; assumption].
      rewrite Ea, Es in Hbad. discriminate.
    + destruct (to_decimal a) as [d|] eqn:Ed.
      * destruct Hin as [->|Hin]; [|apply Htail; assumption].
        rewrite Ea, Es, Ed in Hbad. discriminate.
      * exists "?"%char. split; [cbn; auto|reflexivity].
Qed.

Lemma int16_bad_any (t : PyUni.ustr) (c : N) :
  (List.length t <= 2)%nat -> In c t ->
  PyUni.int_char to_decimal isspace c = false ->
  exists e, PyUni.int16 to_decimal isspace t = Raise e.
Proof.
  intros Hl Hin Hbad.
  destruct (to_ascii_bad t c Hin Hbad) as (c' & Hc' & Hb).
  unfold PyUni.int16. apply (int16_short_bad _ c'); [|assumption|assumption].
  pose proof (to_ascii_length t). lia.
Qed.

Lemma slice2_length (s : PyUni.ustr) (k : nat) :
  (List.length (PyUni.slice2 s k) <= 2)%nat.
Proof. unfold PyUni.slice2. rewrite length_firstn. lia. Qed.

Lemma nth_error_in_slice2 (s : PyUni.ustr) (k i : nat) (c : N) :
  nth_error s i = Some c -> (k <= i < k + 2)%nat -> In c (PyUni.slice2 s k).
Proof.
  intros Hn Hi. unfold PyUni.slice2.
  assert (H : nth_error (firstn 2 (skipn k s)) (i - k) = Some c).
  { rewrite nth_error_firstn.
    replace (i - k <? 2)%nat with true by (symmetry; apply Nat.ltb_lt; lia).
    rewrite nth_error_skipn. replace (k + (i - k))%nat with i by lia. assumption. }
  exact (nth_error_In _ _ H).
Qed.

Lemma slice2_short (s : PyUni.ustr) (k : nat) :
  (List.length s <= k)%nat -> PyUni.slice2 s k = [].
Proof.
  intros H. unfold PyUni.slice2. rewrite skipn_all2 by assumption. reflexivity.
Qed.

(** C6, as the code has it. A string that starts with [#] falls back to
    white when it has at most five characters, and when one of the
    characters at offsets 1 to 6 is not a character that [int(., 16)]
    accepts in a pair: an ASCII hex digit or sign, white space, or a
    decimal digit of any script. (A six-character string is read with a
    one-digit last pair, and a pair may hold a sign or a blank.) The
    string is any sequence of code points, the character database is
    any. *)
Theorem parse_color_hex_fallback (s : PyUni.ustr) :
  PyUni.startswith (PyUni.of_string "#") s = true ->
  (List.length s <= 5)%nat \/
  (exists i c, (1 <= i <= 6)%nat /\ nth_error s i = Some c /\
               PyUni.int_char to_decimal isspace c = false) ->
  PyUni.parse_color to_decimal isspace s = white.
Proof.
  intros Hs Hbad. rewrite (parse_color_hash_any s Hs).
  destruct Hbad as [Hlen|(i & c & Hi & Hget & Hc)].
  - apply (hex_triple_raise_any s 5); [cbn; auto|].
    rewrite slice2_short by assumption. exists ValueError. reflexivity.
  - assert (Hk : exists k, In k [1%nat; 3%nat; 5%nat] /\ (k <= i < k + 2)%nat).
    { destruct i as [|[|[|[|[|[|[|i]]]]]]]; try lia;
        [exists 1%nat|exists 1%nat|exists 3%nat|exists 3%nat|exists 5%nat|exists 5%nat];
        cbn; split; auto; lia. }
    destruct Hk as (k & Hk & Hki).
    apply (hex_triple_raise_any s k Hk).
    apply (int16_bad_any _ c).
    + apply slice2_length.
    + apply (nth_error_in_slice2 s k i c Hget Hki).
    + assumption.
Qed.

End UnicodeColour.

Local Open Scope string_scope.

(** The claim C6 as it is written fails on a six-character string. *)
Lemma parse_color_hex_fallback_counterexample :
  PyUni.startswith (PyUni.of_string "#") (PyUni.of_string "#FFFFF") = true /\
  PyUni.re_match PyUni.unicode_decimal PyUni.unicode_isspace rgba_pattern
    (PyUni.of_string "#FFFFF") = None /\
  (List.length (PyUni.of_string "#FFFFF") < 7)%nat /\
  PyUni.parse_color PyUni.unicode_decimal PyUni.unicode_isspace
    (PyUni.of_string "#FFFFF") = (255, 255, 15) /\
  PyUni.parse_color PyUni.unicode_decimal PyUni.unicode_isspace
    (PyUni.of_string "#FFFFF") <> white.
Proof.
  split; [reflexivity|]. split; [reflexivity|].
  split; [cbn; lia|].
  assert (E : PyUni.parse_color PyUni.unicode_decimal PyUni.unicode_isspace
                (PyUni.of_string "#FFFFF") = (255, 255, 15))
    by (vm_compute; reflexivity).
  split; [exact E|]. rewrite E. discriminate.
Qed.

(** A Greek letter in the second pair. *)
Lemma parse_color_hex_fallback_witness :
  PyUni.startswith (PyUni.of_string "#")
    (PyUni.of_string "#12" ++ [0x3A9%N] ++ PyUni.of_string "456")%list = true /\
  PyUni.parse_color PyUni.unicode_decimal PyUni.unicode_isspace
    (PyUni.of_string "#12" ++ [0x3A9%N] ++ PyUni.of_string "456")%list = white.
Proof.
  split; [reflexivity|].
  apply parse_color_hex_fallback; [reflexivity|].
  right. exists 3%nat, 0x3A9%N.
  split; [lia|]. split; reflexivity.
Defined.

Local Close Scope string_scope.

Lemma to_int_finite_nonneg (m : positive) (e v : Z) :
  to_int (S754_finite false m e) = Ok v -> 0 <= v.
Proof.
  unfold to_int. set (M := Z.pos m).
  assert (HM : 0 < M) by (unfold M; lia). clearbody M.
  intros H. injection H as <-.
  destruct (0 <=? e) eqn:E.
  - apply Z.leb_le in E. apply Z.mul_nonneg_nonneg; [lia|]. apply Z.pow_nonneg. lia.
  - apply Z.leb_gt in E. apply Z.div_pos; [lia|]. apply Z.pow_pos_nonneg; lia.
Qed.

Lemma to_int_round_aux_nonneg (m e : Z) (l : location) (v : Z) :
  to_int (binary_round_aux prec emax false m e l) = Ok v -> 0 <= v.
Proof.
  unfold binary_round_aux.
  destruct (shr_fexp prec emax m e l) as [mrs e'].
  destruct (shr_fexp prec emax _ e' loc_Exact) as [mrs' e''].
  destruct (shr_m mrs') as [|p|p].
  - intros H. injection H as <-. lia.
  - destruct (e'' <=? emax - prec); [apply to_int_finite_nonneg|discriminate].
  - discriminate.
Qed.

Lemma to_int_of_decimal_nonneg (n k v : Z) :
  to_int (of_decimal n k) = Ok v -> 0 <= v.
Proof.
  unfold of_decimal. destruct (n =? 0).
  - intros H. injection H as <-. lia.
  - unfold round_ratio.
    destruct (SFdiv_core_binary prec emax n 0 (10 ^ k) 0) as [[q e] l].
    apply to_int_round_aux_nonneg.
Qed.

Lemma int_of_float_str_nonneg (x : string) (v : Z) :
  int_of_float_str x = Ok v -> 0 <= v.
Proof.
  unfold int_of_float_str, PyStr.float_of_str.
  destruct (PyStr.split_point x) as [a b].
  match goal with |- context [if ?c then _ else _] => destruct c end;
    [|discriminate].
  cbn [bind]. apply to_int_of_decimal_nonneg.
Qed.

Lemma tuple3_ok (f : string -> result Z) (xs : list string) (r g b : Z) :
  tuple3 f xs = Ok (r, g, b) ->
  exists x1 x2 x3, xs = [x1; x2; x3] /\ f x1 = Ok r /\ f x2 = Ok g /\ f x3 = Ok b.
Proof.
  destruct xs as [|x1 [|x2 [|x3 [|x4 xs]]]]; try discriminate.
  cbn [tuple3]. intros H. exists x1, x2, x3.
  destruct (f x1) as [r'|]; [|discriminate].
  destruct (f x2) as [g'|]; [|discriminate].
  destruct (f x3) as [b'|]; [|discriminate].
  cbn [bind] in H. injection H as -> -> ->. repeat split.
Qed.

(** C7, as the code has it. Every component that [parse_color] returns is
    an integer; for an rgb/rgba string the three components are the numbers
    read as floats and truncated, which are not negative (and are not
    clamped to 255); for any other string they lie between -15 and 255. *)
Theorem parse_color_component_bounds (s : string) :
  let '(r, g, b) := parse_color s in
  match PyStr.re_match rgba_pattern s with
  | Some _ => 0 <= r /\ 0 <= g /\ 0 <= b
  | None => -15 <= r <= 255 /\ -15 <= g <= 255 /\ -15 <= b <= 255
  end.
Proof.
  unfold parse_color, parse_color_body.
  destruct (PyStr.re_match rgba_pattern s) as [groups|].
  - destruct (tuple3 int_of_float_str groups) as [[[r g] b]|e] eqn:E;
      cbn [try_except]; [|unfold white; lia].
    apply tuple3_ok in E as (x1 & x2 & x3 & _ & H1 & H2 & H3).
    apply int_of_float_str_nonneg in H1, H2, H3. auto.
  - destruct (PyStr.startswith "#" s); [|cbn; lia].
    destruct (tuple3 PyStr.int16 _) as [[[r g] b]|e] eqn:E;
      cbn [try_except]; [|unfold white; lia].
    apply tuple3_ok in E as (x1 & x2 & x3 & Hxs & H1 & H2 & H3).
    cbn [map] in Hxs. injection Hxs as <- <- <-.
    apply int16_short_range in H1, H2, H3;
      try apply substring_length_le. auto.
Qed.

Local Open Scope string_scope.

(** The claim C7 as it is written fails: components are not clamped. *)
Lemma parse_color_component_bounds_counterexample :
  parse_color "rgb(300,0,0)" = (300, 0, 0) /\ ~ (0 <= 300 <= 255).
Proof. split; [vm_compute; reflexivity|lia]. Qed.

(** C9. The three test vectors, and totality: [parse_color] returns the
    value of its [try] block, or white when the block raises. *)
Theorem parse_color_vectors_total :
  parse_color "#FF0000" = (255, 0, 0) /\
  parse_color "rgba(10,20,30,0.5)" = (10, 20, 30) /\
  parse_color "garbage" = (255, 255, 255) /\
  forall s : string,
    (exists r g b, parse_color_body s = Ok (r, g, b) /\ parse_color s = (r, g, b)) \/
    (exists e, parse_color_body s = Raise e /\ parse_color s = (255, 255, 255)).
Proof.
  split; [vm_compute; reflexivity|].
  split; [vm_compute; reflexivity|].
  split; [vm_compute; reflexivity|].
  intros s. unfold parse_color.
  destruct (parse_color_body s) as [[[r g] b]|e].
  - left. exists r, g, b. split; reflexivity.
  - right. exists e. split; reflexivity.
Qed.

(** * The matcher and the captured groups *)

Module RegexFacts.
Import PyStr RegexSpec.

Lemma matches_cons (c : ascii) (s : string) (r r' : list item) (k1 k k' : captures) :
  (forall t, run r' t k1 k' -> run r (String c t) k k') ->
  matches r' s k1 k' -> matches r (String c s) k k'.
Proof.
  intros H (t & rest & -> & Hr). exists (String c t), rest. split; [reflexivity|auto].
Qed.

Lemma matches_same (s : string) (r r' : list item) (k1 k k' : captures) :
  (forall t, run r' t k1 k' -> run r t k k') ->
  matches r' s k1 k' -> matches r s k k'.
Proof.
  intros H (t & rest & -> & Hr). exists t, rest. split; [reflexivity|auto].
Qed.

Lemma orelse_some {A : Type} (x y : option A) (v : A) :
  orelse x y = Some v -> x = Some v \/ y = Some v.
Proof. destruct x; cbn; auto. Qed.

Lemma rmatch_star_sound (a : atom) (r : list item) :
  (forall s k k', rmatch r s k = Some k' -> matches r s k k') ->
  forall s k k', rmatch (Star a :: r) s k = Some k' -> matches (Star a :: r) s k k'.
Proof.
  intros IH s. induction s as [|c s IHs]; intros k k' H.
  - cbn in H. apply IH in H. revert H. apply matches_same. intros t. apply run_star_stop.
  - cbn [rmatch] in H. destruct (atom_matches a c) eqn:Ea.
    + apply orelse_some in H as [H|H].
      * apply IHs in H. revert H. apply matches_cons. intros t. apply run_star_step, Ea.
      * apply IH in H. revert H. apply matches_same. intros t. apply run_star_stop.
    + apply IH in H. revert H. apply matches_same. intros t. apply run_star_stop.
Qed.

Lemma rmatch_sound (r : list item) :
  forall s k k', rmatch r s k = Some k' -> matches r s k k'.
Proof.
  induction r as [|i r IH]; intros s k k' H.
  - cbn in H. injection H as <-. exists EmptyString, s. split; [reflexivity|constructor].
  - destruct i as [a|a|a|a| |].
    + destruct s as [|c s]; cbn [rmatch] in H; [discriminate|].
      destruct (atom_matches a c) eqn:Ea; [|discriminate].
      apply IH in H. revert H. apply matches_cons. intros t. apply run_one, Ea.
    + destruct s as [|c s]; cbn [rmatch] in H.
      * apply IH in H. revert H. apply matches_same. intros t. apply run_opt_skip.
      * destruct (atom_matches a c) eqn:Ea.
        -- apply orelse_some in H as [H|H]; apply IH in H; revert H.
           ++ apply matches_cons. intros t. apply run_opt_take, Ea.
           ++ apply matches_same. intros t. apply run_opt_skip.
        -- apply IH in H. revert H. apply matches_same. intros t. apply run_opt_skip.
    + apply (rmatch_star_sound a r IH). exact H.
    + destruct s as [|c s]; cbn [rmatch] in H; [discriminate|].
      destruct (atom_matches a c) eqn:Ea; [|discriminate].
      apply (rmatch_star_sound a r IH) in H. revert H.
      apply matches_cons. intros t. apply run_plus, Ea.
    + cbn [rmatch] in H. apply IH in H. revert H. apply matches_same.
      intros t. apply run_open.
    + cbn [rmatch] in H. apply IH in H. revert H. apply matches_same.
      intros t. apply run_close.
Qed.

Lemma append_nil_r (s : string) : (s ++ "")%string = s.
Proof. induction s as [|c s IH]; cbn; [reflexivity|]. rewrite IH. reflexivity. Qed.

Lemma append_assoc (s1 s2 s3 : string) :
  ((s1 ++ s2) ++ s3)%string = (s1 ++ (s2 ++ s3))%string.
Proof. induction s1 as [|c s1 IH]; cbn; [reflexivity|]. rewrite IH. reflexivity. Qed.

Lemma pushes_nil (k : captures) : pushes "" k = k.
Proof.
  destruct k as [cl [x|]]; unfold pushes; cbn; [|reflexivity].
  rewrite append_nil_r. reflexivity.
Qed.

Lemma pushes_push (c : ascii) (ds : string) (k : captures) :
  pushes ds (push c k) = pushes (String c ds) k.
Proof.
  destruct k as [cl [x|]]; unfold pushes, push; cbn; [|reflexivity].
  rewrite append_assoc. reflexivity.
Qed.

Lemma run_star_inv (a : atom) (r : list item) (t : string) (k k' : captures) :
  run (Star a :: r) t k k' ->
  exists ds t', all_atom a ds = true /\ run r t' (pushes ds k) k'.
Proof.
  intros H. remember (Star a :: r) as p eqn:Ep. revert Ep.
  induction H as [| | | |a0 r0 t k k' H _|a0 r0 c t k k' Ha H IH| | |];
    intros Ep; try discriminate; injection Ep as -> ->.
  - exists EmptyString, t. rewrite pushes_nil. split; [reflexivity|assumption].
  - destruct (IH eq_refl) as (ds & t' & Hds & Hr).
    exists (String c ds), t'. rewrite pushes_push in Hr.
    split; [cbn; rewrite Ha, Hds; reflexivity|assumption].
Qed.

Lemma all_atom_digit (s : string) : all_atom Digit s = all_digits s.
Proof. induction s as [|c s IH]; cbn; [reflexivity|]. rewrite IH. reflexivity. Qed.

Lemma split_point_digits (d : string) :
  all_digits d = true -> split_point d = (d, None).
Proof.
  induction d as [|c d IH]; cbn; [reflexivity|].
  intros H. apply andb_prop in H as [Hc Hd].
  destruct (Ascii.eqb_spec c ".") as [->|_]; [discriminate|].
  rewrite (IH Hd). reflexivity.
Qed.

Lemma split_point_digits_point (d rest : string) :
  all_digits d = true ->
  split_point (d ++ String "." rest) = (d, Some rest).
Proof.
  induction d as [|c d IH]; cbn; [reflexivity|].
  intros H. apply andb_prop in H as [Hc Hd].
  destruct (Ascii.eqb_spec c ".") as [->|_]; [discriminate|].
  rewrite (IH Hd). reflexivity.
Qed.

Lemma decimal_digits (c : ascii) (d : string) :
  is_digit c = true -> all_digits d = true -> decimal (String c d).
Proof.
  intros Hc Hd. unfold decimal, float_of_str.
  rewrite (split_point_digits (String c d)) by (cbn; rewrite Hc, Hd; reflexivity).
  cbn [all_digits String.length]. rewrite Hc, Hd. cbn. eauto.
Qed.

Lemma decimal_point (c : ascii) (d d2 : string) :
  is_digit c = true -> all_digits d = true -> all_digits d2 = true ->
  decimal (String c d ++ String "." d2).
Proof.
  intros Hc Hd Hd2. unfold decimal, float_of_str.
  rewrite (split_point_digits_point (String c d)) by (cbn; rewrite Hc, Hd; reflexivity).
  cbn [all_digits String.length]. rewrite Hc, Hd, Hd2. cbn. eauto.
Qed.

Lemma run_nil_inv (t : string) (k k' : captures) : run [] t k k' -> k' = k.
Proof. intros H. inversion H. reflexivity. Qed.

Lemma run_one_inv (a : atom) (r : list item) (t : string) (k k' : captures) :
  run (One a :: r) t k k' ->
  exists c t', atom_matches a c = true /\ run r t' (push c k) k'.
Proof. intros H. inversion H; subst. eauto. Qed.

Lemma run_plus_inv (a : atom) (r : list item) (t : string) (k k' : captures) :
  run (Plus a :: r) t k k' ->
  exists c t', atom_matches a c = true /\ run (Star a :: r) t' (push c k) k'.
Proof. intros H. inversion H; subst. eauto. Qed.

Lemma run_opt_inv (a : atom) (r : list item) (t : string) (k k' : captures) :
  run (Opt a :: r) t k k' ->
  (exists t', run r t' k k') \/
  (exists c t', atom_matches a c = true /\ run r t' (push c k) k').
Proof. intros H. inversion H; subst; eauto. Qed.

Lemma run_open_inv (r : list item) (t : string) (k k' : captures) :
  run (GOpen :: r) t k k' -> run r t (gopen k) k'.
Proof. intros H. inversion H; subst. assumption. Qed.

Lemma run_close_inv (r : list item) (t : string) (k k' : captures) :
  run (GClose :: r) t k k' -> run r t (gclose k) k'.
Proof. intros H. inversion H; subst. assumption. Qed.

Lemma all_digits_app (d d2 : string) :
  all_digits d = true -> all_digits d2 = true -> all_digits (d ++ d2) = true.
Proof.
  intros Hd Hd2. induction d as [|a d IH]; cbn; [assumption|].
  cbn in Hd. apply andb_prop in Hd as [Ha Hd]. rewrite Ha, (IH Hd). reflexivity.
Qed.

Lemma run_number_group (r : list item) (t : string) (cl : list string)
    (k' : captures) :
  run (number_group ++ r) t {| closed := cl; cur := None |} k' ->
  exists x t', decimal x /\ run r t' {| closed := cl ++ [x]; cur := None |} k'.
Proof.
  unfold number_group. cbn [app]. intros H.
  apply run_open_inv in H.
  apply run_plus_inv in H as (c & t0 & Hc & H).
  apply run_star_inv in H as (d & t1 & Hd & H).
  rewrite all_atom_digit in Hd. unfold pushes, push, gopen in H. cbn in H.
  unfold atom_matches in Hc.
  apply run_opt_inv in H as [(t2 & H)|(p & t2 & Hp & H)].
  - apply run_star_inv in H as (d2 & t3 & Hd2 & H).
    rewrite all_atom_digit in Hd2. unfold pushes in H. cbn in H.
    apply run_close_inv in H. unfold gclose in H. cbn in H.
    exists (String c (d ++ d2)), t3. split; [|assumption].
    apply decimal_digits; [assumption|]. apply all_digits_app; assumption.
  - unfold atom_matches in Hp. apply Ascii.eqb_eq in Hp. subst p.
    apply run_star_inv in H as (d2 & t3 & Hd2 & H).
    rewrite all_atom_digit in Hd2. unfold pushes, push in H. cbn in H.
    apply run_close_inv in H. unfold gclose in H. cbn in H.
    exists (String c (d ++ String "." d2)), t3. split.
    + change (String c (d ++ String "." d2)) with (String c d ++ String "." d2)%string.
      apply decimal_point; assumption.
    + rewrite append_assoc in H. exact H.
Qed.

Lemma run_separator (r : list item) (t : string) (cl : list string) (k' : captures) :
  run (One (Lit ",") :: Star Space :: r) t {| closed := cl; cur := None |} k' ->
  exists t', run r t' {| closed := cl; cur := None |} k'.
Proof.
  intros H. apply run_one_inv in H as (c & t0 & _ & H).
  apply run_star_inv in H as (ds & t' & _ & H).
  exists t'. exact H.
Qed.

(** Every match of the pattern captures three decimal texts. *)
Lemma re_match_groups (s : string) (groups : list string) :
  re_match rgba_pattern s = Some groups ->
  exists x1 x2 x3, groups = [x1; x2; x3] /\ decimal x1 /\ decimal x2 /\ decimal x3.
Proof.
  unfold re_match.
  destruct (rmatch rgba_pattern s _) as [k|] eqn:E; [|discriminate].
  intros H. injection H as <-.
  apply rmatch_sound in E as (t & rest & _ & H).
  unfold rgba_pattern in H. cbn [app] in H.
  apply run_one_inv in H as (c1 & t1 & _ & H).
  apply run_one_inv in H as (c2 & t2 & _ & H).
  apply run_one_inv in H as (c3 & t3 & _ & H).
  cbn [push cur closed] in H.
  assert (Hpar : exists t', run (One (Lit "(") :: number_group ++
                   [One (Lit ","); Star Space] ++ number_group ++
                   [One (Lit ","); Star Space] ++ number_group) t'
                   {| closed := []; cur := None |} k).
  { apply run_opt_inv in H as [(t4 & H)|(c4 & t4 & _ & H)]; eauto. }
  clear H. destruct Hpar as (t' & H).
  apply run_one_inv in H as (c5 & t5 & _ & H).
  cbn [push cur closed] in H.
  apply run_number_group in H as (x1 & t6 & Hx1 & H).
  cbn [app] in H. apply run_separator in H as (t7 & H).
  apply run_number_group in H as (x2 & t8 & Hx2 & H).
  cbn [app] in H. apply run_separator in H as (t9 & H).
  rewrite <- (app_nil_r number_group) in H.
  apply run_number_group in H as (x3 & t10 & Hx3 & H).
  apply run_nil_inv in H. subst k. exists x1, x2, x3. cbn. auto.
Qed.

End RegexFacts.

Import RegexSpec RegexFacts.

(** On a match, the [try] block of [parse_color] converts three decimal
    texts: [float] never fails there, only [int] can (on an infinity). *)
Lemma parse_color_body_rgb (s : string) (groups : list string) :
  PyStr.re_match rgba_pattern s = Some groups ->
  exists x1 x2 x3 f1 f2 f3,
    groups = [x1; x2; x3] /\
    PyStr.float_of_str x1 = Ok f1 /\ PyStr.float_of_str x2 = Ok f2 /\
    PyStr.float_of_str x3 = Ok f3 /\
    parse_color_body s =
      (r <- PyFloat.to_int f1 ;; g <- PyFloat.to_int f2 ;; b <- PyFloat.to_int f3 ;;
       Ok (r, g, b)).
Proof.
  intros H.
  destruct (re_match_groups s groups H)
    as (x1 & x2 & x3 & -> & [f1 H1] & [f2 H2] & [f3 H3]).
  exists x1, x2, x3, f1, f2, f3.
  repeat (split; [reflexivity || assumption|]).
  unfold parse_color_body. rewrite H. cbn [tuple3].
  unfold int_of_float_str. rewrite H1, H2, H3. reflexivity.
Qed.

(** * The theorems on sample inputs *)

Lemma sample_image_valid : valid_source sample_image.
Proof.
  unfold valid_source, wf_image, max_dim. cbn.
  repeat split; try lia. repeat constructor.
Qed.

Lemma sample_square_valid : valid_source sample_square.
Proof.
  unfold valid_source, wf_image, max_dim. cbn.
  repeat split; try lia. repeat constructor.
Qed.

Lemma add_borders_canvas_dimensions_witness :
  valid_source sample_image /\
  getitem INSTAGRAM_RATIOS "1:1 (Square)" = Ok (1, 1) /\
  new_dimensions (width sample_image) (height sample_image) (1, 1) = Ok (4, 4).
Proof.
  split; [exact sample_image_valid|]. split; [reflexivity|].
  exact (proj1 (add_borders_canvas_dimensions sample_resize sample_save sample_path
                  (PilImage sample_image) sample_image "#FF0000" "1:1 (Square)" (1, 1)
                  initial_world eq_refl sample_image_valid eq_refl)).
Defined.

Lemma add_borders_canvas_pixels_witness :
  as_pil_image (NumpyArray sample_array) = sample_image /\
  valid_source sample_image /\
  getitem INSTAGRAM_RATIOS "1:1 (Square)" = Ok (1, 1) /\
  exists canvas,
    composite sample_image "#FF0000" "1:1 (Square)" = Ok canvas /\
    getpixel canvas 0 1 = Some sample_pixel /\
    getpixel canvas 0 0 = Some (ink (255, 0, 0)).
Proof.
  split; [reflexivity|].
  split; [exact sample_image_valid|]. split; [reflexivity|].
  destruct (add_borders_canvas_pixels sample_resize sample_save sample_path
              (NumpyArray sample_array) sample_image "#FF0000" "1:1 (Square)" (1, 1)
              initial_world eq_refl sample_image_valid eq_refl)
    as (canvas & Hc & _ & _ & Hin & Hout & _).
  exists canvas. split; [exact Hc|].
  assert (Hsz : width canvas = 4 /\ height canvas = 4).
  { assert (E : exists cv, composite sample_image "#FF0000" "1:1 (Square)" = Ok cv
                           /\ width cv = 4 /\ height cv = 4)
      by (eexists; split; [vm_compute; reflexivity|split; reflexivity]).
    destruct E as (cv & Ecv & Hw & Hh). rewrite Ecv in Hc.
    injection Hc as <-. split; assumption. }
  destruct Hsz as [Hw Hh]. rewrite Hw, Hh in Hin, Hout.
  change ((4 - width sample_image) / 2) with 0 in Hin, Hout.
  change ((4 - height sample_image) / 2) with 1 in Hin, Hout.
  split.
  - destruct (Hin 0 0) as (p & Hp & Hq); [cbn; lia|cbn; lia|].
    cbn in Hp. injection Hp as <-. exact Hq.
  - apply Hout; cbn; lia.
Defined.

(** The claim C2 as it is written fails on a parsed colour that is not a
    colour of bytes: the border of the canvas cannot hold the channel 300,
    it holds 255. *)
Lemma add_borders_canvas_pixels_counterexample :
  parse_color "rgb(300,0,0)" = (300, 0, 0) /\
  exists canvas,
    add_borders sample_resize sample_save sample_path (Some (PilImage sample_image))
      "rgb(300,0,0)" "1:1 (Square)" false initial_world
    = ((Some canvas, Some sample_path), set_file canvas initial_world) /\
    option_map pixel_color (getpixel canvas 0 0) = Some (255, 0, 0) /\
    option_map pixel_color (getpixel canvas 0 0)
    <> Some (parse_color "rgb(300,0,0)").
Proof.
  split; [vm_compute; reflexivity|].
  eexists. split; [vm_compute; reflexivity|].
  split; [vm_compute; reflexivity|].
  vm_compute. discriminate.
Qed.

Lemma add_borders_same_ratio_witness :
  valid_source sample_square /\
  getitem INSTAGRAM_RATIOS "1:1 (Square)" = Ok (1, 1) /\
  width sample_square * 1 = height sample_square * 1 /\
  new_dimensions (width sample_square) (height sample_square) (1, 1)
  = Ok (size sample_square).
Proof.
  split; [exact sample_square_valid|]. split; [reflexivity|]. split; [reflexivity|].
  exact (proj1 (add_borders_same_ratio sample_square "#FF0000" "1:1 (Square)" (1, 1)
                  sample_square_valid eq_refl eq_refl)).
Defined.

Lemma add_borders_canvas_contains_source_witness :
  valid_source sample_image /\
  getitem INSTAGRAM_RATIOS "16:9 (Landscape)" = Ok (16, 9) /\
  exists canvas,
    composite sample_image "#FF0000" "16:9 (Landscape)" = Ok canvas /\
    width sample_image <= width canvas /\ height sample_image <= height canvas.
Proof.
  split; [exact sample_image_valid|]. split; [reflexivity|].
  destruct (add_borders_canvas_contains_source sample_image "#FF0000"
              "16:9 (Landscape)" (16, 9) sample_image_valid eq_refl)
    as (canvas & Hc & Hw & Hh & _).
  exists canvas. split; [exact Hc|]. split; assumption.
Defined.

Lemma process_preview_debounce_witness :
  let t1 := PyFloat.of_decimal 1000 0 in
  let t2 := PyFloat.of_decimal 100005 2 in
  PyFloat.ltb (PyFloat.sub t1 (last_update_time initial_world)) update_interval = false /\
  last_update_time
    (snd (process_preview sample_resize sample_save sample_path t2
            (Some (PilImage sample_image)) "#FF0000" "1:1 (Square)"
            (snd (process_preview sample_resize sample_save sample_path t1
                    (Some (PilImage sample_image)) "#FF0000" "1:1 (Square)" initial_world))))
  = t1.
Proof.
  cbv zeta.
  assert (H : PyFloat.ltb (PyFloat.sub (PyFloat.of_decimal 1000 0)
                             (last_update_time initial_world)) update_interval = false)
    by (vm_compute; reflexivity).
  split; [exact H|].
  exact (proj2 (proj2 (process_preview_debounce sample_resize sample_save sample_path
                         (PyFloat.of_decimal 1000 0) (PyFloat.of_decimal 100005 2)
                         (Some (PilImage sample_image)) (Some (PilImage sample_image))
                         "#FF0000" "1:1 (Square)" "#FF0000" "1:1 (Square)"
                         initial_world H))).
Defined.

(** * Further properties of the colour parser *)

Local Open Scope Z_scope.

Lemma int16_hex2 (upper : bool) (n : Z) :
  0 <= n < 256 -> PyStr.int16 (hex2 upper n) = Ok n.
Proof.
  intros Hn.
  assert (H : forallb check_hex2 (seq 0 256) = true) by (vm_compute; reflexivity).
  rewrite forallb_forall in H.
  specialize (H (Z.to_nat n)). rewrite in_seq in H. specialize (H ltac:(lia)).
  unfold check_hex2 in H. rewrite Z2Nat.id in H by lia.
  destruct upper.
  - destruct (PyStr.int16 (hex2 true n)) as [v1|]; [|discriminate].
    destruct (PyStr.int16 (hex2 false n)) as [v2|]; [|discriminate].
    apply andb_prop in H as [H _]. apply Z.eqb_eq in H. congruence.
  - destruct (PyStr.int16 (hex2 true n)) as [v1|]; [|discriminate].
    destruct (PyStr.int16 (hex2 false n)) as [v2|]; [|discriminate].
    apply andb_prop in H as [_ H]. apply Z.eqb_eq in H. congruence.
Qed.

Lemma slice2_cons (c : ascii) (s : string) (k : nat) :
  PyStr.slice2 (String c s) (S k) = PyStr.slice2 s k.
Proof. reflexivity. Qed.

Lemma slice2_pair (a b : ascii) (s : string) :
  PyStr.slice2 (String a (String b s)) 0 = String a (String b EmptyString).
Proof. destruct s; reflexivity. Qed.

(** X1. A colour written as [#RRGGBB], each pair in upper or lower case,
    is read back as that colour; whatever follows the six hex digits is
    ignored. *)
Theorem parse_color_hex_roundtrip
    (u1 u2 u3 : bool) (r g b : Z) (rest : string) :
  0 <= r < 256 -> 0 <= g < 256 -> 0 <= b < 256 ->
  parse_color ("#" ++ hex2 u1 r ++ hex2 u2 g ++ hex2 u3 b ++ rest) = (r, g, b).
Proof.
  intros Hr Hg Hb.
  destruct (parse_color_hash ("#" ++ hex2 u1 r ++ hex2 u2 g ++ hex2 u3 b ++ rest))
    as [_ ->]; [reflexivity|].
  unfold hex_triple, hex2. cbn [map tuple3 append].
  rewrite !slice2_cons, !slice2_pair.
  fold (hex2 u1 r) (hex2 u2 g) (hex2 u3 b).
  rewrite !int16_hex2 by assumption. reflexivity.
Qed.

Lemma parse_color_hex_roundtrip_witness :
  0 <= 255 < 256 /\ 0 <= 128 < 256 /\ 0 <= 0 < 256 /\
  parse_color ("#" ++ hex2 true 255 ++ hex2 false 128 ++ hex2 true 0 ++ "cc") = (255, 128, 0).
Proof.
  split; [lia|]. split; [lia|]. split; [lia|].
  apply parse_color_hex_roundtrip; lia.
Defined.

Section RgbText.

Import PyStr.

Lemma rmatch_one (a : atom) (r : list item) (c : ascii) (s : string) (k : captures) :
  rmatch (One a :: r) (String c s) k =
  if atom_matches a c then rmatch r s (push c k) else None.
Proof. reflexivity. Qed.

Lemma rmatch_opt (a : atom) (r : list item) (c : ascii) (s : string) (k : captures) :
  rmatch (Opt a :: r) (String c s) k =
  if atom_matches a c
  then orelse (rmatch r s (push c k)) (rmatch r (String c s) k)
  else rmatch r (String c s) k.
Proof. reflexivity. Qed.

Lemma push_none (c : ascii) (cl : list string) :
  push c {| closed := cl; cur := None |} = {| closed := cl; cur := None |}.
Proof. reflexivity. Qed.

Lemma rmatch_star_stop (a : atom) (r : list item) (s : string) (k : captures) :
  match s with
  | EmptyString => True
  | String c _ => atom_matches a c = false
  end ->
  rmatch (Star a :: r) s k = rmatch r s k.
Proof.
  destruct s as [|c s]; intros H; [reflexivity|].
  cbn [rmatch]. rewrite H. reflexivity.
Qed.

(** The greedy choice: when the items after a star accept the text that
    follows a run of matching characters, the star takes the whole run. *)
Lemma rmatch_star_greedy (a : atom) (r : list item) (x rest : string)
    (k res : captures) :
  all_atom a x = true ->
  rmatch (Star a :: r) rest (pushes x k) = Some res ->
  rmatch (Star a :: r) (x ++ rest) k = Some res.
Proof.
  revert k. induction x as [|c x IH]; intros k Hx H.
  - rewrite pushes_nil in H. exact H.
  - cbn in Hx. apply andb_prop in Hx as [Hc Hx].
    rewrite <- pushes_push in H. specialize (IH (push c k) Hx H).
    change (String c x ++ rest)%string with (String c (x ++ rest)).
    cbn [rmatch]. rewrite Hc.
    cbn [rmatch] in IH. rewrite IH. reflexivity.
Qed.

Lemma digit_not_space (c : ascii) : is_digit c = true -> is_space c = false.
Proof.
  unfold is_digit, is_space, in_range. change (code "0") with 48. change (code "9") with 57.
  intros H. apply andb_prop in H as [H1 H2]. apply Z.leb_le in H1, H2.
  repeat rewrite orb_false_iff. repeat split.
  - apply andb_false_iff. right. apply Z.leb_gt. lia.
  - apply andb_false_iff. right. apply Z.leb_gt. lia.
  - apply Z.eqb_neq. lia.
  - apply Z.eqb_neq. lia.
Qed.

Lemma digit_not_char (c c' : ascii) :
  is_digit c = true -> is_digit c' = false -> Ascii.eqb c' c = false.
Proof.
  intros H H'. destruct (Ascii.eqb_spec c' c) as [->|]; [congruence|reflexivity].
Qed.

(** A numeral in front of a text that does not go on with a digit or a
    point is captured whole by the number group. *)
Lemma rmatch_number_group (r : list item) (d rest : string) (cl : list string)
    (res : captures) :
  d <> EmptyString -> all_digits d = true -> ends_number rest ->
  rmatch r rest {| closed := cl ++ [d]; cur := None |} = Some res ->
  rmatch (number_group ++ r) (d ++ rest) {| closed := cl; cur := None |} = Some res.
Proof.
  intros Hne Hd Hrest H.
  destruct d as [|c d]; [contradiction|]. cbn in Hd.
  apply andb_prop in Hd as [Hc Hd].
  unfold number_group. cbn [app].
  change (String c d ++ rest)%string with (String c (d ++ rest)).
  cbn [rmatch]. cbn [atom_matches]. rewrite Hc.
  change (?f (d ++ rest)%string ?k = Some res)
    with (rmatch (Star Digit :: Opt (Lit ".") :: Star Digit :: GClose :: r)
            (d ++ rest) k = Some res).
  apply rmatch_star_greedy; [rewrite all_atom_digit; exact Hd|].
  rewrite rmatch_star_stop by (destruct rest; [exact I|apply Hrest]).
  assert (Hopt : forall k, rmatch (Opt (Lit ".") :: Star Digit :: GClose :: r) rest k
                           = rmatch (GClose :: r) rest k).
  { intros k. destruct rest as [|c0 rest]; cbn [rmatch].
    - reflexivity.
    - destruct Hrest as [Hdig Hpt]. cbn [atom_matches].
      destruct (Ascii.eqb_spec "." c0) as [E|_]; [congruence|].
      rewrite Hdig. reflexivity. }
  rewrite Hopt. cbn [rmatch]. unfold pushes, push, gopen, gclose. cbn.
  exact H.
Qed.

Lemma rmatch_separator (r : list item) (sp rest : string) (cl : list string)
    (res : captures) :
  all_atom Space sp = true ->
  match rest with
  | EmptyString => True
  | String c _ => is_space c = false
  end ->
  rmatch r rest {| closed := cl; cur := None |} = Some res ->
  rmatch (One (Lit ",") :: Star Space :: r) ("," ++ sp ++ rest)
    {| closed := cl; cur := None |} = Some res.
Proof.
  intros Hsp Hrest H.
  change ("," ++ sp ++ rest)%string with (String "," (sp ++ rest)).
  rewrite rmatch_one. cbn [atom_matches]. rewrite Ascii.eqb_refl, push_none.
  apply rmatch_star_greedy; [exact Hsp|].
  rewrite rmatch_star_stop by exact Hrest.
  unfold pushes. cbn [cur closed]. exact H.
Qed.

Lemma numeral_starts (d rest : string) :
  d <> EmptyString -> all_digits d = true ->
  match (d ++ rest)%string with
  | EmptyString => True
  | String c _ => is_space c = false
  end.
Proof.
  intros Hne Hd. destruct d as [|c d]; [contradiction|]. cbn in Hd |- *.
  apply andb_prop in Hd as [Hc _]. apply digit_not_space, Hc.
Qed.

(** The pattern on a functional colour written with three numerals. *)
Lemma re_match_rgb_text (alpha : bool) (d1 d2 d3 sp1 sp2 tail : string) :
  d1 <> EmptyString -> all_digits d1 = true ->
  d2 <> EmptyString -> all_digits d2 = true ->
  d3 <> EmptyString -> all_digits d3 = true ->
  all_atom Space sp1 = true -> all_atom Space sp2 = true -> ends_number tail ->
  re_match rgba_pattern
    (rgb_prefix alpha ++ d1 ++ "," ++ sp1 ++ d2 ++ "," ++ sp2 ++ d3 ++ tail)
  = Some [d1; d2; d3].
Proof.
  intros N1 D1 N2 D2 N3 D3 S1 S2 T.
  assert (Hcomma : forall s, ends_number ("," ++ s)).
  { intros s. cbn. split; [reflexivity|discriminate]. }
  assert (Hin : rmatch (number_group ++ [One (Lit ","); Star Space] ++ number_group ++
                        [One (Lit ","); Star Space] ++ number_group)
                  (d1 ++ "," ++ sp1 ++ d2 ++ "," ++ sp2 ++ d3 ++ tail)
                  {| closed := []; cur := None |}
                = Some {| closed := [d1; d2; d3]; cur := None |}).
  { apply rmatch_number_group; [assumption..|apply Hcomma|].
    cbn [app]. apply rmatch_separator; [assumption|apply numeral_starts; assumption|].
    apply rmatch_number_group; [assumption..|apply Hcomma|].
    cbn [app]. apply rmatch_separator; [assumption|apply numeral_starts; assumption|].
    rewrite <- (app_nil_r number_group).
    apply rmatch_number_group; [assumption..|]. reflexivity. }
  unfold re_match, rgba_pattern. cbn [app] in Hin |- *.
  destruct alpha; cbn [rgb_prefix append] in Hin |- *.
  - rewrite !rmatch_one. cbn [atom_matches]. rewrite !Ascii.eqb_refl, !push_none.
    rewrite rmatch_opt. cbn [atom_matches]. rewrite Ascii.eqb_refl, push_none.
    rewrite rmatch_one. cbn [atom_matches]. rewrite Ascii.eqb_refl, push_none.
    rewrite Hin. reflexivity.
  - rewrite !rmatch_one. cbn [atom_matches]. rewrite !Ascii.eqb_refl, !push_none.
    rewrite rmatch_opt. cbn [atom_matches].
    replace (Ascii.eqb "a" "(") with false by reflexivity.
    rewrite rmatch_one. cbn [atom_matches]. rewrite Ascii.eqb_refl, push_none.
    rewrite Hin. reflexivity.
Qed.

End RgbText.

Lemma digits_value_nonneg (d : string) (acc : Z) :
  PyStr.all_digits d = true -> 0 <= acc -> 0 <= PyStr.digits_value d acc.
Proof.
  revert acc. induction d as [|c d IH]; intros acc Hd Hacc; [assumption|].
  cbn [PyStr.all_digits] in Hd. apply andb_prop in Hd as [Hc Hd].
  cbn [PyStr.digits_value]. apply IH; [assumption|].
  unfold PyStr.is_digit, PyStr.in_range in Hc.
  apply andb_prop in Hc as [Hc _]. apply Z.leb_le in Hc. lia.
Qed.

(** An integer below [2^52] goes through [float] and [int] unchanged. *)
Lemma to_int_round_ratio_one (n : Z) :
  0 < n < 2 ^ 52 -> to_int (round_ratio false n 1) = Ok n.
Proof.
  intros Hn.
  destruct (int_truediv_nearest n 1 Hn ltac:(lia)) as (M & g & Hx & HM & Hg & Hb & _).
  unfold int_truediv in Hx.
  replace (1 =? 0) with false in Hx by reflexivity.
  replace (n =? 0) with false in Hx by (symmetry; apply Z.eqb_neq; lia).
  replace (n <? 0) with false in Hx by (symmetry; apply Z.ltb_ge; lia).
  replace (1 <? 0) with false in Hx by reflexivity.
  rewrite Z.abs_eq in Hx by lia. change (Z.abs 1) with 1 in Hx. cbn [xorb] in Hx.
  destruct (is_inf (round_ratio false n 1)); [discriminate|].
  injection Hx as ->.
  rewrite to_int_fpos by lia. f_equal.
  assert (HG : 0 < 2 ^ g) by (apply Z.pow_pos_nonneg; lia).
  set (G := 2 ^ g) in *.
  assert (HMn : M = n * G) by lia.
  rewrite HMn. apply Z.div_mul. lia.
Qed.

Lemma int_of_float_str_numeral (d : string) :
  numeral d -> int_of_float_str d = Ok (PyStr.digits_value d 0).
Proof.
  intros (Hne & Hd & Hv).
  unfold int_of_float_str, PyStr.float_of_str.
  rewrite (split_point_digits d Hd).
  rewrite Hd. cbn [PyStr.all_digits andb String.length].
  replace (String.length d + 0 =? 0)%nat with false
    by (destruct d; [contradiction|reflexivity]).
  cbn [negb bind]. rewrite append_nil_r.
  unfold of_decimal. change (Z.of_nat 0) with 0. change (10 ^ 0) with 1.
  pose proof (digits_value_nonneg d 0 Hd ltac:(lia)) as Hn.
  destruct (Z.eqb_spec (PyStr.digits_value d 0) 0) as [E|E].
  - rewrite E. reflexivity.
  - apply to_int_round_ratio_one. lia.
Qed.

(** X2. A functional colour written with three plain numerals, [rgb(] or
    [rgba(], optional white space after the commas, and anything that is
    not a digit or a point after the third numeral (a closing parenthesis,
    an alpha component), is read as the values of the three numerals. *)
Theorem parse_color_rgb_numerals
    (alpha : bool) (d1 d2 d3 sp1 sp2 tail : string) :
  numeral d1 -> numeral d2 -> numeral d3 ->
  all_atom PyStr.Space sp1 = true -> all_atom PyStr.Space sp2 = true ->
  ends_number tail ->
  parse_color (rgb_prefix alpha ++ d1 ++ "," ++ sp1 ++ d2 ++ "," ++ sp2 ++ d3 ++ tail)
  = (PyStr.digits_value d1 0, PyStr.digits_value d2 0, PyStr.digits_value d3 0).
Proof.
  intros N1 N2 N3 S1 S2 T.
  unfold parse_color, parse_color_body.
  rewrite (re_match_rgb_text alpha d1 d2 d3 sp1 sp2 tail)
    by (try apply N1; try apply N2; try apply N3; assumption).
  cbn [tuple3].
  rewrite !int_of_float_str_numeral by assumption. reflexivity.
Qed.

Lemma parse_color_rgb_numerals_witness :
  parse_color "rgba(255, 128,7, 0.5)" = (255, 128, 7).
Proof.
  apply (parse_color_rgb_numerals true "255" "128" "7" " " "" ", 0.5)");
    try (split; [discriminate|split; [reflexivity|vm_compute; reflexivity]]);
    try reflexivity.
  split; [reflexivity|discriminate].
Defined.

(** X3. A text that is empty, or whose first character is neither [r]
    nor [#], is read as white. *)
Theorem parse_color_other_text (s : string) :
  match s with
  | EmptyString => True
  | String c _ => c <> "r"%char /\ c <> "#"%char
  end ->
  parse_color s = white.
Proof.
  destruct s as [|c s]; intros H; [reflexivity|]. destruct H as [Hr Hh].
  unfold parse_color, parse_color_body.
  assert (E : PyStr.re_match rgba_pattern (String c s) = None).
  { unfold PyStr.re_match, rgba_pattern. cbn [app PyStr.rmatch PyStr.atom_matches].
    destruct (Ascii.eqb_spec "r" c) as [E|_]; [congruence|reflexivity]. }
  rewrite E. unfold PyStr.startswith. cbn [prefix].
  destruct (ascii_dec "#" c) as [E'|_]; [congruence|reflexivity].
Qed.

Lemma parse_color_other_text_witness :
  ("g"%char <> "r"%char /\ "g"%char <> "#"%char) /\ parse_color "garbage" = white.
Proof.
  assert (H : "g"%char <> "r"%char /\ "g"%char <> "#"%char)
    by (split; discriminate).
  split; [exact H|]. apply parse_color_other_text. exact H.
Defined.

(** Rounding a non-negative mantissa never gives a NaN. *)
Lemma shr_iter_nonneg (n : nat) (mrs : shr_record) :
  0 <= shr_m mrs -> 0 <= shr_m (Nat.iter n shr_1 mrs).
Proof.
  intros H. induction n as [|n IH]; [exact H|].
  cbn [Nat.iter nat_rect].
  destruct (Nat.iter n shr_1 mrs) as [m r s] eqn:E. cbn [shr_m] in IH.
  change (nat_rect (fun _ => shr_record) mrs (fun _ => shr_1) n)
    with (Nat.iter n shr_1 mrs). rewrite E.
  rewrite shr_1_nonneg by assumption. cbn [shr_m].
  apply Z.div_pos; lia.
Qed.

Lemma shr_fexp_nonneg (m e : Z) (l : location) :
  0 <= m -> 0 <= shr_m (fst (shr_fexp prec emax m e l)).
Proof.
  intros Hm. unfold shr_fexp, shr.
  assert (H0 : 0 <= shr_m (shr_record_of_loc m l)) by (destruct l as [|[| |]]; exact Hm).
  destruct (fexp prec emax (Zdigits2 m + e) - e) as [|p|p]; cbn [fst]; try exact H0.
  rewrite iter_pos_nat. apply shr_iter_nonneg, H0.
Qed.

Lemma round_nearest_even_nonneg (m : Z) (l : location) :
  0 <= m -> 0 <= round_nearest_even m l.
Proof.
  intros Hm. destruct l as [|[| |]]; cbn [round_nearest_even]; try lia.
  destruct (Z.even m); lia.
Qed.

Lemma to_int_round_aux_cases (m e : Z) (l : location) :
  0 <= m ->
  (exists v, to_int (binary_round_aux prec emax false m e l) = Ok v) \/
  to_int (binary_round_aux prec emax false m e l) = Raise OverflowError.
Proof.
  intros Hm. unfold binary_round_aux.
  pose proof (shr_fexp_nonneg m e l Hm) as H1.
  destruct (shr_fexp prec emax m e l) as [mrs e']. cbn [fst] in H1.
  pose proof (shr_fexp_nonneg _ e' loc_Exact
                (round_nearest_even_nonneg _ (loc_of_shr_record mrs) H1)) as H2.
  destruct (shr_fexp prec emax _ e' loc_Exact) as [mrs' e'']. cbn [fst] in H2.
  destruct (shr_m mrs') as [|p|p]; [left; eexists; reflexivity| |lia].
  destruct (e'' <=? emax - prec); [left; eexists; reflexivity|right; reflexivity].
Qed.

Lemma to_int_of_decimal_cases (n k : Z) :
  0 <= n -> 0 <= k ->
  (exists v, to_int (of_decimal n k) = Ok v) \/
  to_int (of_decimal n k) = Raise OverflowError.
Proof.
  intros Hn Hk. unfold of_decimal.
  destruct (n =? 0); [left; eexists; reflexivity|].
  unfold round_ratio, SFdiv_core_binary.
  set (m' := match _ with 0 => n | Z.pos _ => _ | Z.neg _ => 0 end).
  assert (Hm' : 0 <= m').
  { unfold m'. destruct (0 - 0 - _) as [|p|p]; try lia.
    rewrite Z.shiftl_mul_pow2 by lia. apply Z.mul_nonneg_nonneg; [lia|].
    apply Z.pow_nonneg. lia. }
  assert (H10 : 0 < 10 ^ k) by (apply Z.pow_pos_nonneg; lia).
  pose proof (Z.div_pos m' (10 ^ k) Hm' H10) as Hq.
  unfold Z.div in Hq.
  destruct (Z.div_eucl m' (10 ^ k)) as [q r]. cbn [fst] in Hq.
  apply to_int_round_aux_cases. exact Hq.
Qed.

Lemma int_of_float_str_cases (x : string) :
  decimal x ->
  (exists v, int_of_float_str x = Ok v) \/ int_of_float_str x = Raise OverflowError.
Proof.
  intros [f Hf]. unfold int_of_float_str. rewrite Hf. cbn [bind].
  unfold PyStr.float_of_str in Hf.
  destruct (PyStr.split_point x) as [a b].
  destruct (PyStr.all_digits a) eqn:Ha; [|discriminate].
  destruct (PyStr.all_digits _) eqn:Hb in Hf; [|discriminate].
  cbn [andb] in Hf.
  destruct (negb _) in Hf; [|discriminate].
  injection Hf as <-.
  apply to_int_of_decimal_cases; [|lia].
  apply digits_value_nonneg; [|lia].
  apply all_digits_app; assumption.
Qed.

(** X4. Once the pattern matches, the three captured texts are decimal
    numerals: [float] cannot fail on them, and the [try] block returns a
    triple unless a component is so large that [int] meets an infinite
    float ([OverflowError]). *)
Theorem parse_color_rgb_errors (s : string) (groups : list string) :
  PyStr.re_match rgba_pattern s = Some groups ->
  (exists x1 x2 x3, groups = [x1; x2; x3] /\ decimal x1 /\ decimal x2 /\ decimal x3) /\
  ((exists r g b, parse_color_body s = Ok (r, g, b)) \/
   parse_color_body s = Raise OverflowError).
Proof.
  intros H. pose proof (re_match_groups s groups H) as Hg.
  split; [exact Hg|].
  destruct Hg as (x1 & x2 & x3 & -> & D1 & D2 & D3).
  unfold parse_color_body. rewrite H. cbn [tuple3].
  destruct (int_of_float_str_cases x1 D1) as [[r ->]| ->]; [|right; reflexivity].
  destruct (int_of_float_str_cases x2 D2) as [[g ->]| ->]; [|right; reflexivity].
  destruct (int_of_float_str_cases x3 D3) as [[b ->]| ->]; [|right; reflexivity].
  left. exists r, g, b. reflexivity.
Qed.

Lemma parse_color_rgb_errors_witness :
  PyStr.re_match rgba_pattern "rgb(1.5,2.,30)" = Some ["1.5"; "2."; "30"]%string /\
  ((exists r g b, parse_color_body "rgb(1.5,2.,30)" = Ok (r, g, b)) \/
   parse_color_body "rgb(1.5,2.,30)" = Raise OverflowError).
Proof.
  assert (H : PyStr.re_match rgba_pattern "rgb(1.5,2.,30)"
              = Some ["1.5"; "2."; "30"]%string) by reflexivity.
  split; [exact H|]. exact (proj2 (parse_color_rgb_errors _ _ H)).
Defined.

(** * Further properties of the compositor and the entry points *)

(** ** Dictionaries *)

Lemma getitem_ok_in {V : Type} (d : list (string * V)) (key : string) (v : V) :
  getitem d key = Ok v -> In key (map fst d).
Proof.
  induction d as [|[k v'] d IH]; cbn; [discriminate|].
  destruct (String.eqb_spec k key) as [->|_]; [auto|]. intros Hg. right. auto.
Qed.

Lemma getitem_in_ok {V : Type} (d : list (string * V)) (key : string) :
  In key (map fst d) -> exists v, getitem d key = Ok v.
Proof.
  induction d as [|[k v'] d IH]; cbn; [contradiction|].
  destruct (String.eqb_spec k key) as [->|Hne]; [eauto|].
  intros [Hk|Hk]; [contradiction|auto].
Qed.

Lemma getitem_missing {V : Type} (d : list (string * V)) (key : string) :
  ~ In key (map fst d) -> getitem d key = Raise KeyError.
Proof.
  induction d as [|[k v'] d IH]; cbn; [reflexivity|].
  destruct (String.eqb_spec k key) as [->|Hne]; [tauto|]. intros Hn. apply IH. tauto.
Qed.

(** ** Well-formed canvases *)

Lemma wf_Image_new (sz : Z * Z) (c : color) (cv : Image) :
  Image_new sz c = Ok cv -> wf_image cv.
Proof.
  destruct sz as [w h]. unfold Image_new.
  destruct (Z.ltb_spec w 0) as [|Hw]; [discriminate|].
  destruct (Z.ltb_spec h 0) as [|Hh]; [discriminate|].
  cbn [orb]. intros Hnew. injection Hnew as <-.
  unfold wf_image. cbn [width height rows].
  split; [lia|]. split; [lia|]. split; [apply repeat_length|].
  apply Forall_forall. intros row Hin. apply repeat_spec in Hin. subst row.
  apply repeat_length.
Qed.

Lemma Forall_imap_length {A B : Type} (g : Z -> Z -> A -> B) (n : nat)
    (rows : list (list A)) (i : Z) :
  Forall (fun row => List.length row = n) rows ->
  Forall (fun row => List.length row = n)
    (imap (fun y row => imap (g y) 0 row) i rows).
Proof.
  intros H. revert i. induction H as [|row rows Hrow _ IH]; intros i; cbn [imap].
  - constructor.
  - constructor; [rewrite imap_length; exact Hrow|apply IH].
Qed.

Lemma wf_paste (canvas im : Image) (box : Z * Z) :
  wf_image canvas -> wf_image (paste canvas im box).
Proof.
  destruct box as [px py]. intros (Hw & Hh & Hrows & Hrow).
  unfold wf_image, paste. cbn [width height rows].
  split; [assumption|]. split; [assumption|].
  split; [rewrite imap_length; assumption|].
  apply (Forall_imap_length
           (fun y x c => match getpixel im (x - px) (y - py) with
                         | Some p => p
                         | None => c
                         end)).
  exact Hrow.
Qed.

(** X5. The canvas of a valid source is a well-formed image of the exact
    size: [new_height] rows of [new_width] pixels. *)
Theorem composite_well_formed
    (im : Image) (border_color aspect_ratio : string) (r : Z * Z) :
  valid_source im -> getitem INSTAGRAM_RATIOS aspect_ratio = Ok r ->
  exists canvas,
    composite im border_color aspect_ratio = Ok canvas /\
    wf_image canvas /\
    List.length (rows canvas) = Z.to_nat (snd (exact_dimensions (width im) (height im) r)) /\
    Forall (fun row => List.length row
                       = Z.to_nat (fst (exact_dimensions (width im) (height im) r)))
      (rows canvas).
Proof.
  intros Hv Hget.
  destruct (composite_spec im border_color aspect_ratio r Hv Hget)
    as (cv0 & Hnew & Hcomp).
  eexists. split; [exact Hcomp|].
  pose proof (wf_paste cv0 im
                (paste_offset (exact_dimensions (width im) (height im) r) (size im))
                (wf_Image_new _ _ _ Hnew)) as Hwf.
  split; [exact Hwf|].
  pose proof (size_new _ _ _ Hnew) as Hsz.
  destruct Hwf as (_ & _ & Hrows & Hrow).
  rewrite width_paste in Hrow. rewrite height_paste in Hrows.
  set (canvas := paste cv0 im _) in *. clearbody canvas.
  unfold size in Hsz. rewrite <- Hsz. cbn [fst snd]. split; assumption.
Qed.

Lemma composite_well_formed_witness :
  valid_source sample_image /\
  getitem INSTAGRAM_RATIOS "4:5 (Portrait)" = Ok (4, 5) /\
  exists canvas,
    composite sample_image "#102030" "4:5 (Portrait)" = Ok canvas /\ wf_image canvas.
Proof.
  split; [exact sample_image_valid|]. split; [reflexivity|].
  destruct (composite_well_formed sample_image "#102030" "4:5 (Portrait)" (4, 5)
              sample_image_valid eq_refl) as (canvas & Hc & Hwf & _).
  exists canvas. split; assumption.
Defined.

Section MoreEntryPoints.

Variable resize : Image -> Z * Z -> result Image.
Variable save : Image -> string -> result unit.
Variable temp_path : string.

(** X6. An image of height zero makes the ratio [orig_width / orig_height]
    a division by zero: with a recognized label, [add_borders] returns
    [(None, None)] and prints that error, in both modes. *)
Theorem add_borders_zero_height
    (image : image_input) (im : Image) (border_color aspect_ratio : string)
    (r : Z * Z) (is_preview : bool) (w : World) :
  as_pil_image image = im ->
  height im = 0 -> getitem INSTAGRAM_RATIOS aspect_ratio = Ok r ->
  add_borders resize save temp_path (Some image) border_color aspect_ratio is_preview w
  = ((None, None), print "add_borders" ZeroDivisionError w).
Proof.
  intros Him Hh Hget. rewrite add_borders_some, Him.
  unfold composite. rewrite Hget. cbn [bind].
  unfold new_dimensions. rewrite (target_float_ok r (getitem_preset _ _ Hget)).
  cbn [bind]. rewrite Hh. reflexivity.
Qed.

(** X7. For a valid source, [add_borders] in preview mode returns an image
    exactly when the ratio label is one of the keys of [INSTAGRAM_RATIOS];
    any other label gives [(None, None)] with a [KeyError] printed. *)
Theorem add_borders_preview_label
    (image : image_input) (im : Image) (border_color aspect_ratio : string)
    (w : World) :
  as_pil_image image = im ->
  valid_source im ->
  ((exists img,
       fst (fst (add_borders resize save temp_path (Some image) border_color
                   aspect_ratio true w)) = Some img)
   <-> In aspect_ratio (map fst INSTAGRAM_RATIOS)) /\
  (~ In aspect_ratio (map fst INSTAGRAM_RATIOS) ->
   add_borders resize save temp_path (Some image) border_color aspect_ratio true w
   = ((None, None), print "add_borders" KeyError w)).
Proof.
  intros Him Hv. rewrite add_borders_some, Him. split; [split|].
  - intros [img H].
    destruct (getitem INSTAGRAM_RATIOS aspect_ratio) as [r|e] eqn:Hget.
    + exact (getitem_ok_in _ _ _ Hget).
    + unfold composite in H. rewrite Hget in H. discriminate.
  - intros Hin. destruct (getitem_in_ok _ _ Hin) as [r Hget].
    destruct (composite_spec im border_color aspect_ratio r Hv Hget)
      as (cv0 & _ & Hcomp).
    rewrite Hcomp. cbn [fst]. eauto.
  - intros Hnot. unfold composite. rewrite (getitem_missing _ _ Hnot). reflexivity.
Qed.

Lemma temp_file_resize_for_preview (im : Image) (w : World) :
  temp_file (snd (resize_for_preview resize im 800 w)) = temp_file w.
Proof.
  unfold resize_for_preview.
  destruct (resize_for_preview_body resize im 800); reflexivity.
Qed.

Lemma temp_file_add_borders_preview
    (image : option image_input) (border_color aspect_ratio : string) (w : World) :
  temp_file (snd (add_borders resize save temp_path image border_color aspect_ratio true w))
  = temp_file w.
Proof.
  destruct image as [im|]; [|reflexivity]. rewrite add_borders_some.
  destruct (composite (as_pil_image im) border_color aspect_ratio); [|reflexivity].
  cbn [snd]. apply temp_file_resize_for_preview.
Qed.

Lemma process_preview_accepted (t : PyFloat.float) (im : option image_input)
    (c l : string) (w : World) :
  PyFloat.ltb (PyFloat.sub t (last_update_time w)) update_interval = false ->
  process_preview resize save temp_path t im c l w =
  (fst (fst (add_borders resize save temp_path im c l true (set_time t w))),
   snd (add_borders resize save temp_path im c l true (set_time t w))).
Proof.
  intros H. unfold process_preview. rewrite H.
  destruct im as [im|]; [|reflexivity].
  destruct (add_borders resize save temp_path (Some im) c l true (set_time t w))
    as [[p d] w']. reflexivity.
Qed.

Lemma process_download_eq (im : option image_input) (c l : string) (w : World) :
  process_download resize save temp_path im c l w =
  (snd (fst (add_borders resize save temp_path im c l false w)),
   snd (add_borders resize save temp_path im c l false w)).
Proof.
  unfold process_download. destruct im as [im|]; [|reflexivity].
  destruct (add_borders resize save temp_path (Some im) c l false w) as [[p d] w'].
  reflexivity.
Qed.

(** X8. The two entry points keep their state apart: a preview request
    never writes the download file, and a download request never changes
    the debounce time. *)
Theorem entry_points_state_separation
    (now : PyFloat.float) (image : option image_input)
    (border_color aspect_ratio : string) (w : World) :
  temp_file (snd (process_preview resize save temp_path now image border_color
                    aspect_ratio w)) = temp_file w /\
  last_update_time (snd (process_download resize save temp_path image border_color
                           aspect_ratio w)) = last_update_time w.
Proof.
  split.
  - destruct (PyFloat.ltb (PyFloat.sub now (last_update_time w)) update_interval) eqn:E.
    + unfold process_preview. rewrite E. reflexivity.
    + rewrite (process_preview_accepted _ _ _ _ _ E). cbn [snd].
      rewrite temp_file_add_borders_preview. reflexivity.
  - rewrite process_download_eq. cbn [snd]. apply add_borders_time.
Qed.

(** X9. For a valid source and a recognized label, [process_download]
    saves the full-size canvas: when the encoder succeeds it returns the
    fixed path and the file holds the canvas; when the encoder raises it
    returns nothing and prints the error, and what the file holds then is
    not specified. *)
Theorem process_download_saves_canvas
    (image : image_input) (im : Image) (border_color aspect_ratio : string)
    (r : Z * Z) (w : World) :
  as_pil_image image = im ->
  valid_source im -> getitem INSTAGRAM_RATIOS aspect_ratio = Ok r ->
  exists canvas,
    composite im border_color aspect_ratio = Ok canvas /\
    size canvas = exact_dimensions (width im) (height im) r /\
    process_download resize save temp_path (Some image) border_color aspect_ratio w =
    match save canvas temp_path with
    | Ok _ => (Some temp_path, set_file canvas w)
    | Raise e => (None, print "add_borders" e (clobber_file w))
    end.
Proof.
  intros Him Hv Hget.
  destruct (composite_spec im border_color aspect_ratio r Hv Hget)
    as (cv0 & Hnew & Hcomp).
  eexists. split; [exact Hcomp|].
  split; [rewrite size_paste; exact (size_new _ _ _ Hnew)|].
  rewrite process_download_eq, add_borders_some, Him, Hcomp.
  destruct (save _ temp_path); reflexivity.
Qed.

Lemma sub_self (t : PyFloat.float) :
  finite_time t -> PyFloat.sub t t = S754_zero false.
Proof.
  destruct t as [s|s| |s m e]; cbn [finite_time]; intros H; try contradiction.
  - destruct s; reflexivity.
  - unfold PyFloat.sub, SFsub. rewrite Z.min_id.
    unfold shl_align. rewrite !Z.sub_diag. reflexivity.
Qed.

(** X10. After an accepted preview request, a request that carries the
    same (finite) clock reading is dropped: it returns nothing and leaves
    the state as it is. *)
Theorem process_preview_same_instant
    (t : PyFloat.float) (im1 im2 : option image_input) (c1 l1 c2 l2 : string)
    (w0 : World) :
  finite_time t ->
  PyFloat.ltb (PyFloat.sub t (last_update_time w0)) update_interval = false ->
  let w1 := snd (process_preview resize save temp_path t im1 c1 l1 w0) in
  process_preview resize save temp_path t im2 c2 l2 w1 = (None, w1).
Proof.
  intros Hfin Hacc w1.
  assert (Ht : last_update_time w1 = t).
  { unfold w1. rewrite (process_preview_accepted _ _ _ _ _ Hacc). cbn [snd].
    rewrite add_borders_time. reflexivity. }
  unfold process_preview at 1. rewrite Ht, (sub_self t Hfin).
  reflexivity.
Qed.

End MoreEntryPoints.

(** ** The preview size *)

(** The product of an integer and a float of any small exponent. *)
Lemma mul_nearest_wide (h mt gt : Z) :
  0 < h < 2 ^ 53 -> 2 ^ 52 <= mt < 2 ^ 53 -> 0 <= gt <= 1000 ->
  h * mt < 2 ^ 52 * 2 ^ gt ->
  exists x M g,
    of_int h = Ok x /\ mul x (fpos mt gt) = fpos M g /\
    nearest M g (h * mt) (2 ^ gt).
Proof.
  intros Hh Hmt Hgt Hval.
  pose proof (digits_small h Hh) as Hs.
  pose proof (mant_bounds h Hh) as Hm.
  set (dh := Zdigits2 h) in *.
  assert (Hcomp :
    mul (S754_finite false (Z.to_pos (mant h)) (dh - 53)) (fpos mt gt) =
    binary_round_aux prec emax false (mant h * mt) (dh - 53 + - gt) loc_Exact).
  { unfold mul, fpos. cbn [SFmul xorb].
    rewrite Pos2Z.inj_mul, !Z2Pos.id by lia. reflexivity. }
  set (c := 2 ^ (53 - dh)).
  assert (Hc : 0 < c) by (apply Z.pow_pos_nonneg; lia).
  assert (HG : 0 < 2 ^ gt) by (apply Z.pow_pos_nonneg; lia).
  assert (HX : mant h * mt = h * mt * c).
  { unfold mant, c. fold dh. ring. }
  assert (HD : 1 * 2 ^ (- (dh - 53 + - gt)) = 2 ^ gt * c).
  { unfold c. rewrite Z.mul_1_l, <- Z.pow_add_r by lia. f_equal. lia. }
  destruct (round_aux_nearest false (mant h * mt) (dh - 53 + - gt) loc_Exact
              (mant h * mt) 1) as (M & g & Hres & Hnear).
  - apply located_exact. nia.
  - nia.
  - lia.
  - rewrite HD, HX. nia.
  - eexists. exists M, g.
    split; [apply of_int_small; assumption|]. fold dh.
    split; [rewrite Hcomp, Hres; reflexivity|].
    rewrite HD, HX in Hnear.
    apply nearest_scale with (c := c); assumption.
Qed.

(** The float nearest to [800 / s] is within a quarter of a unit of
    [800] once multiplied by [s]. *)
Lemma nearest_800 (s M g : Z) :
  0 < s < 2 ^ 32 -> nearest M g 800 s ->
  3199 * 2 ^ g <= 4 * (s * M) <= 3201 * 2 ^ g /\ 2 * s <= 2 ^ g /\ g <= 86.
Proof.
  intros Hs (HM & Hg & Hb & _).
  assert (HG : 0 < 2 ^ g) by (apply Z.pow_pos_nonneg; lia).
  pose proof (scale_bounds M (2 ^ 52) (2 ^ 53) s ltac:(lia) ltac:(lia)) as HP.
  replace (M * s) with (s * M) in HP by ring.
  assert (Hg86 : g <= 86).
  { destruct (Z.le_gt_cases g 86) as [H|H]; [assumption|exfalso].
    pose proof (Z.pow_le_mono_r 2 87 g ltac:(lia) ltac:(lia)) as Hp.
    change (2 ^ 87) with 154742504910672534362390528 in Hp.
    change (2 ^ 32) with 4294967296 in *. pow_consts.
    set (G := 2 ^ g) in *. set (P := s * M) in *.
    replace ((2 * M + 1) * s) with (2 * P + s) in Hb by (unfold P; ring).
    lia. }
  change (2 ^ 32) with 4294967296 in *. pow_consts.
  set (G := 2 ^ g) in *. set (P := s * M) in *.
  replace ((2 * M + 1) * s) with (2 * P + s) in Hb by (unfold P; ring).
  replace ((2 * M - 1) * s) with (2 * P - s) in Hb by (unfold P; ring).
  lia.
Qed.

(** [min] of two positive floats is one of them, and is below both. *)
Lemma min_fpos (M1 g1 M2 g2 : Z) :
  2 ^ 52 <= M1 < 2 ^ 53 -> 2 ^ 52 <= M2 < 2 ^ 53 -> 0 <= g1 -> 0 <= g2 ->
  exists M g,
    PyFloat.min (fpos M1 g1) (fpos M2 g2) = fpos M g /\
    ((M = M1 /\ g = g1) \/ (M = M2 /\ g = g2)) /\
    M * 2 ^ g1 <= M1 * 2 ^ g /\ M * 2 ^ g2 <= M2 * 2 ^ g.
Proof.
  intros H1 H2 Hg1 Hg2. unfold PyFloat.min.
  rewrite ltb_fpos by (pow_consts; lia).
  assert (HG1 : 0 < 2 ^ g1) by (apply Z.pow_pos_nonneg; lia).
  assert (HG2 : 0 < 2 ^ g2) by (apply Z.pow_pos_nonneg; lia).
  destruct (pow_cases g1 g2 Hg1 Hg2) as [[Hlt Hp]|[Heq|[Hgt Hp]]].
  - (* g1 < g2: the second float is smaller *)
    replace (g1 <? g2) with true by (symmetry; apply Z.ltb_lt; lia).
    cbn [orb]. exists M2, g2. split; [reflexivity|]. split; [right; tauto|].
    split; [|lia]. pow_consts. nia.
  - subst g2.
    replace (g1 <? g1) with false by (symmetry; apply Z.ltb_ge; lia).
    rewrite Z.eqb_refl. cbn [orb andb].
    destruct (Z.ltb_spec M2 M1) as [Hm|Hm].
    + exists M2, g1. split; [reflexivity|]. split; [right; tauto|]. nia.
    + exists M1, g1. split; [reflexivity|]. split; [left; tauto|]. nia.
  - replace (g1 <? g2) with false by (symmetry; apply Z.ltb_ge; lia).
    replace (g2 =? g1) with false by (symmetry; apply Z.eqb_neq; lia).
    cbn [orb andb]. exists M1, g1. split; [reflexivity|]. split; [left; tauto|].
    split; [lia|]. pow_consts. nia.
Qed.

(** A side times the ratio, truncated: at most [800], and at least [799]
    when the ratio was computed from that side. *)
Lemma mul_to_int_bounds (s M g : Z) :
  0 < s < 2 ^ 32 -> 2 ^ 52 <= M < 2 ^ 53 -> 0 <= g <= 1000 ->
  4 * (s * M) <= 3201 * 2 ^ g ->
  exists x v,
    of_int s = Ok x /\ to_int (mul x (fpos M g)) = Ok v /\
    0 <= v <= 800 /\ (3199 * 2 ^ g <= 4 * (s * M) -> 799 <= v).
Proof.
  intros Hs HM Hg Hup.
  assert (HG : 0 < 2 ^ g) by (apply Z.pow_pos_nonneg; lia).
  destruct (mul_nearest_wide s M g) as (x & M' & g' & Hof & Hmul & Hn).
  - change (2 ^ 32) with 4294967296 in *. pow_consts. lia.
  - assumption.
  - assumption.
  - pow_consts. lia.
  - destruct Hn as (HM' & Hg' & Hb & _).
    assert (HG' : 0 < 2 ^ g') by (apply Z.pow_pos_nonneg; lia).
    exists x, (M' / 2 ^ g'). split; [assumption|].
    split; [rewrite Hmul; apply to_int_fpos; pow_consts; lia|].
    set (G := 2 ^ g) in *. set (G' := 2 ^ g') in *. set (P := s * M) in *.
    assert (Hlt : M' < 801 * G').
    { (* (2 M' - 1) G <= 2 P G' and 4 P <= 3201 G *)
      assert (H1 : 2 * ((2 * M' - 1) * G) <= 3201 * G * G') by nia.
      assert (H2 : 2 * (2 * M' - 1) <= 3201 * G') by nia.
      lia. }
    split; [split|].
    + apply Z.div_pos; pow_consts; lia.
    + assert (M' / G' < 801); [|lia].
      apply Z.div_lt_upper_bound; lia.
    + intros Hlo.
      apply Z.div_le_lower_bound; [lia|].
      assert (H1 : 3199 * G * G' <= 2 * ((2 * M' + 1) * G)) by nia.
      assert (H2 : 3199 * G' <= 2 * (2 * M' + 1)) by nia.
      lia.
Qed.

(** Being below a float that is near [800 / s]. *)
Lemma below_nearest_800 (s M g M' g' : Z) :
  0 < s -> 0 <= M -> 0 <= g -> 0 <= g' ->
  4 * (s * M') <= 3201 * 2 ^ g' -> M * 2 ^ g' <= M' * 2 ^ g ->
  4 * (s * M) <= 3201 * 2 ^ g.
Proof.
  intros Hs HM Hg Hg' Hup Hle.
  assert (HG : 0 < 2 ^ g) by (apply Z.pow_pos_nonneg; lia).
  assert (HG' : 0 < 2 ^ g') by (apply Z.pow_pos_nonneg; lia).
  set (G := 2 ^ g) in *. set (G' := 2 ^ g') in *.
  assert (H1 : 4 * (s * M) * G' <= 4 * (s * M') * G) by nia.
  assert (H2 : 4 * (s * M') * G <= 3201 * G' * G) by nia.
  assert (H3 : 4 * (s * M) * G' <= 3201 * G * G') by lia.
  apply (Z.mul_le_mono_pos_r _ _ G'); assumption.
Qed.

Section PreviewSize.

Variable resize : Image -> Z * Z -> result Image.

(** The size that [resize_for_preview] asks for. *)
Lemma resize_for_preview_body_size (im : Image) :
  0 < width im < 2 ^ 32 -> 0 < height im < 2 ^ 32 ->
  800 < width im \/ 800 < height im ->
  exists nw nh,
    0 <= nw <= 800 /\ 0 <= nh <= 800 /\ (799 <= nw \/ 799 <= nh) /\
    resize_for_preview_body resize im 800 = resize im (nw, nh).
Proof.
  intros Hw Hh Hbig.
  assert (H52 : 2 ^ 32 < 2 ^ 52) by reflexivity.
  destruct (int_truediv_nearest 800 (width im)) as (M1 & g1 & Hrw & Hn1);
    [pow_consts; lia|lia|].
  destruct (int_truediv_nearest 800 (height im)) as (M2 & g2 & Hrh & Hn2);
    [pow_consts; lia|lia|].
  destruct (nearest_800 _ _ _ Hw Hn1) as (Hb1 & Hs1 & Hg1).
  destruct (nearest_800 _ _ _ Hh Hn2) as (Hb2 & Hs2 & Hg2).
  destruct (min_fpos M1 g1 M2 g2) as (M & g & Hmin & Hsel & Hle1 & Hle2);
    try apply Hn1; try apply Hn2.
  assert (HM : 2 ^ 52 <= M < 2 ^ 53).
  { destruct Hsel as [[-> _]|[-> _]]; [apply Hn1|apply Hn2]. }
  assert (Hg : 0 <= g <= 1000).
  { destruct Hsel as [[_ ->]|[_ ->]]; split; try lia; [apply Hn1|apply Hn2]. }
  assert (Hup1 : 4 * (width im * M) <= 3201 * 2 ^ g).
  { apply below_nearest_800 with (M' := M1) (g' := g1);
      try lia; try (pow_consts; lia); apply Hn1. }
  assert (Hup2 : 4 * (height im * M) <= 3201 * 2 ^ g).
  { apply below_nearest_800 with (M' := M2) (g' := g2);
      try lia; try (pow_consts; lia); apply Hn2. }
  destruct (mul_to_int_bounds _ M g Hw HM Hg Hup1) as (fw & nw & Hfw & Hnw & Hbw & Hlw).
  destruct (mul_to_int_bounds _ M g Hh HM Hg Hup2) as (fh & nh & Hfh & Hnh & Hbh & Hlh).
  exists nw, nh. split; [assumption|]. split; [assumption|].
  split.
  { destruct Hsel as [[-> ->]|[-> ->]]; [left; apply Hlw; lia|right; apply Hlh; lia]. }
  unfold resize_for_preview_body, size.
  replace ((width im >? 800) || (height im >? 800)) with true.
  2:{ symmetry. apply orb_true_iff. rewrite !Z.gtb_lt. lia. }
  rewrite Hrw, Hrh. cbn [bind]. rewrite Hmin, Hfw. cbn [bind].
  rewrite Hnw. cbn [bind]. rewrite Hfh. cbn [bind]. rewrite Hnh. cbn [bind].
  reflexivity.
Qed.

(** An image with both sides at most 800 is returned as it is. *)
Lemma resize_for_preview_small (im : Image) (w : World) :
  width im <= 800 -> height im <= 800 ->
  resize_for_preview resize im 800 w = (im, w).
Proof.
  intros Hw Hh. unfold resize_for_preview, resize_for_preview_body, size.
  replace ((width im >? 800) || (height im >? 800)) with false; [reflexivity|].
  symmetry. apply orb_false_iff. rewrite !Z.gtb_ltb, !Z.ltb_ge. split; assumption.
Qed.

(** X11. An image with a side above 800 is resized to a size whose sides
    are at most 800 and whose longer side is 799 or 800 (the product
    [side * (800 / side)] can round below 800); when the resizing raises,
    the image is returned as it is and the error is printed. *)
Theorem resize_for_preview_size (im : Image) (w : World) :
  0 < width im < 2 ^ 32 -> 0 < height im < 2 ^ 32 ->
  800 < width im \/ 800 < height im ->
  exists nw nh,
    0 <= nw <= 800 /\ 0 <= nh <= 800 /\ (799 <= nw \/ 799 <= nh) /\
    resize_for_preview resize im 800 w =
    match resize im (nw, nh) with
    | Ok im' => (im', w)
    | Raise e => (im, print "resize_for_preview" e w)
    end.
Proof.
  intros Hw Hh Hbig.
  destruct (resize_for_preview_body_size im Hw Hh Hbig)
    as (nw & nh & Hbw & Hbh & Hlong & Hres).
  exists nw, nh. split; [assumption|]. split; [assumption|]. split; [assumption|].
  unfold resize_for_preview. rewrite Hres. reflexivity.
Qed.

(** X12. An image with a side of zero and the other side above 800 makes
    [max_size / side] a division by zero: the image is returned as it is,
    the error is printed and nothing is resized. *)
Theorem resize_for_preview_zero_side (im : Image) (w : World) :
  (width im = 0 /\ 800 < height im) \/ (height im = 0 /\ 800 < width im < 2 ^ 32) ->
  resize_for_preview resize im 800 w
  = (im, print "resize_for_preview" ZeroDivisionError w).
Proof.
  intros [[Hw Hh]|[Hh Hw]];
    unfold resize_for_preview, resize_for_preview_body, size.
  - replace ((width im >? 800) || (height im >? 800)) with true.
    2:{ symmetry. apply orb_true_iff. rewrite !Z.gtb_lt. lia. }
    rewrite Hw. reflexivity.
  - replace ((width im >? 800) || (height im >? 800)) with true.
    2:{ symmetry. apply orb_true_iff. rewrite !Z.gtb_lt. lia. }
    assert (H52 : 2 ^ 32 < 2 ^ 52) by reflexivity.
    destruct (int_truediv_nearest 800 (width im)) as (M1 & g1 & Hrw & _);
      [pow_consts; lia|lia|].
    rewrite Hrw, Hh. reflexivity.
Qed.

End PreviewSize.

(** ** The canvas of a canvas *)

Lemma exact_dimensions_lt (w h : Z) (r : Z * Z) :
  preset r -> 0 < w < 2 ^ 31 -> 0 < h < 2 ^ 31 ->
  fst (exact_dimensions w h r) < 2 ^ 32 /\ snd (exact_dimensions w h r) < 2 ^ 32.
Proof.
  intros Hr Hw Hh. change (2 ^ 32) with 4294967296. pow_consts.
  unfold exact_dimensions.
  destruct (Z.ltb_spec (h * fst r) (w * snd r)); cbn [fst snd];
    (split; [try lia|try lia]);
    destruct Hr as [->|[->| ->]]; cbn [fst snd];
    apply Z.div_lt_upper_bound; lia.
Qed.

(** The exact canvas size is a fixed point: computed again from itself,
    it does not change. *)
Lemma exact_dimensions_idem (w h : Z) (r : Z * Z) :
  0 < fst r -> 0 < snd r ->
  exact_dimensions (fst (exact_dimensions w h r)) (snd (exact_dimensions w h r)) r
  = exact_dimensions w h r.
Proof.
  intros Ha Hb. destruct r as [a b]. cbn [fst snd] in *.
  unfold exact_dimensions. cbn [fst snd].
  destruct (Z.ltb_spec (h * a) (w * b)) as [H|H]; cbn [fst snd].
  - pose proof (floor_bounds (w * b) a Ha) as Hf.
    destruct (Z.ltb_spec (w * b / a * a) (w * b)) as [H'|H']; [reflexivity|].
    replace (w * b / a * a) with (w * b) by lia.
    rewrite Z.div_mul by lia. reflexivity.
  - pose proof (floor_bounds (h * a) b Hb) as Hf.
    destruct (Z.ltb_spec (h * a) (h * a / b * b)) as [H'|H']; [lia|reflexivity].
Qed.

(** X13. Adding borders is idempotent: the canvas of a canvas, for the same
    ratio label and any colour, has the size and the pixels of the canvas. *)
Theorem composite_idempotent
    (im : Image) (color1 color2 aspect_ratio : string) (r : Z * Z) (canvas : Image) :
  valid_source im -> getitem INSTAGRAM_RATIOS aspect_ratio = Ok r ->
  composite im color1 aspect_ratio = Ok canvas ->
  width canvas < max_dim -> height canvas < max_dim ->
  exists canvas2,
    composite canvas color2 aspect_ratio = Ok canvas2 /\
    size canvas2 = size canvas /\
    forall x y, getpixel canvas2 x y = getpixel canvas x y.
Proof.
  intros Hv Hget Hcomp Hwlt Hhlt.
  pose proof (getitem_preset _ _ Hget) as Hr.
  destruct (preset_pos r Hr) as [Ha Hb].
  destruct (composite_spec im color1 aspect_ratio r Hv Hget) as (cv0 & Hnew & Hc).
  rewrite Hcomp in Hc.
  assert (Hcv : canvas = paste cv0 im
                  (paste_offset (exact_dimensions (width im) (height im) r) (size im)))
    by congruence.
  clear Hc.
  pose proof (wf_paste cv0 im
                (paste_offset (exact_dimensions (width im) (height im) r) (size im))
                (wf_Image_new _ _ _ Hnew)) as Hwf.
  rewrite <- Hcv in Hwf.
  assert (Hsize : size canvas = exact_dimensions (width im) (height im) r).
  { rewrite Hcv, size_paste. exact (size_new _ _ _ Hnew). }
  clear Hcv.
  destruct Hv as (_ & Hw & Hh). unfold max_dim in *.
  pose proof (exact_dimensions_ge (width im) (height im) r Hr ltac:(lia) ltac:(lia))
    as [Hge1 Hge2].
  rewrite <- Hsize in Hge1, Hge2. cbn [size fst snd] in Hge1, Hge2.
  assert (Hv2 : valid_source canvas).
  { split; [exact Hwf|]. unfold max_dim. lia. }
  destruct (composite_spec canvas color2 aspect_ratio r Hv2 Hget) as (cv1 & Hnew1 & Hc1).
  assert (Hdim : exact_dimensions (width canvas) (height canvas) r = size canvas).
  { change (width canvas) with (fst (size canvas)).
    change (height canvas) with (snd (size canvas)).
    rewrite Hsize. apply exact_dimensions_idem; assumption. }
  rewrite Hdim in Hnew1, Hc1.
  assert (Hoff : paste_offset (size canvas) (size canvas) = (0, 0)).
  { unfold paste_offset. rewrite !Z.sub_diag. reflexivity. }
  rewrite Hoff in Hc1.
  eexists. split; [exact Hc1|].
  split; [rewrite size_paste; exact (size_new _ _ _ Hnew1)|].
  intros x y.
  pose proof (wf_paste cv1 canvas (0, 0) (wf_Image_new _ _ _ Hnew1)) as Hwf1.
  pose proof (size_new _ _ _ Hnew1) as Hs1.
  assert (Hw1 : width cv1 = width canvas) by (injection Hs1; auto).
  assert (Hh1 : height cv1 = height canvas) by (injection Hs1; auto).
  destruct (Z_lt_dec x 0) as [Hx|Hx];
    [|destruct (Z_lt_dec x (width canvas)) as [Hx'|Hx'];
      [destruct (Z_lt_dec y 0) as [Hy|Hy];
       [|destruct (Z_lt_dec y (height canvas)) as [Hy'|Hy']]|]].
  3:{ (* inside *)
      destruct (getpixel_inside canvas x y Hwf ltac:(lia) ltac:(lia)) as [p Hp].
      rewrite (getpixel_paste cv1 canvas 0 0 _ _ (ink (parse_color color2))).
      - rewrite !Z.sub_0_r, Hp. reflexivity.
      - apply (getpixel_new (width canvas) (height canvas) _ _ _ _ Hnew1); lia. }
  all: rewrite (getpixel_outside canvas x y Hwf) by lia;
    apply getpixel_outside; [exact Hwf1|];
    rewrite width_paste, height_paste, Hw1, Hh1; lia.
Qed.

Lemma composite_idempotent_witness :
  exists canvas,
    composite sample_image "#102030" "4:5 (Portrait)" = Ok canvas /\
    exists canvas2,
      composite canvas "white" "4:5 (Portrait)" = Ok canvas2 /\
      size canvas2 = size canvas /\
      forall x y, getpixel canvas2 x y = getpixel canvas x y.
Proof.
  eexists. split; [vm_compute; reflexivity|].
  apply (composite_idempotent sample_image "#102030" "white" "4:5 (Portrait)" (4, 5)).
  - exact sample_image_valid.
  - reflexivity.
  - vm_compute. reflexivity.
  - vm_compute. reflexivity.
  - vm_compute. reflexivity.
Defined.

Section PreviewImage.

Variable resize : Image -> Z * Z -> result Image.
Variable save : Image -> string -> result unit.
Variable temp_path : string.

(** X14. The preview of a valid source with a recognized label: a canvas
    that fits in 800 by 800 is returned as it is; a larger one is resized
    to at most 800 by 800 with a longer side of 799 or 800, and when the
    resizing raises the full-size canvas is returned and the error is
    printed. *)
Theorem add_borders_preview_image
    (image : image_input) (im : Image) (border_color aspect_ratio : string)
    (r : Z * Z) (w : World) :
  as_pil_image image = im ->
  valid_source im -> getitem INSTAGRAM_RATIOS aspect_ratio = Ok r ->
  exists canvas,
    composite im border_color aspect_ratio = Ok canvas /\
    (width canvas <= 800 /\ height canvas <= 800 ->
     add_borders resize save temp_path (Some image) border_color aspect_ratio true w
     = ((Some canvas, None), w)) /\
    (800 < width canvas \/ 800 < height canvas ->
     exists nw nh,
       0 <= nw <= 800 /\ 0 <= nh <= 800 /\ (799 <= nw \/ 799 <= nh) /\
       add_borders resize save temp_path (Some image) border_color aspect_ratio true w
       = match resize canvas (nw, nh) with
         | Ok small => ((Some small, None), w)
         | Raise e => ((Some canvas, None), print "resize_for_preview" e w)
         end).
Proof.
  intros Him Hv Hget.
  pose proof (getitem_preset _ _ Hget) as Hr.
  destruct (composite_spec im border_color aspect_ratio r Hv Hget) as (cv0 & Hnew & Hc).
  eexists. split; [exact Hc|].
  set (canvas := paste cv0 im _) in *.
  assert (Hsize : size canvas = exact_dimensions (width im) (height im) r).
  { unfold canvas. rewrite size_paste. exact (size_new _ _ _ Hnew). }
  destruct Hv as (_ & Hw & Hh). unfold max_dim in *.
  pose proof (exact_dimensions_ge (width im) (height im) r Hr ltac:(lia) ltac:(lia))
    as [Hge1 Hge2].
  pose proof (exact_dimensions_lt (width im) (height im) r Hr Hw Hh) as [Hlt1 Hlt2].
  rewrite <- Hsize in Hge1, Hge2, Hlt1, Hlt2. cbn [size fst snd] in Hge1, Hge2, Hlt1, Hlt2.
  clearbody canvas.
  rewrite add_borders_some, Him, Hc.
  split.
  - intros [Hsw Hsh]. rewrite (resize_for_preview_small resize canvas w Hsw Hsh).
    reflexivity.
  - intros Hbig.
    destruct (resize_for_preview_body_size resize canvas ltac:(lia) ltac:(lia) Hbig)
      as (nw & nh & Hbw & Hbh & Hlong & Hres).
    exists nw, nh. split; [assumption|]. split; [assumption|]. split; [assumption|].
    unfold resize_for_preview. rewrite Hres.
    destruct (resize canvas (nw, nh)); reflexivity.
Qed.

End PreviewImage.

(** The longer side of a preview can be 799: for a 1078 x 800 image the
    interpreter gives [int(1078 * (800 / 1078)) = 799]. *)
Example resize_for_preview_799 :
  resize_for_preview_body size_only_resize sample_large 800
  = Ok {| width := 799; height := 593; rows := [] |}.
Proof. vm_compute. reflexivity. Qed.

(** X15. A source of width zero does not fail (unlike one of height zero):
    its ratio is [0.0], so the canvas keeps the height and gets the width
    [floor (h * a / b)]; it shows the border colour only, that is the
    parsed colour with each channel clipped to a byte. *)
Theorem composite_zero_width
    (im : Image) (border_color aspect_ratio : string) (r : Z * Z) :
  wf_image im -> width im = 0 -> 0 < height im < max_dim ->
  getitem INSTAGRAM_RATIOS aspect_ratio = Ok r ->
  exists canvas,
    composite im border_color aspect_ratio = Ok canvas /\
    size canvas = (height im * fst r / snd r, height im) /\
    forall x y, 0 <= x < width canvas -> 0 <= y < height canvas ->
      getpixel canvas x y = Some (ink (parse_color border_color)).
Proof.
  intros Hwf Hw Hh Hget. unfold max_dim in Hh.
  pose proof (getitem_preset _ _ Hget) as Hr.
  destruct (preset_pos r Hr) as [Ha Hb].
  destruct (width_exact r (height im) Hr Hh) as (x & Hx & Hint).
  assert (Hdim : new_dimensions (width im) (height im) r
                 = Ok (height im * fst r / snd r, height im)).
  { unfold new_dimensions. rewrite (target_float_ok r Hr). cbn [bind].
    rewrite Hw. unfold int_truediv at 1.
    replace (height im =? 0) with false by (symmetry; apply Z.eqb_neq; lia).
    cbn [Z.eqb bind].
    replace (height im <? 0) with false by (symmetry; apply Z.ltb_ge; lia).
    assert (Hgt : gtb (S754_zero false)
                    (fpos (fst (target_float r)) (snd (target_float r))) = false).
    { destruct Hr as [->|[->| ->]]; reflexivity. }
    rewrite Hgt, Hx. cbn [bind]. rewrite Hint. reflexivity. }
  assert (Hnn : 0 <= height im * fst r / snd r) by (apply Z.div_pos; nia).
  destruct (Image_new_ok (height im * fst r / snd r) (height im)
              (parse_color border_color) Hnn ltac:(lia)) as [cv0 Hnew].
  unfold composite. rewrite Hget. cbn [bind]. rewrite Hdim. cbn [bind].
  rewrite Hnew. cbn [bind].
  eexists. split; [reflexivity|].
  split; [rewrite size_paste; exact (size_new _ _ _ Hnew)|].
  intros x0 y0. rewrite width_paste, height_paste.
  pose proof (size_new _ _ _ Hnew) as Hs. injection Hs as Hw0 Hh0.
  rewrite Hw0, Hh0. intros Hx0 Hy0.
  unfold paste_offset, size. cbn [fst snd].
  rewrite (getpixel_paste cv0 im _ _ _ _ (ink (parse_color border_color))).
  - rewrite (getpixel_outside im _ _ Hwf) by lia. reflexivity.
  - apply (getpixel_new _ _ _ _ _ _ Hnew); lia.
Qed.

Lemma composite_zero_width_witness :
  exists canvas,
    composite sample_thin "white" "16:9 (Landscape)" = Ok canvas /\
    size canvas = (2 * 16 / 9, 2) /\
    forall x y, 0 <= x < width canvas -> 0 <= y < height canvas ->
      getpixel canvas x y = Some (ink (parse_color "white")).
Proof.
  apply (composite_zero_width sample_thin "white" "16:9 (Landscape)" (16, 9)).
  - unfold wf_image. cbn. repeat split; try lia. repeat constructor.
  - reflexivity.
  - unfold max_dim. cbn. lia.
  - reflexivity.
Defined.

(** ** The theorems of the entry points on sample inputs *)

Lemma add_borders_zero_height_witness :
  height sample_flat = 0 /\
  add_borders sample_resize sample_save sample_path (Some (PilImage sample_flat))
    "white" "1:1 (Square)" true initial_world
  = ((None, None), print "add_borders" ZeroDivisionError initial_world).
Proof.
  split; [reflexivity|].
  apply (add_borders_zero_height sample_resize sample_save sample_path
           (PilImage sample_flat) sample_flat "white" "1:1 (Square)" (1, 1) true
           initial_world); reflexivity.
Defined.

Lemma add_borders_preview_label_witness :
  ~ In "3:2" (map fst INSTAGRAM_RATIOS) /\
  add_borders sample_resize sample_save sample_path (Some (PilImage sample_image))
    "white" "3:2" true initial_world
  = ((None, None), print "add_borders" KeyError initial_world).
Proof.
  assert (Hn : ~ In "3:2" (map fst INSTAGRAM_RATIOS)).
  { cbn. intros [H|[H|[H|[]]]]; discriminate. }
  split; [exact Hn|].
  exact (proj2 (add_borders_preview_label sample_resize sample_save sample_path
                  (PilImage sample_image) sample_image "white" "3:2" initial_world
                  eq_refl sample_image_valid) Hn).
Defined.

Lemma process_download_saves_canvas_witness :
  exists canvas,
    composite sample_image "#102030" "4:5 (Portrait)" = Ok canvas /\
    size canvas = (4, 5) /\
    process_download sample_resize sample_save sample_path (Some (PilImage sample_image))
      "#102030" "4:5 (Portrait)" initial_world
    = (Some sample_path, set_file canvas initial_world).
Proof.
  destruct (process_download_saves_canvas sample_resize sample_save sample_path
              (PilImage sample_image) sample_image "#102030" "4:5 (Portrait)" (4, 5)
              initial_world eq_refl sample_image_valid eq_refl)
    as (canvas & Hc & Hs & Hd).
  exists canvas. split; [exact Hc|]. split; [exact Hs|]. exact Hd.
Defined.

Lemma process_preview_same_instant_witness :
  let t := PyFloat.of_decimal 1000 0 in
  finite_time t /\
  PyFloat.ltb (PyFloat.sub t (last_update_time initial_world)) update_interval = false /\
  let w1 := snd (process_preview sample_resize sample_save sample_path t
                   (Some (PilImage sample_image)) "#FF0000" "1:1 (Square)" initial_world) in
  process_preview sample_resize sample_save sample_path t
    (Some (PilImage sample_square)) "white" "4:5 (Portrait)" w1 = (None, w1).
Proof.
  cbv zeta.
  assert (Hf : finite_time (PyFloat.of_decimal 1000 0)) by (vm_compute; exact I).
  assert (H : PyFloat.ltb (PyFloat.sub (PyFloat.of_decimal 1000 0)
                             (last_update_time initial_world)) update_interval = false)
    by (vm_compute; reflexivity).
  split; [exact Hf|]. split; [exact H|].
  exact (process_preview_same_instant sample_resize sample_save sample_path
           (PyFloat.of_decimal 1000 0) (Some (PilImage sample_image)) (Some (PilImage sample_square))
           "#FF0000" "1:1 (Square)" "white" "4:5 (Portrait)" initial_world Hf H).
Defined.

Lemma resize_for_preview_size_witness :
  exists nw nh,
    0 <= nw <= 800 /\ 0 <= nh <= 800 /\ (799 <= nw \/ 799 <= nh) /\
    resize_for_preview size_only_resize sample_large 800 initial_world =
    match size_only_resize sample_large (nw, nh) with
    | Ok im' => (im', initial_world)
    | Raise e => (sample_large, print "resize_for_preview" e initial_world)
    end.
Proof.
  apply (resize_for_preview_size size_only_resize sample_large initial_world).
  - split; reflexivity.
  - split; reflexivity.
  - left. reflexivity.
Defined.

Lemma add_borders_preview_image_witness :
  exists canvas,
    composite sample_image "#102030" "4:5 (Portrait)" = Ok canvas /\
    add_borders sample_resize sample_save sample_path (Some (NumpyArray sample_array))
      "#102030" "4:5 (Portrait)" true initial_world
    = ((Some canvas, None), initial_world).
Proof.
  destruct (add_borders_preview_image sample_resize sample_save sample_path
              (NumpyArray sample_array) sample_image "#102030" "4:5 (Portrait)" (4, 5)
              initial_world eq_refl sample_image_valid eq_refl)
    as (canvas & Hc & Hsmall & _).
  exists canvas. split; [exact Hc|].
  apply Hsmall.
  assert (E : Ok canvas = composite sample_image "#102030" "4:5 (Portrait)")
    by (symmetry; exact Hc).
  vm_compute in E. injection E as ->. vm_compute. split; discriminate.
Defined.

Lemma resize_for_preview_zero_side_witness :
  (width sample_thin_tall = 0 /\ 800 < height sample_thin_tall) /\
  resize_for_preview sample_resize sample_thin_tall 800 initial_world
  = (sample_thin_tall, print "resize_for_preview" ZeroDivisionError initial_world).
Proof.
  assert (H : width sample_thin_tall = 0 /\ 800 < height sample_thin_tall)
    by (split; reflexivity).
  split; [exact H|].
  apply (resize_for_preview_zero_side sample_resize sample_thin_tall initial_world).
  left. exact H.
Defined.

(** * The two models of strings agree on the characters below 256 *)

Lemma of_string_app (a b : string) :
  PyUni.of_string (a ++ b) = (PyUni.of_string a ++ PyUni.of_string b)%list.
Proof.
  unfold PyUni.of_string. induction a as [|c a IH]; [reflexivity|].
  cbn [append list_ascii_of_string map app]. f_equal. exact IH.
Qed.

Lemma N_of_ascii_eqb (c c' : ascii) :
  (N_of_ascii c' =? N_of_ascii c)%N = Ascii.eqb c' c.
Proof.
  destruct (Ascii.eqb_spec c' c) as [->|Hne].
  - apply N.eqb_refl.
  - apply N.eqb_neq. intros H. apply Hne.
    rewrite <- (ascii_N_embedding c'), <- (ascii_N_embedding c), H. reflexivity.
Qed.

Lemma result_eqb_eq (x y : result Z) : result_eqb x y = true -> x = y.
Proof.
  destruct x as [a|[]], y as [b|[]]; cbn; intros H; try discriminate; try reflexivity.
  apply Z.eqb_eq in H. congruence.
Qed.

Lemma check_to_ascii_short (t : string) :
  (String.length t <= 2)%nat ->
  PyStr.int16 (latin1_to_ascii t) = PyStr.int16 t.
Proof.
  assert (H1 : forallb (fun c => check_to_ascii (String c EmptyString)) all_ascii = true)
    by (vm_compute; reflexivity).
  assert (H2 : forallb (fun c1 =>
                  forallb (fun c2 => check_to_ascii (String c1 (String c2 EmptyString)))
                    all_ascii) all_ascii = true)
    by (vm_compute; reflexivity).
  rewrite forallb_forall in H1, H2.
  assert (Heq : forall t', check_to_ascii t' = true ->
                  PyStr.int16 (latin1_to_ascii t') = PyStr.int16 t').
  { intros t' H. apply result_eqb_eq. exact H. }
  destruct t as [|c1 [|c2 [|c3 t]]]; cbn [String.length]; intros Hl; try lia.
  - reflexivity.
  - apply Heq, H1, in_all_ascii.
  - apply Heq. specialize (H2 c1 (in_all_ascii c1)).
    rewrite forallb_forall in H2. apply H2, in_all_ascii.
Qed.

Lemma split_point_chars (x : string) (c : ascii) :
  In c (list_ascii_of_string x) ->
  In c (list_ascii_of_string (fst (PyStr.split_point x))) \/ c = "."%char \/
  match snd (PyStr.split_point x) with
  | Some t => In c (list_ascii_of_string t)
  | None => False
  end.
Proof.
  induction x as [|a x IH]; [contradiction|].
  cbn [PyStr.split_point list_ascii_of_string].
  destruct (Ascii.eqb_spec a ".") as [->|Hne].
  - cbn [fst snd]. intros [<-|H]; auto.
  - destruct (PyStr.split_point x) as [p q]. cbn [fst snd] in *.
    intros [<-|H]; [left; cbn; auto|].
    destruct (IH H) as [H'|[H'|H']]; [left; cbn; auto|auto|auto].
Qed.

Lemma all_digits_chars (a : string) (c : ascii) :
  PyStr.all_digits a = true -> In c (list_ascii_of_string a) -> PyStr.is_digit c = true.
Proof.
  induction a as [|d a IH]; [contradiction|].
  cbn [PyStr.all_digits list_ascii_of_string]. intros H.
  apply andb_prop in H as [Hd Ha]. intros [<-|Hin]; auto.
Qed.

Lemma is_digit_ascii (c : ascii) : PyStr.is_digit c = true -> PyStr.code c < 127.
Proof.
  unfold PyStr.is_digit, PyStr.in_range. intros H.
  apply andb_prop in H as [_ H]. apply Z.leb_le in H.
  change (PyStr.code "9") with 57 in H. lia.
Qed.

(** The texts that [float] reads here are ASCII. *)
Lemma decimal_ascii (x : string) :
  decimal x -> forall c, In c (list_ascii_of_string x) -> PyStr.code c < 127.
Proof.
  intros [f Hf] c Hc. unfold PyStr.float_of_str in Hf.
  pose proof (split_point_chars x c Hc) as Hsp.
  destruct (PyStr.split_point x) as [a b]. cbn [fst snd] in Hsp.
  destruct (PyStr.all_digits a) eqn:Ea; [|discriminate].
  destruct b as [t|].
  - destruct (PyStr.all_digits t) eqn:Et; [|discriminate].
    destruct Hsp as [H|[->|H]].
    + apply is_digit_ascii. exact (all_digits_chars a c Ea H).
    + reflexivity.
    + apply is_digit_ascii. exact (all_digits_chars t c Et H).
  - destruct Hsp as [H|[->|[]]].
    + apply is_digit_ascii. exact (all_digits_chars a c Ea H).
    + reflexivity.
Qed.

Section Agreement.

Variable to_decimal : N -> option Z.
Variable isspace : N -> bool.

(** The database agrees with the tables of [PyStr] below 256. *)
Hypothesis isdecimal_latin1 :
  forall c : ascii, PyUni.isdecimal to_decimal (N_of_ascii c) = PyStr.is_digit c.
Hypothesis isspace_latin1 :
  forall c : ascii, isspace (N_of_ascii c) = PyStr.is_space c.

Lemma atom_matches_latin1 (a : PyStr.atom) (c : ascii) :
  PyUni.atom_matches to_decimal isspace a (N_of_ascii c) = PyStr.atom_matches a c.
Proof.
  destruct a as [c'| |]; cbn [PyUni.atom_matches PyStr.atom_matches].
  - apply N_of_ascii_eqb.
  - apply isdecimal_latin1.
  - apply isspace_latin1.
Qed.

Lemma push_latin1 (c : ascii) (k : PyStr.captures) :
  PyUni.push (N_of_ascii c) (of_captures k) = of_captures (PyStr.push c k).
Proof.
  unfold PyUni.push, PyStr.push, of_captures. cbn [PyUni.closed PyUni.cur PyStr.closed PyStr.cur].
  f_equal. destruct (PyStr.cur k) as [t|]; [|reflexivity].
  cbn [option_map]. rewrite of_string_app. reflexivity.
Qed.

Lemma gopen_latin1 (k : PyStr.captures) :
  PyUni.gopen (of_captures k) = of_captures (PyStr.gopen k).
Proof. reflexivity. Qed.

Lemma gclose_latin1 (k : PyStr.captures) :
  PyUni.gclose (of_captures k) = of_captures (PyStr.gclose k).
Proof.
  unfold PyUni.gclose, PyStr.gclose, of_captures.
  cbn [PyUni.closed PyUni.cur PyStr.closed PyStr.cur].
  destruct (PyStr.cur k) as [t|]; cbn [option_map]; [|reflexivity].
  rewrite map_app. reflexivity.
Qed.

Lemma orelse_map {A B : Type} (f : A -> B) (x y : option A) :
  PyStr.orelse (option_map f x) (option_map f y) = option_map f (PyStr.orelse x y).
Proof. destruct x; reflexivity. Qed.

(** The two matchers run in step. *)
Lemma rmatch_latin1 (r : list PyStr.item) :
  forall (s : string) (k : PyStr.captures),
    PyUni.rmatch to_decimal isspace r (PyUni.of_string s) (of_captures k)
    = option_map of_captures (PyStr.rmatch r s k).
Proof.
  induction r as [|[a|a|a|a| |] r IH]; intros s k.
  - reflexivity.
  - destruct s as [|c s]; [reflexivity|].
    change (PyUni.of_string (String c s)) with (N_of_ascii c :: PyUni.of_string s).
    cbn [PyUni.rmatch PyStr.rmatch]. rewrite atom_matches_latin1.
    destruct (PyStr.atom_matches a c); [|reflexivity].
    rewrite push_latin1. apply IH.
  - destruct s as [|c s].
    + cbn [PyUni.rmatch PyStr.rmatch]. apply (IH EmptyString).
    + change (PyUni.of_string (String c s)) with (N_of_ascii c :: PyUni.of_string s).
      cbn [PyUni.rmatch PyStr.rmatch]. rewrite atom_matches_latin1.
      change (N_of_ascii c :: PyUni.of_string s) with (PyUni.of_string (String c s)).
      destruct (PyStr.atom_matches a c); [|apply IH].
      rewrite push_latin1, !IH. apply orelse_map.
  - cbn [PyUni.rmatch PyStr.rmatch]. revert k.
    induction s as [|c s IHs]; intros k.
    + apply (IH EmptyString).
    + change (PyUni.of_string (String c s)) with (N_of_ascii c :: PyUni.of_string s).
      cbn beta iota. rewrite atom_matches_latin1.
      change (N_of_ascii c :: PyUni.of_string s) with (PyUni.of_string (String c s)).
      destruct (PyStr.atom_matches a c); [|apply IH].
      rewrite push_latin1, IHs, IH. apply orelse_map.
  - destruct s as [|c s]; [reflexivity|].
    change (PyUni.of_string (String c s)) with (N_of_ascii c :: PyUni.of_string s).
    cbn [PyUni.rmatch PyStr.rmatch]. rewrite atom_matches_latin1.
    destruct (PyStr.atom_matches a c); [|reflexivity].
    rewrite push_latin1. generalize (PyStr.push c k). clear k c.
    induction s as [|c s IHs]; intros k.
    + apply (IH EmptyString).
    + change (PyUni.of_string (String c s)) with (N_of_ascii c :: PyUni.of_string s).
      cbn beta iota. rewrite atom_matches_latin1.
      change (N_of_ascii c :: PyUni.of_string s) with (PyUni.of_string (String c s)).
      destruct (PyStr.atom_matches a c); [|apply IH].
      rewrite push_latin1, IHs, IH. apply orelse_map.
  - cbn [PyUni.rmatch PyStr.rmatch]. rewrite gopen_latin1. apply IH.
  - cbn [PyUni.rmatch PyStr.rmatch]. rewrite gclose_latin1. apply IH.
Qed.

Lemma re_match_latin1 (r : list PyStr.item) (s : string) :
  PyUni.re_match to_decimal isspace r (PyUni.of_string s)
  = option_map (map PyUni.of_string) (PyStr.re_match r s).
Proof.
  unfold PyUni.re_match, PyStr.re_match.
  change {| PyUni.closed := []; PyUni.cur := None |}
    with (of_captures {| PyStr.closed := []; PyStr.cur := None |}).
  rewrite rmatch_latin1.
  destruct (PyStr.rmatch r s _); reflexivity.
Qed.

Lemma code_N_of_ascii (c : ascii) :
  (N_of_ascii c <? 127)%N = (PyStr.code c <? 127).
Proof.
  unfold PyStr.code.
  destruct (N.ltb_spec (N_of_ascii c) 127), (Z.ltb_spec (Z.of_N (N_of_ascii c)) 127);
    try reflexivity; lia.
Qed.

Lemma to_ascii_latin1 (t : string) :
  PyUni.to_ascii to_decimal isspace (PyUni.of_string t) = latin1_to_ascii t.
Proof.
  induction t as [|c t IH]; [reflexivity|].
  change (PyUni.of_string (String c t)) with (N_of_ascii c :: PyUni.of_string t).
  cbn [PyUni.to_ascii latin1_to_ascii].
  rewrite code_N_of_ascii, ascii_N_embedding, isspace_latin1, IH.
  destruct (Z.ltb_spec (PyStr.code c) 127) as [Hc|Hc]; [reflexivity|].
  destruct (PyStr.is_space c); [reflexivity|].
  pose proof (isdecimal_latin1 c) as Hd. unfold PyUni.isdecimal in Hd.
  destruct (to_decimal (N_of_ascii c)); [|reflexivity].
  symmetry in Hd. unfold PyStr.is_digit, PyStr.in_range in Hd.
  apply andb_prop in Hd as [_ Hd]. apply Z.leb_le in Hd.
  change (PyStr.code "9") with 57 in Hd. lia.
Qed.

Lemma latin1_to_ascii_id (x : string) :
  (forall c, In c (list_ascii_of_string x) -> PyStr.code c < 127) ->
  latin1_to_ascii x = x.
Proof.
  induction x as [|c x IH]; intros H; [reflexivity|].
  cbn [latin1_to_ascii].
  replace (PyStr.code c <? 127) with true
    by (symmetry; apply Z.ltb_lt; apply H; cbn; auto).
  rewrite IH; [reflexivity|]. intros c' Hc'. apply H. cbn. auto.
Qed.

Lemma int16_latin1 (t : string) :
  (String.length t <= 2)%nat ->
  PyUni.int16 to_decimal isspace (PyUni.of_string t) = PyStr.int16 t.
Proof.
  intros Hl. unfold PyUni.int16. rewrite to_ascii_latin1.
  apply check_to_ascii_short. assumption.
Qed.

Lemma slice2_latin1 (s : string) (k : nat) :
  PyUni.slice2 (PyUni.of_string s) k = PyUni.of_string (PyStr.slice2 s k).
Proof.
  unfold PyUni.slice2, PyStr.slice2. revert s.
  induction k as [|k IH]; intros s.
  - cbn [skipn]. destruct s as [|c1 [|c2 [|c3 s]]]; reflexivity.
  - destruct s as [|c s]; [reflexivity|].
    change (PyUni.of_string (String c s)) with (N_of_ascii c :: PyUni.of_string s).
    cbn [skipn substring]. apply IH.
Qed.

Lemma startswith_latin1 (s : string) :
  PyUni.startswith (PyUni.of_string "#") (PyUni.of_string s) = PyStr.startswith "#" s.
Proof.
  unfold PyStr.startswith. destruct s as [|c s]; [reflexivity|].
  change (PyUni.of_string "#") with [N_of_ascii "#"].
  change (PyUni.of_string (String c s)) with (N_of_ascii c :: PyUni.of_string s).
  cbn [PyUni.startswith prefix]. rewrite N_of_ascii_eqb, andb_true_r.
  destruct (Ascii.eqb_spec "#" c) as [<-|Hne].
  - destruct (ascii_dec "#" "#"); [|congruence]. destruct s; reflexivity.
  - destruct (ascii_dec "#" c); [congruence|reflexivity].
Qed.

Lemma int_of_float_str_latin1 (x : string) :
  decimal x ->
  PyUni.int_of_float_str to_decimal isspace (PyUni.of_string x) = int_of_float_str x.
Proof.
  intros Hx. unfold PyUni.int_of_float_str, PyUni.float_of_str, int_of_float_str.
  rewrite to_ascii_latin1, latin1_to_ascii_id; [reflexivity|].
  apply decimal_ascii. assumption.
Qed.

(** On the characters below 256, the parser of [PyUni] is [parse_color]. *)
Theorem parse_color_latin1 (s : string) :
  PyUni.parse_color to_decimal isspace (PyUni.of_string s) = parse_color s.
Proof.
  unfold PyUni.parse_color, parse_color. f_equal.
  unfold PyUni.parse_color_body, parse_color_body.
  rewrite re_match_latin1.
  destruct (PyStr.re_match rgba_pattern s) as [groups|] eqn:E; cbn [option_map].
  - destruct (re_match_groups s groups E) as (x1 & x2 & x3 & -> & D1 & D2 & D3).
    cbn [map PyUni.tuple3 tuple3].
    rewrite !int_of_float_str_latin1 by assumption. reflexivity.
  - rewrite startswith_latin1.
    destruct (PyStr.startswith "#" s); [|reflexivity].
    unfold PyUni.hex_triple. cbn [map PyUni.tuple3 tuple3].
    rewrite !slice2_latin1.
    rewrite !int16_latin1 by apply substring_length_le. reflexivity.
Qed.

End Agreement.

(** The tables of Unicode 14.0 agree with those of [PyStr] below 256. *)
Lemma unicode_latin1 (c : ascii) :
  PyUni.isdecimal PyUni.unicode_decimal (N_of_ascii c) = PyStr.is_digit c /\
  PyUni.unicode_isspace (N_of_ascii c) = PyStr.is_space c.
Proof.
  assert (H : forallb check_class all_ascii = true) by (vm_compute; reflexivity).
  rewrite forallb_forall in H. specialize (H c (in_all_ascii c)).
  unfold check_class in H. apply andb_prop in H as [H1 H2].
  split; apply eqb_prop; assumption.
Qed.

Theorem parse_color_unicode_latin1 (s : string) :
  PyUni.parse_color PyUni.unicode_decimal PyUni.unicode_isspace (PyUni.of_string s)
  = parse_color s.
Proof.
  apply parse_color_latin1; intros c; apply unicode_latin1.
Qed.
